(** * LLAS: a shallow embedding of the LAS reader of [include/llas.hpp]

    The development follows the header-only reader: the public header
    decoder, the (extended) variable length record decoders, the point data
    record decoder, the top-level [read], and the two derived views
    [getPointCoords] and [getPointColors].

    Modelling conventions.
    - The file content is a [list byte]; [std::vector<char> fileBytes].
    - Every [std::memcpy(&field, fileBytes.data() + offset, nBytes)] is a
      [memcpy nBytes] of the monad below.  The source performs no bounds
      check: a copy whose source range is not inside the buffer has no
      defined behaviour in C++, and is the outcome [Undefined] here.
    - Integers are [Z]; multi-byte fields are decoded least significant byte
      first (the host byte order the reader relies on).
    - [double] is IEEE 754 binary64, Rocq's primitive [float].
    - [_LLAS_logError] appends a diagnostic to the trace; the info and debug
      macros expand to nothing in a plain build and are left out.
    - [pointDataRecords.resize(n)] throws [std::length_error] when [n]
      exceeds [max_size()] of the vector, which the 64-bit point count of
      formats 6 to 10 can do; nothing in [read] catches it, so the run ends
      with the outcome [Thrown].  The 32-bit counts of the other vectors
      stay below their [max_size()].  Within [max_size()] the model has no
      bound on memory: [std::bad_alloc] depends on the host and is left
      out. *)

From Stdlib Require Import ZArith Lia Uint63.
From Stdlib Require Import Floats.PrimFloat Floats.FloatOps Floats.SpecFloat.
From Stdlib Require Import Floats.FloatAxioms.
From Stdlib Require Import Strings.String Init.Byte.
From stdpp Require Import base list.

Local Open Scope Z_scope.

(* ====================================================================== *)
(** * Bytes and numbers *)
(* ====================================================================== *)

Definition byte_val (b : byte) : Z := Z.of_N (Byte.to_N b).

(** Little-endian value of a run of bytes (what [memcpy] into an unsigned
    integer of that width yields on a little-endian host). *)
Fixpoint le_unsigned (bs : list byte) : Z :=
  match bs with
  | [] => 0
  | b :: bs' => byte_val b + 256 * le_unsigned bs'
  end.

(** Two's complement reading of the same bytes for a [w]-bit signed field. *)
Definition le_signed (w : Z) (bs : list byte) : Z :=
  let u := le_unsigned bs in
  if u <? 2 ^ (w - 1) then u else u - 2 ^ w.

(** An array of [w]-byte unsigned integers filled by one [memcpy]. *)
Fixpoint le_words (w : nat) (count : nat) (bs : list byte) : list Z :=
  match count with
  | O => []
  | S count' => le_unsigned (take w bs) :: le_words w count' (drop w bs)
  end.

(** Conversion of an unsigned 64-bit value to [std::streamsize] (int64). *)
Definition to_streamsize (u : Z) : Z :=
  if u <? 2 ^ 63 then u else u - 2 ^ 64.

(** The [double] whose binary64 representation is the 64-bit pattern [b]. *)
Definition double_of_bits (b : Z) : float :=
  let sign := Z.testbit b 63 in
  let e := Z.land (Z.shiftr b 52) 2047 in
  let m := Z.land b (2 ^ 52 - 1) in
  SF2Prim
    (if e =? 0 then
       if m =? 0 then S754_zero sign else S754_finite sign (Z.to_pos m) (-1074)
     else if e =? 2047 then
       if m =? 0 then S754_infinity sign else S754_nan
     else S754_finite sign (Z.to_pos (m + 2 ^ 52)) (e - 1075)).

(** [(double)v] for an integer [v]; exact below 2^53 in magnitude. *)
Definition double_of_int (v : Z) : float :=
  if v <? 0 then PrimFloat.opp (PrimFloat.of_uint63 (Uint63.of_Z (- v)))
  else PrimFloat.of_uint63 (Uint63.of_Z v).

(** Integer part of a [double], rounding toward zero: the value of a C++
    conversion from [double] to an integer type that can hold it. *)
Definition truncate (d : float) : Z :=
  match Prim2SF d with
  | S754_finite s m e =>
      let a := match e with
               | Z0 => Zpos m
               | Zpos p => Z.shiftl (Zpos m) (Zpos p)
               | Zneg p => Z.shiftr (Zpos m) (Zpos p)
               end in
      if s then - a else a
  | _ => 0
  end.

(* ====================================================================== *)
(** * Diagnostics, trace and the decoding monad *)
(* ====================================================================== *)

(** The calls of [_LLAS_logError] in the reader. *)
Inductive diagnostic :=
| FailedToOpenFile
| InvalidPointDataRecordFormat (format : Z)
| VLRsExceedPointData
| UnsupportedPointDataRecordFormat (format : Z)
| ExceedVLRPayloadLimit (recordLengthAfterHeader : Z).

Definition message (d : diagnostic) : string :=
  match d with
  | FailedToOpenFile => "Failed to open file: "
  | InvalidPointDataRecordFormat _ => "Invalid point data record format:  "
  | VLRsExceedPointData =>
      "The total size of VLRs exceeds the start of Point Data records!"
  | UnsupportedPointDataRecordFormat _ =>
      "Unsupported point data record format: "
  | ExceedVLRPayloadLimit _ =>
      "Exceed the payload limit of variable length record: "
  end.

(** What a run of the reader does that is visible from outside the value it
    returns: the ranges of [fileBytes] it copies and the errors it logs. *)
Inductive event :=
| Memcpy (off n : Z)
| LogError (d : diagnostic).

(** The exceptions of the standard library that escape from [read]. *)
Inductive exception :=
| length_error.

(** How a run ends: with a value, outside defined behaviour, or with an
    exception that nothing catches. *)
Inductive outcome (A : Type) :=
| Done (a : A)
| Undefined
| Thrown (e : exception).
Arguments Done {A} a.
Arguments Undefined {A}.
Arguments Thrown {A} e.

Record cursor := Cursor { offset : Z; trace : list event }.

Definition M (A : Type) : Type := cursor -> outcome (A * cursor).

Definition ret {A} (a : A) : M A := fun c => Done (a, c).

Definition bind {A B} (m : M A) (k : A -> M B) : M B :=
  fun c => match m c with
           | Done (a, c') => k a c'
           | Undefined => Undefined
           | Thrown e => Thrown e
           end.

Notation "x <- m ;; k" := (bind m (fun x => k))
  (at level 100, m at next level, right associativity).
Notation "m ;;; k" := (bind m (fun _ => k))
  (at level 100, right associativity).

Definition slice (bytes : list byte) (off n : Z) : list byte :=
  take (Z.to_nat n) (drop (Z.to_nat off) bytes).

Definition in_buffer (bytes : list byte) (off n : Z) : bool :=
  (0 <=? off) && (0 <=? n) && (off + n <=? Z.of_nat (length bytes)).

Section Cursor.
Variable fileBytes : list byte.

(** [std::memcpy(&dst, fileBytes.data() + offset, n)]: the offset is not
    moved, and nothing checks the range. *)
Definition memcpy (n : Z) : M (list byte) := fun c =>
  if in_buffer fileBytes (offset c) n
  then Done (slice fileBytes (offset c) n,
             Cursor (offset c) (trace c ++ [Memcpy (offset c) n]))
  else Undefined.

(** [offset += n]. *)
Definition advance (n : Z) : M unit := fun c =>
  Done (tt, Cursor (offset c + n) (trace c)).

(** [offset = o] (a fresh offset variable of the caller). *)
Definition seek (o : Z) : M unit := fun c =>
  Done (tt, Cursor o (trace c)).

Definition getOffset : M Z := fun c => Done (offset c, c).

Definition logError (d : diagnostic) : M unit := fun c =>
  Done (tt, Cursor (offset c) (trace c ++ [LogError d])).

(** The block repeated for every field:
    [{ memcpy(&field, data + offset, nBytes); offset += nBytes; }]. *)
Definition copyField (n : Z) : M (list byte) :=
  bs <- memcpy n ;; advance n ;;; ret bs.
End Cursor.

(** [v.resize(count)] on an empty [std::vector<T>] whose [max_size()] is
    [max_size]: [count] value-initialised elements, or [std::length_error]
    when [count] is beyond [max_size()]. *)
Definition resize {T} (max_size : Z) (value : T) (count : Z) : M (list T) :=
  fun c =>
    if count <=? max_size
    then Done (replicate (Z.to_nat count) value, c)
    else Thrown length_error.

(* ====================================================================== *)
(** * Data structures and decoders *)
(* ====================================================================== *)

Module PublicHeader.
Definition NUM_BYTES_FILE_SIGNATURE := 4.
Definition NUM_BYTES_FILE_SOURCE_ID := 2.
Definition NUM_BYTES_GLOBAL_ENCODING := 2.
Definition NUM_BYTES_PROJECT_ID_1 := 4.
Definition NUM_BYTES_PROJECT_ID_2 := 2.
Definition NUM_BYTES_PROJECT_ID_3 := 2.
Definition NUM_BYTES_PROJECT_ID_4 := 8.
Definition NUM_BYTES_VERSION_MAJOR := 1.
Definition NUM_BYTES_VERSION_MINOR := 1.
Definition NUM_BYTES_SYSTEM_IDENTIFIER := 32.
Definition NUM_BYTES_GENERATING_SOFTWARE := 32.
Definition NUM_BYTES_FILE_CREATION_DAY_OF_YEAR := 2.
Definition NUM_BYTES_FILE_CREATION_YEAR := 2.
Definition NUM_BYTES_HEADER_SIZE := 2.
Definition NUM_BYTES_OFFSET_TO_POINT_DATA := 4.
Definition NUM_BYTES_NUM_OF_VARIABLE_LENGTH_RECORDS := 4.
Definition NUM_BYTES_POINT_DATA_RECORD_FORMAT := 1.
Definition NUM_BYTES_POINT_DATA_RECORD_LENGTH := 2.
Definition NUM_BYTES_LEGACY_NUM_OF_POINT_RECORDS := 4.
Definition NUM_BYTES_LEGACY_NUM_OF_POINT_BY_RETURN := 20.
Definition NUM_BYTES_X_SCALE_FACTOR := 8.
Definition NUM_BYTES_Y_SCALE_FACTOR := 8.
Definition NUM_BYTES_Z_SCALE_FACTOR := 8.
Definition NUM_BYTES_X_OFFSET := 8.
Definition NUM_BYTES_Y_OFFSET := 8.
Definition NUM_BYTES_Z_OFFSET := 8.
Definition NUM_BYTES_MAX_X := 8.
Definition NUM_BYTES_MAX_Y := 8.
Definition NUM_BYTES_MAX_Z := 8.
Definition NUM_BYTES_MIN_X := 8.
Definition NUM_BYTES_MIN_Y := 8.
Definition NUM_BYTES_MIN_Z := 8.
Definition NUM_BYTES_START_OF_WAVEFORM_DATA_PACKET_RECORD := 8.
Definition NUM_BYTES_START_OF_FIRST_EXTENDED_VARIABLE_LENGTH_RECORD := 8.
Definition NUM_BYTES_NUM_OF_EXTENDED_VARIABLE_LENGTH_RECORDS := 4.
Definition NUM_BYTES_NUM_OF_POINT_RECORDS := 8.
Definition NUM_BYTES_NUM_OF_POINTS_BY_RETURN := 120.

(** The character arrays hold the copied bytes (the extra terminating
    zero of the C++ arrays is left out). *)
Record t := Build {
  fileSignature : list byte;
  fileSourceID : Z;
  globalEncoding : Z;
  projectID1 : Z;
  projectID2 : Z;
  projectID3 : Z;
  projectID4 : list byte;
  versionMajor : Z;
  versionMinor : Z;
  systemIdentifier : list byte;
  generatingSoftware : list byte;
  fileCreationDayOfYear : Z;
  fileCreationYear : Z;
  headerSize : Z;
  offsetToPointData : Z;
  numOfVariableLengthRecords : Z;
  pointDataRecordFormat : Z;
  pointDataRecordLength : Z;
  legacyNumOfPointRecords : Z;
  legacyNumOfPointByReturn : list Z;
  xScaleFactor : float;
  yScaleFactor : float;
  zScaleFactor : float;
  xOffset : float;
  yOffset : float;
  zOffset : float;
  maxX : float;
  maxY : float;
  maxZ : float;
  minX : float;
  minY : float;
  minZ : float;
  startOfWaveformDataPacketRecord : Z;
  startOfFirstExtendedVariableLengthRecord : Z;
  numOfExtendedVariableLengthRecords : Z;
  numOfPointRecords : Z;
  numOfPointsByReturn : list Z;
  hasStartOfWaveformDataPacketRecord : bool;
  hasStartOfFirstExtendedVariableLengthRecord : bool;
  hasNumOfExtendedVariableLengthRecords : bool;
  hasNumOfPointRecords : bool;
  hasNumOfPointsByReturn : bool
}.

(** The value-initialised header of the constructor [PublicHeader()]. *)
Definition default : t :=
  Build (replicate 4 x00) 0 0 0 0 0 (replicate 8 x00) 0 0
        (replicate 32 x00) (replicate 32 x00) 0 0 0 0 0 0 0 0
        (replicate 5 0)
        0%float 0%float 0%float 0%float 0%float 0%float
        0%float 0%float 0%float 0%float 0%float 0%float
        0 0 0 0 (replicate 15 0)
        false false false false false.

Section Decoder.
Variable fileBytes : list byte.
Local Abbreviation field := (copyField fileBytes).

Definition uintField (n : Z) : M Z :=
  bs <- field n ;; ret (le_unsigned bs).

Definition doubleField (n : Z) : M float :=
  bs <- field n ;; ret (double_of_bits (le_unsigned bs)).

(** [readPublicHeader]: the fields in file order from offset 0.  The
    five [has...] flags start [false] and are raised right after the
    minor version is copied; a gated field keeps the constructor's zero
    when its flag is down. *)
Definition readPublicHeader : M t :=
  seek 0 ;;;
  fileSignature <- field NUM_BYTES_FILE_SIGNATURE ;;
  fileSourceID <- uintField NUM_BYTES_FILE_SOURCE_ID ;;
  globalEncoding <- uintField NUM_BYTES_GLOBAL_ENCODING ;;
  projectID1 <- uintField NUM_BYTES_PROJECT_ID_1 ;;
  projectID2 <- uintField NUM_BYTES_PROJECT_ID_2 ;;
  projectID3 <- uintField NUM_BYTES_PROJECT_ID_3 ;;
  projectID4 <- field NUM_BYTES_PROJECT_ID_4 ;;
  versionMajor <- uintField NUM_BYTES_VERSION_MAJOR ;;
  versionMinor <- uintField NUM_BYTES_VERSION_MINOR ;;
  let hasStartOfWaveformDataPacketRecord := 3 <=? versionMinor in
  let hasStartOfFirstExtendedVariableLengthRecord := 4 <=? versionMinor in
  let hasNumOfExtendedVariableLengthRecords := 4 <=? versionMinor in
  let hasNumOfPointRecords := 4 <=? versionMinor in
  let hasNumOfPointsByReturn := 4 <=? versionMinor in
  systemIdentifier <- field NUM_BYTES_SYSTEM_IDENTIFIER ;;
  generatingSoftware <- field NUM_BYTES_GENERATING_SOFTWARE ;;
  fileCreationDayOfYear <- uintField NUM_BYTES_FILE_CREATION_DAY_OF_YEAR ;;
  fileCreationYear <- uintField NUM_BYTES_FILE_CREATION_YEAR ;;
  headerSize <- uintField NUM_BYTES_HEADER_SIZE ;;
  offsetToPointData <- uintField NUM_BYTES_OFFSET_TO_POINT_DATA ;;
  numOfVariableLengthRecords <-
    uintField NUM_BYTES_NUM_OF_VARIABLE_LENGTH_RECORDS ;;
  pointDataRecordFormat <- uintField NUM_BYTES_POINT_DATA_RECORD_FORMAT ;;
  pointDataRecordLength <- uintField NUM_BYTES_POINT_DATA_RECORD_LENGTH ;;
  legacyNumOfPointRecords <-
    uintField NUM_BYTES_LEGACY_NUM_OF_POINT_RECORDS ;;
  legacyNumOfPointByReturn <-
    field NUM_BYTES_LEGACY_NUM_OF_POINT_BY_RETURN ;;
  xScaleFactor <- doubleField NUM_BYTES_X_SCALE_FACTOR ;;
  yScaleFactor <- doubleField NUM_BYTES_Y_SCALE_FACTOR ;;
  zScaleFactor <- doubleField NUM_BYTES_Z_SCALE_FACTOR ;;
  xOffset <- doubleField NUM_BYTES_X_OFFSET ;;
  yOffset <- doubleField NUM_BYTES_Y_OFFSET ;;
  zOffset <- doubleField NUM_BYTES_Z_OFFSET ;;
  maxX <- doubleField NUM_BYTES_MAX_X ;;
  minX <- doubleField NUM_BYTES_MIN_X ;;
  maxY <- doubleField NUM_BYTES_MAX_Y ;;
  minY <- doubleField NUM_BYTES_MIN_Y ;;
  maxZ <- doubleField NUM_BYTES_MAX_Z ;;
  minZ <- doubleField NUM_BYTES_MIN_Z ;;
  startOfWaveformDataPacketRecord <-
    (if hasStartOfWaveformDataPacketRecord
     then uintField NUM_BYTES_START_OF_WAVEFORM_DATA_PACKET_RECORD
     else ret 0) ;;
  startOfFirstExtendedVariableLengthRecord <-
    (if hasStartOfFirstExtendedVariableLengthRecord
     then uintField
            NUM_BYTES_START_OF_FIRST_EXTENDED_VARIABLE_LENGTH_RECORD
     else ret 0) ;;
  numOfExtendedVariableLengthRecords <-
    (if hasNumOfExtendedVariableLengthRecords
     then uintField NUM_BYTES_NUM_OF_EXTENDED_VARIABLE_LENGTH_RECORDS
     else ret 0) ;;
  numOfPointRecords <-
    (if hasNumOfPointRecords
     then uintField NUM_BYTES_NUM_OF_POINT_RECORDS
     else ret 0) ;;
  numOfPointsByReturn <-
    (if hasNumOfPointsByReturn
     then bs <- field NUM_BYTES_NUM_OF_POINTS_BY_RETURN ;;
          ret (le_words 8 15 bs)
     else ret (replicate 15 0)) ;;
  ret (Build fileSignature fileSourceID globalEncoding
             projectID1 projectID2 projectID3 projectID4
             versionMajor versionMinor
             systemIdentifier generatingSoftware
             fileCreationDayOfYear fileCreationYear
             headerSize offsetToPointData numOfVariableLengthRecords
             pointDataRecordFormat pointDataRecordLength
             legacyNumOfPointRecords
             (le_words 4 5 legacyNumOfPointByReturn)
             xScaleFactor yScaleFactor zScaleFactor
             xOffset yOffset zOffset
             maxX maxY maxZ minX minY minZ
             startOfWaveformDataPacketRecord
             startOfFirstExtendedVariableLengthRecord
             numOfExtendedVariableLengthRecords
             numOfPointRecords numOfPointsByReturn
             hasStartOfWaveformDataPacketRecord
             hasStartOfFirstExtendedVariableLengthRecord
             hasNumOfExtendedVariableLengthRecords
             hasNumOfPointRecords
             hasNumOfPointsByReturn).
End Decoder.
End PublicHeader.

Module VariableLengthRecord.
Definition NUM_BYTES_RESERVED := 2.
Definition NUM_BYTES_USER_ID := 16.
Definition NUM_BYTES_RECORD_ID := 2.
Definition NUM_BYTES_RECORD_LENGTH_AFTER_HEADER := 2.
Definition NUM_BYTES_DESCPIPTION := 32.

Record t := Build {
  reserved : Z;                    (* LLAS_UCHAR *)
  userID : list byte;
  recordID : Z;                    (* LLAS_USHORT *)
  recordLengthAfterHeader : Z;     (* LLAS_USHORT *)
  description : list byte;
  record : list byte
}.

Definition default : t :=
  Build 0 (replicate 16 x00) 0 0 (replicate 32 x00) [].

Section Decoder.
Variable fileBytes : list byte.
Local Abbreviation field := (copyField fileBytes).

(** [readVariableLengthRecord(fileBytes, offset)]; the offset is the
    caller's, passed by reference.  [reserved] is one byte wide while two
    are copied: it keeps the first, the second lands on [userID[0]],
    which the next copy overwrites.  The payload is taken with
    [record.assign] from the range that follows the prefix; it is traced
    as a copy like the fields. *)
Definition readVariableLengthRecord : M t :=
  reserved <- field NUM_BYTES_RESERVED ;;
  userID <- field NUM_BYTES_USER_ID ;;
  recordID <- field NUM_BYTES_RECORD_ID ;;
  recordLengthAfterHeader <- field NUM_BYTES_RECORD_LENGTH_AFTER_HEADER ;;
  description <- field NUM_BYTES_DESCPIPTION ;;
  let recordLengthAfterHeader := le_unsigned recordLengthAfterHeader in
  record <-
    (if recordLengthAfterHeader <=? 65535 then
       field recordLengthAfterHeader
     else
       logError (ExceedVLRPayloadLimit recordLengthAfterHeader) ;;;
       ret []) ;;
  ret (Build (le_unsigned (take 1 reserved)) userID (le_unsigned recordID)
             recordLengthAfterHeader description record).
End Decoder.
End VariableLengthRecord.

Module PointDataRecord.
Definition NUM_BYTES_X := 4.
Definition NUM_BYTES_Y := 4.
Definition NUM_BYTES_Z := 4.
Definition NUM_BYTES_INTENSITY := 2.
Definition NUM_BYTES_SENSOR_DATA := 1.
Definition NUM_BYTES_CLASSIFICATION := 1.
Definition NUM_BYTES_SCAN_ANGLE_RANK := 1.
Definition NUM_BYTES_USER_DATA := 1.
Definition NUM_BYTES_POINT_SOURCE_ID := 2.
Definition NUM_BYTES_GPS_TIME := 8.
Definition NUM_BYTES_RED := 2.
Definition NUM_BYTES_GREEN := 2.
Definition NUM_BYTES_BLUE := 2.

Record t := Build {
  x : Z;                 (* LLAS_LONG *)
  y : Z;
  z : Z;
  intensity : Z;         (* LLAS_USHORT *)
  classification : Z;    (* LLAS_UCHAR *)
  scanAngleRank : Z;     (* LLAS_SCHAR *)
  userData : Z;          (* LLAS_UCHAR *)
  pointSourceID : Z;     (* LLAS_USHORT *)
  GPSTime : float;
  red : Z;               (* LLAS_USHORT *)
  green : Z;
  blue : Z
}.

(** The value-initialised record of [PointDataRecord()]. *)
Definition default : t := Build 0 0 0 0 0 0 0 0 0%float 0 0 0.

(** [sizeof(PointDataRecord)]: the members in declaration order under the
    usual alignment (x, y, z at 0, 4, 8; intensity at 12; three one-byte
    members at 14 to 16; pointSourceID at 18; GPSTime at 24; the colours at
    32 to 37; two bytes of padding at the end). *)
Definition sizeof : Z := 40.

(** [std::vector<PointDataRecord>::max_size()] on a 64-bit target, as
    libstdc++ defines it: [PTRDIFF_MAX / sizeof(PointDataRecord)].  Every
    32-bit count is below it; a 64-bit count need not be. *)
Definition max_size : Z := (2 ^ 63 - 1) / sizeof.

Section Decoder.
Variable fileBytes : list byte.
Local Abbreviation field := (copyField fileBytes).

Definition _readPointDataRecordFotmat0to4 (format : Z) : M t :=
  x <- field NUM_BYTES_X ;;
  y <- field NUM_BYTES_Y ;;
  z <- field NUM_BYTES_Z ;;
  intensity <- field NUM_BYTES_INTENSITY ;;
  (* Sensor data: skipped, nothing is copied *)
  advance NUM_BYTES_SENSOR_DATA ;;;
  classification <- field NUM_BYTES_CLASSIFICATION ;;
  scanAngleRank <- field NUM_BYTES_SCAN_ANGLE_RANK ;;
  userData <- field NUM_BYTES_USER_DATA ;;
  pointSourceID <- field NUM_BYTES_POINT_SOURCE_ID ;;
  GPSTime <-
    (if (format =? 1) || (format =? 3) || (format =? 4) then
       bs <- field NUM_BYTES_GPS_TIME ;;
       ret (double_of_bits (le_unsigned bs))
     else ret 0%float) ;;
  rgb <-
    (if (format =? 2) || (format =? 3) then
       red <- field NUM_BYTES_RED ;;
       green <- field NUM_BYTES_GREEN ;;
       blue <- field NUM_BYTES_BLUE ;;
       ret (le_unsigned red, le_unsigned green, le_unsigned blue)
     else ret (0, 0, 0)) ;;
  ret (Build (le_signed 32 x) (le_signed 32 y) (le_signed 32 z)
             (le_unsigned intensity) (le_unsigned classification)
             (le_signed 8 scanAngleRank) (le_unsigned userData)
             (le_unsigned pointSourceID) GPSTime
             rgb.1.1 rgb.1.2 rgb.2).

Definition _readPointDataRecordFotmat5to15 (format : Z) : M t :=
  logError (UnsupportedPointDataRecordFormat format) ;;;
  ret default.

Definition readPointDataRecord (format : Z) : M t :=
  if (0 <=? format) && (format <? 5) then
    _readPointDataRecordFotmat0to4 format
  else if (5 <=? format) && (format <? 16) then
    _readPointDataRecordFotmat5to15 format
  else
    logError (UnsupportedPointDataRecordFormat format) ;;;
    ret default.
End Decoder.
End PointDataRecord.

Module ExtendedVariableLengthRecord.
Definition NUM_BYTES_RESERVED := 2.
Definition NUM_BYTES_USER_ID := 16.
Definition NUM_BYTES_RECORD_ID := 2.
Definition NUM_BYTES_RECORD_LENGTH_AFTER_HEADER := 16.
Definition NUM_BYTES_DESCPIPTION := 32.

Record t := Build {
  reserved : Z;                    (* LLAS_UCHAR *)
  userID : list byte;
  recordID : Z;                    (* LLAS_USHORT *)
  recordLengthAfterHeader : Z;     (* LLAS_ULLONG *)
  description : list byte;
  record : list byte
}.

Definition default : t :=
  Build 0 (replicate 16 x00) 0 0 (replicate 32 x00) [].

Section Decoder.
Variable fileBytes : list byte.
Local Abbreviation field := (copyField fileBytes).

(** [readExtendedVariableLengthRecord(fileBytes, offset)].  Sixteen bytes
    are copied for the 8-byte length: the field keeps the first eight,
    the rest lands on [description], which the next copy overwrites.  The
    payload length is the length converted to [std::streamsize]. *)
Definition readExtendedVariableLengthRecord : M t :=
  reserved <- field NUM_BYTES_RESERVED ;;
  userID <- field NUM_BYTES_USER_ID ;;
  recordID <- field NUM_BYTES_RECORD_ID ;;
  recordLengthAfterHeader <- field NUM_BYTES_RECORD_LENGTH_AFTER_HEADER ;;
  description <- field NUM_BYTES_DESCPIPTION ;;
  let recordLengthAfterHeader :=
    le_unsigned (take 8 recordLengthAfterHeader) in
  record <- field (to_streamsize recordLengthAfterHeader) ;;
  ret (Build (le_unsigned (take 1 reserved)) userID (le_unsigned recordID)
             recordLengthAfterHeader description record).
End Decoder.
End ExtendedVariableLengthRecord.

Module LasData.
Record t := Build {
  header : PublicHeader.t;
  variableLengthRecords : list VariableLengthRecord.t;
  pointDataRecords : list PointDataRecord.t;
  extendedVariableLengthRecord : list ExtendedVariableLengthRecord.t
}.

Definition getNumPoints (d : t) : nat := length (pointDataRecords d).

(** [getPointCoords(rescale)]: [coords] is sized [3 * nPoints] and the
    loop writes the three slots of point [i] at [3 * i]. *)
Definition getPointCoords (rescale : bool) (d : t) : list float :=
  let nPoints := getNumPoints d in
  let coords := replicate (3 * nPoints) 0%float in
  foldl
    (fun coords i =>
       let r := nth i (pointDataRecords d) PointDataRecord.default in
       let x := double_of_int (PointDataRecord.x r) in
       let y := double_of_int (PointDataRecord.y r) in
       let z := double_of_int (PointDataRecord.z r) in
       let x := if rescale
                then (x * PublicHeader.xScaleFactor (header d)
                      + PublicHeader.xOffset (header d))%float
                else x in
       let y := if rescale
                then (y * PublicHeader.yScaleFactor (header d)
                      + PublicHeader.yOffset (header d))%float
                else y in
       let z := if rescale
                then (z * PublicHeader.zScaleFactor (header d)
                      + PublicHeader.zOffset (header d))%float
                else z in
       let offset := (3 * i)%nat in
       <[(offset + 2)%nat := z]>
         (<[(offset + 1)%nat := y]> (<[(offset + 0)%nat := x]> coords)))
    coords (seq 0 nPoints).

Definition scaleFactor : float := (255.0 / 65535.0)%float.

(** [getPointColors()]: each channel is converted to [double], multiplied
    by [scaleFactor] and converted to [unsigned char]. *)
Definition getPointColors (d : t) : list Z :=
  let nPoints := getNumPoints d in
  let colors := replicate (3 * nPoints) 0 in
  foldl
    (fun colors i =>
       let r := nth i (pointDataRecords d) PointDataRecord.default in
       let red_d :=
         (double_of_int (PointDataRecord.red r) * scaleFactor)%float in
       let green_d :=
         (double_of_int (PointDataRecord.green r) * scaleFactor)%float in
       let blue_d :=
         (double_of_int (PointDataRecord.blue r) * scaleFactor)%float in
       let red := truncate red_d in
       let green := truncate green_d in
       let blue := truncate blue_d in
       let offset := (3 * i)%nat in
       <[(offset + 2)%nat := blue]>
         (<[(offset + 1)%nat := green]> (<[(offset + 0)%nat := red]> colors)))
    colors (seq 0 nPoints).
End LasData.

(* ====================================================================== *)
(** * The reader *)
(* ====================================================================== *)

Section Read.
Variable fileBytes : list byte.
Variable publicHeader : PublicHeader.t.

(** The loop over the variable length records.  [iRecord] counts up while
    [remaining] counts the iterations left; the result carries [isOK]. *)
Fixpoint readVariableLengthRecords (remaining iRecord : nat)
    (variableLengthRecords : list VariableLengthRecord.t)
    : M (list VariableLengthRecord.t * bool) :=
  match remaining with
  | O => ret (variableLengthRecords, true)
  | S remaining' =>
      offset <- getOffset ;;
      (* (LLAS_ULONG)offset >= publicHeader.offsetToPointData *)
      if PublicHeader.offsetToPointData publicHeader <=? offset mod 2 ^ 32
      then
        logError VLRsExceedPointData ;;;
        ret (variableLengthRecords, false)
      else
        variableLengthRecord <-
          VariableLengthRecord.readVariableLengthRecord fileBytes ;;
        readVariableLengthRecords remaining' (S iRecord)
          (<[iRecord := variableLengthRecord]> variableLengthRecords)
  end.

(** The loop over the point data records: record [iRecord] is decoded from
    [offsetToPointData + iRecord * pointDataRecordLength] (64-bit unsigned
    arithmetic, converted to [std::streamsize]). *)
Fixpoint readPointDataRecords (remaining iRecord : nat)
    (pointDataRecords : list PointDataRecord.t)
    : M (list PointDataRecord.t) :=
  match remaining with
  | O => ret pointDataRecords
  | S remaining' =>
      seek (to_streamsize
              ((PublicHeader.offsetToPointData publicHeader
                + Z.of_nat iRecord
                  * PublicHeader.pointDataRecordLength publicHeader)
               mod 2 ^ 64)) ;;;
      pointDataRecord <-
        PointDataRecord.readPointDataRecord fileBytes
          (PublicHeader.pointDataRecordFormat publicHeader) ;;
      readPointDataRecords remaining' (S iRecord)
        (<[iRecord := pointDataRecord]> pointDataRecords)
  end.

Fixpoint readExtendedVariableLengthRecords (remaining iRecord : nat)
    (extendedVariableLengthRecords : list ExtendedVariableLengthRecord.t)
    : M (list ExtendedVariableLengthRecord.t) :=
  match remaining with
  | O => ret extendedVariableLengthRecords
  | S remaining' =>
      extendedVariableLengthRecord <-
        ExtendedVariableLengthRecord.readExtendedVariableLengthRecord
          fileBytes ;;
      readExtendedVariableLengthRecords remaining' (S iRecord)
        (<[iRecord := extendedVariableLengthRecord]>
           extendedVariableLengthRecords)
  end.

(** The block "Read 'Variable Length Records'" of [read]: the records
    and the value it leaves in [isOK].  The vector is resized to a 32-bit
    count, which is below its [max_size()]. *)
Definition variableLengthRecordsBlock (pointDataOnly : bool)
    : M (list VariableLengthRecord.t * bool) :=
  if negb pointDataOnly then
    let nVariableLengthRecords :=
      Z.to_nat (PublicHeader.numOfVariableLengthRecords publicHeader) in
    seek (PublicHeader.headerSize publicHeader) ;;;
    readVariableLengthRecords nVariableLengthRecords 0
      (replicate nVariableLengthRecords VariableLengthRecord.default)
  else ret ([], true).

(** The block "Read 'Point Data Records'".  The vector is resized to the
    point count first; for formats 6 to 10 the count is the 64-bit field
    and the resize can throw. *)
Definition pointDataRecordsBlock : M (list PointDataRecord.t) :=
  let format := PublicHeader.pointDataRecordFormat publicHeader in
  let isLegacyFormat := format <=? 5 in
  let nPointRecords :=
    if isLegacyFormat
    then PublicHeader.legacyNumOfPointRecords publicHeader
    else PublicHeader.numOfPointRecords publicHeader in
  pointDataRecords <-
    resize PointDataRecord.max_size PointDataRecord.default nPointRecords ;;
  readPointDataRecords (Z.to_nat nPointRecords) 0 pointDataRecords.

(** The block "Read 'Extended Variable Length Records'". *)
Definition extendedVariableLengthRecordsBlock (pointDataOnly : bool)
    : M (list ExtendedVariableLengthRecord.t) :=
  if negb pointDataOnly
     && PublicHeader.hasStartOfFirstExtendedVariableLengthRecord
          publicHeader
     && PublicHeader.hasNumOfExtendedVariableLengthRecords publicHeader
  then
    let nExtendedVariableLengthRecords :=
      Z.to_nat
        (PublicHeader.numOfExtendedVariableLengthRecords publicHeader) in
    seek (to_streamsize
            (PublicHeader.startOfFirstExtendedVariableLengthRecord
               publicHeader)) ;;;
    readExtendedVariableLengthRecords nExtendedVariableLengthRecords 0
      (replicate nExtendedVariableLengthRecords
         ExtendedVariableLengthRecord.default)
  else ret [].

(** The part of [read] that follows the format check: the three blocks,
    then the output object, created only if [isOK] still holds. *)
Definition readRecords (pointDataOnly : bool) : M (option LasData.t) :=
  vlrs <- variableLengthRecordsBlock pointDataOnly ;;
  let variableLengthRecords := vlrs.1 in
  let isOK := vlrs.2 in
  pointDataRecords <- pointDataRecordsBlock ;;
  extendedVariableLengthRecords <-
    extendedVariableLengthRecordsBlock pointDataOnly ;;
  ret (if isOK
       then Some (LasData.Build publicHeader variableLengthRecords
                    pointDataRecords extendedVariableLengthRecords)
       else None).
End Read.

(** [read] once the file is in memory: header, format check, records. *)
Definition readBytes (fileBytes : list byte) (pointDataOnly : bool)
    : M (option LasData.t) :=
  publicHeader <- PublicHeader.readPublicHeader fileBytes ;;
  let format := PublicHeader.pointDataRecordFormat publicHeader in
  if (format <? 0) || (10 <? format) then
    (* NOTE: Format is defined from 0 to 10 *)
    logError (InvalidPointDataRecordFormat format) ;;;
    ret None
  else
    readRecords fileBytes publicHeader pointDataOnly.

(** [read(filePath, pointDataOnly)].  [file] is what opening [filePath]
    gives: [None] when the stream cannot be opened, the whole content
    otherwise.  The result is the returned pointer ([None] for [nullptr])
    together with the trace of the run. *)
Definition read (file : option (list byte)) (pointDataOnly : bool)
    : outcome (option LasData.t * list event) :=
  match file with
  | None => Done (None, [LogError FailedToOpenFile])
  | Some fileBytes =>
      match readBytes fileBytes pointDataOnly (Cursor 0 []) with
      | Done (lasData, c) => Done (lasData, trace c)
      | Undefined => Undefined
      | Thrown e => Thrown e
      end
  end.

(* ====================================================================== *)
(** * Sample files *)
(* ====================================================================== *)

Definition byte_of_Z (v : Z) : byte :=
  match Byte.of_N (Z.to_N (v mod 256)) with
  | Some b => b
  | None => x00
  end.

(** [n] bytes holding [v], least significant first. *)
Fixpoint le_bytes (n : nat) (v : Z) : list byte :=
  match n with
  | O => []
  | S n' => byte_of_Z v :: le_bytes n' (v / 256)
  end.

Definition zeros (n : nat) : list byte := replicate n x00.

(** A 227-byte public header (minor version below 3) with the given
    signature and decoding parameters; scale factors and offsets are given
    by their binary64 patterns, every other field is zero. *)
Definition sampleHeader (signature : list byte) (versionMinor headerSize
    offsetToPointData numOfVariableLengthRecords format recordLength
    numOfPointRecords scaleBits offsetBits : Z) : list byte :=
  signature ++ zeros 20 ++ [x01; byte_of_Z versionMinor] ++ zeros 68
  ++ le_bytes 2 headerSize ++ le_bytes 4 offsetToPointData
  ++ le_bytes 4 numOfVariableLengthRecords ++ [byte_of_Z format]
  ++ le_bytes 2 recordLength ++ le_bytes 4 numOfPointRecords ++ zeros 20
  ++ le_bytes 8 scaleBits ++ le_bytes 8 scaleBits ++ le_bytes 8 scaleBits
  ++ le_bytes 8 offsetBits ++ le_bytes 8 offsetBits ++ le_bytes 8 offsetBits
  ++ zeros 48.

Definition LASF : list byte := [x4c; x41; x53; x46].

(** A format-3 point record: X, Y, Z, intensity, then zeros up to the GPS
    time, then the GPS time pattern and the three colour channels. *)
Definition samplePoint3 (x y z intensity gpsBits red green blue : Z)
    : list byte :=
  le_bytes 4 x ++ le_bytes 4 y ++ le_bytes 4 z ++ le_bytes 2 intensity
  ++ zeros 6 ++ le_bytes 8 gpsBits
  ++ le_bytes 2 red ++ le_bytes 2 green ++ le_bytes 2 blue.

(** A variable length record with a payload of [payload] zero bytes. *)
Definition sampleVLR (recordID : Z) (payload : nat) : list byte :=
  zeros 2 ++ zeros 16 ++ le_bytes 2 recordID
  ++ le_bytes 2 (Z.of_nat payload) ++ zeros 32 ++ zeros payload.

(** The 148 bytes a version 1.4 header adds: waveform start, first EVLR
    start, EVLR count, 64-bit point count, 64-bit per-return counts. *)
Definition sampleTail14 (startOfFirstEVLR numOfEVLRs numOfPointRecords : Z)
    : list byte :=
  zeros 8 ++ le_bytes 8 startOfFirstEVLR ++ le_bytes 4 numOfEVLRs
  ++ le_bytes 8 numOfPointRecords ++ zeros 120.

(** 0.01 and 100.0 as binary64 patterns. *)
Definition bits_0_01 : Z := 0x3F847AE147AE147B.
Definition bits_100 : Z := 0x4059000000000000.

(** A well-formed 1.2 file: format 3, two 34-byte records, scale 0.01 and
    offset 100.0 on every axis. *)
Definition fileFormat3 : list byte :=
  sampleHeader LASF 2 227 227 0 3 34 2 bits_0_01 bits_100
  ++ samplePoint3 1000 (-5) 7 9 bits_100 65535 0 32767
  ++ samplePoint3 2000 0 1 3 bits_100 257 200 514.

(** The same layout with format 0 and 36-byte records: two records of 20
    decoded bytes, each followed by 16 bytes the decoder never copies. *)
Definition fileFormat0 : list byte :=
  sampleHeader LASF 2 227 227 0 0 36 2 bits_0_01 bits_100
  ++ le_bytes 4 11 ++ zeros 32 ++ le_bytes 4 22 ++ zeros 16.

(** A file that is [fileFormat3] but for its first four bytes, "XXXX". *)
Definition fileBadSignature : list byte :=
  sampleHeader [x58; x58; x58; x58] 2 227 227 0 3 34 2 bits_0_01 bits_100
  ++ samplePoint3 1000 (-5) 7 9 bits_100 65535 0 32767
  ++ samplePoint3 2000 0 1 3 bits_100 257 200 514.

(** Five variable length records declared, but point data starts right
    after the third (each record takes 54 + 3 bytes); no point records. *)
Definition fileVLROverflow : list byte :=
  sampleHeader LASF 2 227 (227 + 3 * 57) 5 0 20 0 bits_0_01 bits_100
  ++ sampleVLR 1 3 ++ sampleVLR 2 3 ++ sampleVLR 3 3.

(** Two variable length records that fit before the point data. *)
Definition fileTwoVLRs : list byte :=
  sampleHeader LASF 2 227 (227 + 2 * 57) 2 0 20 0 bits_0_01 bits_100
  ++ sampleVLR 1 3 ++ sampleVLR 2 3.

(** One record declared while point data starts at offset 0. *)
Definition fileVLRAtZero : list byte :=
  sampleHeader LASF 2 227 0 1 0 20 0 bits_0_01 bits_100.

(** A version 1.4 header declaring format 7 and two point records, with no
    byte after the header. *)
Definition fileFormat7 : list byte :=
  sampleHeader LASF 4 375 375 0 7 36 0 bits_0_01 bits_100
  ++ sampleTail14 0 0 2.

(** The same header declaring format 11. *)
Definition fileFormat11 : list byte :=
  sampleHeader LASF 4 375 375 0 11 36 0 bits_0_01 bits_100
  ++ sampleTail14 0 0 2.

(** A version 1.3 header alone (235 bytes). *)
Definition fileHeader13 : list byte :=
  sampleHeader LASF 3 235 235 0 0 20 0 bits_0_01 bits_100
  ++ le_bytes 8 4660.

(** [fileFormat3] cut in the middle of its second record. *)
Definition fileTruncated : list byte := take 280 fileFormat3.

(* ====================================================================== *)
(** * The file layout, by position *)
(* ====================================================================== *)

(** The definitions of this part describe a LAS file by absolute byte
    positions.  They are what the decoders above are compared with: the
    results below show that each decoder realises its layout. *)

Section Layout.
Variable bytes : list byte.

Definition uintAt (off n : Z) : Z := le_unsigned (slice bytes off n).
Definition intAt (w off n : Z) : Z := le_signed w (slice bytes off n).
Definition doubleAt (off : Z) : float := double_of_bits (uintAt off 8).

Definition minorAt : Z := uintAt 25 1.
Definition formatAt : Z := uintAt 104 1.

(** Bytes taken by a public header of the given minor version. *)
Definition headerLength (versionMinor : Z) : Z :=
  227 + (if 3 <=? versionMinor then 8 else 0)
      + (if 4 <=? versionMinor then 140 else 0).

Definition headerImage : PublicHeader.t :=
  let has3 := 3 <=? minorAt in
  let has4 := 4 <=? minorAt in
  PublicHeader.Build
    (slice bytes 0 4) (uintAt 4 2) (uintAt 6 2)
    (uintAt 8 4) (uintAt 12 2) (uintAt 14 2) (slice bytes 16 8)
    (uintAt 24 1) minorAt
    (slice bytes 26 32) (slice bytes 58 32)
    (uintAt 90 2) (uintAt 92 2)
    (uintAt 94 2) (uintAt 96 4) (uintAt 100 4)
    formatAt (uintAt 105 2) (uintAt 107 4)
    (le_words 4 5 (slice bytes 111 20))
    (doubleAt 131) (doubleAt 139) (doubleAt 147)
    (doubleAt 155) (doubleAt 163) (doubleAt 171)
    (doubleAt 179) (doubleAt 195) (doubleAt 211)
    (doubleAt 187) (doubleAt 203) (doubleAt 219)
    (if has3 then uintAt 227 8 else 0)
    (if has4 then uintAt 235 8 else 0)
    (if has4 then uintAt 243 4 else 0)
    (if has4 then uintAt 247 8 else 0)
    (if has4 then le_words 8 15 (slice bytes 255 120) else replicate 15 0)
    has3 has4 has4 has4 has4.

(** The copies made for the fields every header has. *)
Definition fixedHeaderCopies : list event :=
  [Memcpy 0 4; Memcpy 4 2; Memcpy 6 2; Memcpy 8 4; Memcpy 12 2;
   Memcpy 14 2; Memcpy 16 8; Memcpy 24 1; Memcpy 25 1; Memcpy 26 32;
   Memcpy 58 32; Memcpy 90 2; Memcpy 92 2; Memcpy 94 2; Memcpy 96 4;
   Memcpy 100 4; Memcpy 104 1; Memcpy 105 2; Memcpy 107 4; Memcpy 111 20;
   Memcpy 131 8; Memcpy 139 8; Memcpy 147 8; Memcpy 155 8; Memcpy 163 8;
   Memcpy 171 8; Memcpy 179 8; Memcpy 187 8; Memcpy 195 8; Memcpy 203 8;
   Memcpy 211 8; Memcpy 219 8].

(** The copies made for the version-gated tail, one per raised flag. *)
Definition gatedHeaderCopies (h : PublicHeader.t) : list event :=
  (if PublicHeader.hasStartOfWaveformDataPacketRecord h
   then [Memcpy 227 8] else [])
  ++ (if PublicHeader.hasStartOfFirstExtendedVariableLengthRecord h
      then [Memcpy 235 8] else [])
  ++ (if PublicHeader.hasNumOfExtendedVariableLengthRecords h
      then [Memcpy 243 4] else [])
  ++ (if PublicHeader.hasNumOfPointRecords h
      then [Memcpy 247 8] else [])
  ++ (if PublicHeader.hasNumOfPointsByReturn h
      then [Memcpy 255 120] else []).

(** ** Variable length records *)

Definition vlrPayloadLength (off : Z) : Z := uintAt (off + 20) 2.

Definition vlrImage (off : Z) : VariableLengthRecord.t :=
  VariableLengthRecord.Build
    (le_unsigned (take 1 (slice bytes off 2)))
    (slice bytes (off + 2) 16) (uintAt (off + 18) 2)
    (vlrPayloadLength off) (slice bytes (off + 22) 32)
    (slice bytes (off + 54) (vlrPayloadLength off)).

Definition vlrCopies (off : Z) : list event :=
  [Memcpy off 2; Memcpy (off + 2) 16; Memcpy (off + 18) 2;
   Memcpy (off + 20) 2; Memcpy (off + 22) 32;
   Memcpy (off + 54) (vlrPayloadLength off)].

(** The claim's condition on the VLR region: walking [count] records from
    [off], each taking its 54-byte prefix and its payload, the running
    offset (as the 32-bit value the reader compares) reaches or exceeds
    [offsetToPointData] before the count is exhausted. *)
Fixpoint vlrRegionOverflows (offsetToPointData : Z) (count : nat) (off : Z)
    : bool :=
  match count with
  | O => false
  | S count' =>
      (offsetToPointData <=? off mod 2 ^ 32)
      || vlrRegionOverflows offsetToPointData count'
           (off + 54 + vlrPayloadLength off)
  end.

(** ** Point data records, formats 0 to 4 *)

Definition hasGPSTime (format : Z) : bool :=
  (format =? 1) || (format =? 3) || (format =? 4).
Definition hasRGB (format : Z) : bool := (format =? 2) || (format =? 3).

(** Bytes the decoder consumes for one record of the format. *)
Definition pointBytes (format : Z) : Z :=
  20 + (if hasGPSTime format then 8 else 0)
     + (if hasRGB format then 6 else 0).

Definition pointImage (format off : Z) : PointDataRecord.t :=
  let gps := if hasGPSTime format then 8 else 0 in
  PointDataRecord.Build
    (intAt 32 off 4) (intAt 32 (off + 4) 4) (intAt 32 (off + 8) 4)
    (uintAt (off + 12) 2) (uintAt (off + 15) 1) (intAt 8 (off + 16) 1)
    (uintAt (off + 17) 1) (uintAt (off + 18) 2)
    (if hasGPSTime format then doubleAt (off + 20) else 0%float)
    (if hasRGB format then uintAt (off + (20 + gps)) 2 else 0)
    (if hasRGB format then uintAt (off + (22 + gps)) 2 else 0)
    (if hasRGB format then uintAt (off + (24 + gps)) 2 else 0).

Definition pointCopies (format off : Z) : list event :=
  let gps := if hasGPSTime format then 8 else 0 in
  [Memcpy off 4; Memcpy (off + 4) 4; Memcpy (off + 8) 4;
   Memcpy (off + 12) 2; Memcpy (off + 15) 1; Memcpy (off + 16) 1;
   Memcpy (off + 17) 1; Memcpy (off + 18) 2]
  ++ (if hasGPSTime format then [Memcpy (off + 20) 8] else [])
  ++ (if hasRGB format
      then [Memcpy (off + (20 + gps)) 2; Memcpy (off + (22 + gps)) 2;
            Memcpy (off + (24 + gps)) 2]
      else []).
End Layout.

(** The VLR region of a file overflows: the condition of
    [vlrRegionOverflows] for the count, the start and the bound its own
    header declares (numOfVariableLengthRecords, headerSize,
    offsetToPointData). *)
Definition vlrOverflow (bytes : list byte) : bool :=
  vlrRegionOverflows bytes (uintAt bytes 96 4)
    (Z.to_nat (uintAt bytes 100 4)) (uintAt bytes 94 2).

(** The point count [read] takes from a header: the 32-bit legacy field up
    to format 5, the 64-bit field from format 6 on. *)
Definition nPointRecords (h : PublicHeader.t) : Z :=
  if PublicHeader.pointDataRecordFormat h <=? 5
  then PublicHeader.legacyNumOfPointRecords h
  else PublicHeader.numOfPointRecords h.

(** The number of point records [read] decodes for a header. *)
Definition pointCount (h : PublicHeader.t) : nat :=
  Z.to_nat (if PublicHeader.pointDataRecordFormat h <=? 5
            then PublicHeader.legacyNumOfPointRecords h
            else PublicHeader.numOfPointRecords h).

(** [p] holds of the [n] integers from [c] upward. *)
Fixpoint all_from (n : nat) (c : Z) (p : Z -> bool) : bool :=
  match n with
  | O => true
  | S k => p c && all_from k (c + 1) p
  end.

(** The exact quotient a colour channel is compared with: 255 c / 65535
    truncated toward zero. *)
Definition downscaled (c : Z) : Z := Z.quot (c * 255) 65535.

Definition channel_agrees (c : Z) : bool :=
  truncate (double_of_int c * LasData.scaleFactor)%float =? downscaled c.

(** The channels of a record are 16-bit values ([LLAS_USHORT]). *)
Definition ushort_channels (r : PointDataRecord.t) : Prop :=
  0 <= PointDataRecord.red r < 65536
  /\ 0 <= PointDataRecord.green r < 65536
  /\ 0 <= PointDataRecord.blue r < 65536.

(** A computation never drops an event of the trace it starts from. *)
Definition keeps {A} (m : M A) : Prop :=
  forall c a c', m c = Done (a, c') ->
    exists s, trace c' = trace c ++ s.

(* ====================================================================== *)
(** * Further layout: record sequences and extended records *)
(* ====================================================================== *)

(** Start of the [k]-th variable length record of a run of records that
    begins at [off]: each record takes its 54-byte prefix and its payload. *)
Fixpoint vlrOffsetAt (bytes : list byte) (off : Z) (k : nat) : Z :=
  match k with
  | O => off
  | S k' => vlrOffsetAt bytes (off + 54 + vlrPayloadLength bytes off) k'
  end.

(** The 8-byte length of the extended record at [off], as the decoder
    keeps it (the first eight of the sixteen bytes it copies), and the
    payload size it derives from it. *)
Definition evlrLength (bytes : list byte) (off : Z) : Z :=
  le_unsigned (take 8 (slice bytes (off + 20) 16)).

Definition evlrPayloadLength (bytes : list byte) (off : Z) : Z :=
  to_streamsize (evlrLength bytes off).

Definition evlrImage (bytes : list byte) (off : Z)
    : ExtendedVariableLengthRecord.t :=
  ExtendedVariableLengthRecord.Build
    (le_unsigned (take 1 (slice bytes off 2)))
    (slice bytes (off + 2) 16) (uintAt bytes (off + 18) 2)
    (evlrLength bytes off) (slice bytes (off + 36) 32)
    (slice bytes (off + 68) (evlrPayloadLength bytes off)).

Definition evlrCopies (bytes : list byte) (off : Z) : list event :=
  [Memcpy off 2; Memcpy (off + 2) 16; Memcpy (off + 18) 2;
   Memcpy (off + 20) 16; Memcpy (off + 36) 32;
   Memcpy (off + 68) (evlrPayloadLength bytes off)].

(** Start of the [k]-th extended record of a run that begins at [off]:
    each record takes 68 bytes and its payload. *)
Fixpoint evlrOffsetAt (bytes : list byte) (off : Z) (k : nat) : Z :=
  match k with
  | O => off
  | S k' => evlrOffsetAt bytes (off + 68 + evlrPayloadLength bytes off) k'
  end.

(** The copies of the point block for [n] records from index [i] on, for a
    format from 0 to 4. *)
Fixpoint pointBlockCopies (format offsetToPointData recordLength : Z)
    (i n : nat) : list event :=
  match n with
  | O => []
  | S n' =>
      pointCopies format (offsetToPointData + Z.of_nat i * recordLength)
      ++ pointBlockCopies format offsetToPointData recordLength (S i) n'
  end.

(** The fields of a point record lie in the ranges of their C++ types. *)
Definition point_in_range (r : PointDataRecord.t) : Prop :=
  - 2 ^ 31 <= PointDataRecord.x r < 2 ^ 31
  /\ - 2 ^ 31 <= PointDataRecord.y r < 2 ^ 31
  /\ - 2 ^ 31 <= PointDataRecord.z r < 2 ^ 31
  /\ 0 <= PointDataRecord.intensity r < 2 ^ 16
  /\ 0 <= PointDataRecord.classification r < 2 ^ 8
  /\ - 2 ^ 7 <= PointDataRecord.scanAngleRank r < 2 ^ 7
  /\ 0 <= PointDataRecord.userData r < 2 ^ 8
  /\ 0 <= PointDataRecord.pointSourceID r < 2 ^ 16
  /\ 0 <= PointDataRecord.red r < 2 ^ 16
  /\ 0 <= PointDataRecord.green r < 2 ^ 16
  /\ 0 <= PointDataRecord.blue r < 2 ^ 16.

(** A version 1.4 file with one extended record of five payload bytes after
    its two format-3 point records. *)
Definition fileWithEVLR : list byte :=
  sampleHeader LASF 4 375 375 0 3 34 2 bits_0_01 bits_100
  ++ sampleTail14 443 1 0
  ++ samplePoint3 1000 (-5) 7 9 bits_100 65535 0 32767
  ++ samplePoint3 2000 0 1 3 bits_100 257 200 514
  ++ zeros 2 ++ zeros 16 ++ le_bytes 2 7 ++ le_bytes 8 5 ++ zeros 8
  ++ zeros 32 ++ [x01; x02; x03; x04; x05].

(** A format-1 file (GPS time, no colours): two 28-byte records. *)
Definition fileFormat1 : list byte :=
  sampleHeader LASF 2 227 227 0 1 28 2 bits_0_01 bits_100
  ++ le_bytes 4 11 ++ zeros 16 ++ le_bytes 8 bits_100
  ++ le_bytes 4 22 ++ zeros 16 ++ le_bytes 8 bits_100.

(** A version 1.2 header declaring format 6 and three legacy records. *)
Definition fileFormat6v12 : list byte :=
  sampleHeader LASF 2 227 227 0 6 30 3 bits_0_01 bits_100.

(** The header of [fileFormat7] declaring 2^61 point records, more than a
    vector of point records can hold. *)
Definition fileFormat7Huge : list byte :=
  sampleHeader LASF 4 375 375 0 7 36 0 bits_0_01 bits_100
  ++ sampleTail14 0 0 (2 ^ 61).

(** The copies made for [k] consecutive variable length records from
    [off]. *)
Fixpoint vlrRunCopies (bytes : list byte) (off : Z) (k : nat)
    : list event :=
  match k with
  | O => []
  | S k' =>
      vlrCopies bytes off
      ++ vlrRunCopies bytes (off + 54 + vlrPayloadLength bytes off) k'
  end.

(** The diagnostics of a log, in the order they were emitted. *)
Fixpoint diagnostics (log : list event) : list diagnostic :=
  match log with
  | [] => []
  | LogError d :: log' => d :: diagnostics log'
  | Memcpy _ _ :: log' => diagnostics log'
  end.

Definition is_copy (e : event) : Prop :=
  match e with
  | Memcpy _ _ => True
  | LogError _ => False
  end.

(** The events of the point block for a format: copies, and no diagnostic
    but the one for an unsupported format. *)
Definition is_point_event (format : Z) (e : event) : Prop :=
  match e with
  | Memcpy _ _ => True
  | LogError d => d = UnsupportedPointDataRecordFormat format
  end.

(** A computation only appends events, each of them satisfying [P]. *)
Definition adds (P : event -> Prop) {A} (m : M A) : Prop :=
  forall c a c', m c = Done (a, c') ->
    exists s, trace c' = trace c ++ s /\ Forall P s.

(** A computation from which no exception escapes. *)
Definition nothrow {A} (m : M A) : Prop :=
  forall c e, m c <> Thrown e.

(** The binary64 value [d] is exactly the integer [v]: a positive zero
    for 0, otherwise sign, mantissa and exponent with
    [(-1)^s * m * 2^e = v]. *)
Definition is_integer (d : float) (v : Z) : Prop :=
  match Prim2SF d with
  | S754_zero s => s = false /\ v = 0
  | S754_finite s m e =>
      e <= 0 /\ (if s then Z.neg m else Z.pos m) = v * 2 ^ (- e)
  | _ => False
  end.

(* ====================================================================== *)
(** * The stream-based reader (the earlier version of the header) *)
(* ====================================================================== *)

(** The earlier [llas.hpp] decodes the same layout from a [std::ifstream],
    one [_readBytes] per field into a 1024-byte buffer, and takes each value
    from the front of that buffer.  Its header has no version-gated flags:
    every field up to the 64-bit per-return counts is always read.  The
    point record struct is the one of the current version and is reused. *)

Module Legacy.

Definition LLAS_BUFFER_SIZE : nat := 1024.

(** A [std::ifstream] over a fixed content: the get position and whether
    [failbit] is set.  In this code [eofbit] is only ever set together with
    [failbit] (by a read that meets the end of the file), and nothing clears
    the state. *)
Record ifstream := Stream { position : Z; failbit : bool }.

(** What the readers thread: the stream, the caller's buffer and the
    errors logged. *)
Record state := State {
  file : ifstream;
  buffer : list byte;
  errors : list diagnostic
}.

Definition L (A : Type) : Type := state -> A * state.

Definition ret {A} (a : A) : L A := fun s => (a, s).

Definition bind {A B} (m : L A) (k : A -> L B) : L B :=
  fun s => match m s with (a, s') => k a s' end.

Notation "x <~ m ;; k" := (bind m (fun x => k))
  (at level 100, m at next level, right associativity).
Notation "m ;;~ k" := (bind m (fun _ => k))
  (at level 100, right associativity).

Section Stream.
Variable content : list byte.

(** [ifs.read(s, n)]: on a stream that is not good nothing is extracted;
    otherwise the characters up to [n] or the end of the file are
    extracted, and meeting the end before [n] sets [failbit]. *)
Definition ifstream_read (n : Z) (f : ifstream) : list byte * ifstream :=
  if failbit f then ([], f)
  else
    let got := slice content (position f) n in
    (got, Stream (position f + Z.of_nat (length got))
                 (Z.of_nat (length got) <? n)).

(** [_readBytes(ifs, bytes, nBytes)]: the extracted characters overwrite
    the front of [bytes]; the rest of [bytes] keeps what it held. *)
Definition _readBytes (nBytes : Z) : L unit := fun s =>
  match ifstream_read nBytes (file s) with
  | (got, f) =>
      (tt, State f (got ++ drop (length got) (buffer s)) (errors s))
  end.

(** The front of the buffer, as [memcpy(&field, buffer.data(), n)] or
    [std::copy(buffer.begin(), buffer.begin() + n, field)] takes it. *)
Definition bufferFront (n : Z) : L (list byte) := fun s =>
  (take (Z.to_nat n) (buffer s), s).

Definition logError (d : diagnostic) : L unit := fun s =>
  (tt, State (file s) (buffer s) (errors s ++ [d])).

(** The block repeated for every field:
    [{ _readBytes(file, buffer, nBytes); memcpy(&field, buffer.data(),
    sizeof(field)); }], the two sizes being equal for every field. *)
Definition field (n : Z) : L (list byte) :=
  _readBytes n ;;~ bufferFront n.

Definition uintField (n : Z) : L Z :=
  bs <~ field n ;; ret (le_unsigned bs).

Definition doubleField (n : Z) : L float :=
  bs <~ field n ;; ret (double_of_bits (le_unsigned bs)).
End Stream.

Module PublicHeader.
Record t := Build {
  fileSignature : list byte;
  fileSourceID : Z;
  globalEncoding : Z;
  projectID1 : Z;
  projectID2 : Z;
  projectID3 : Z;
  projectID4 : list byte;
  versionMajor : Z;
  versionMinor : Z;
  systemIdentifier : list byte;
  generatingSoftware : list byte;
  fileCreationDayOfYear : Z;
  fileCreationYear : Z;
  headerSize : Z;
  offsetToPointData : Z;
  numOfVariableLengthRecords : Z;
  pointDataRecordFormat : Z;
  pointDataRecordLength : Z;
  legacyNumOfPointRecords : Z;
  legacyNumOfPointByReturn : list Z;
  xScaleFactor : float;
  yScaleFactor : float;
  zScaleFactor : float;
  xOffset : float;
  yOffset : float;
  zOffset : float;
  maxX : float;
  maxY : float;
  maxZ : float;
  minX : float;
  minY : float;
  minZ : float;
  startOfWaveformDataPacketRecord : Z;
  startOfFirstExtendedVariableLengthRecord : Z;
  numOfExtendedVariableLengthRecords : Z;
  numOfPointRecords : Z;
  numOfPointsByReturn : list Z
}.

(** [_readPublicHeader(file)]: the buffer is local and starts zeroed; the
    widths are those of [NUM_BYTES_...], equal to the current version's. *)
Definition _readPublicHeader (content : list byte) (f : ifstream)
    : t * ifstream :=
  let field := field content in
  let uintField := uintField content in
  let doubleField := doubleField content in
  let run :=
    (fileSignature <~ field 4 ;;
     fileSourceID <~ uintField 2 ;;
     globalEncoding <~ uintField 2 ;;
     projectID1 <~ uintField 4 ;;
     projectID2 <~ uintField 2 ;;
     projectID3 <~ uintField 2 ;;
     projectID4 <~ field 8 ;;
     versionMajor <~ uintField 1 ;;
     versionMinor <~ uintField 1 ;;
     systemIdentifier <~ field 32 ;;
     generatingSoftware <~ field 32 ;;
     fileCreationDayOfYear <~ uintField 2 ;;
     fileCreationYear <~ uintField 2 ;;
     headerSize <~ uintField 2 ;;
     offsetToPointData <~ uintField 4 ;;
     numOfVariableLengthRecords <~ uintField 4 ;;
     pointDataRecordFormat <~ uintField 1 ;;
     pointDataRecordLength <~ uintField 2 ;;
     legacyNumOfPointRecords <~ uintField 4 ;;
     legacyNumOfPointByReturn <~ field 20 ;;
     xScaleFactor <~ doubleField 8 ;;
     yScaleFactor <~ doubleField 8 ;;
     zScaleFactor <~ doubleField 8 ;;
     xOffset <~ doubleField 8 ;;
     yOffset <~ doubleField 8 ;;
     zOffset <~ doubleField 8 ;;
     maxX <~ doubleField 8 ;;
     minX <~ doubleField 8 ;;
     maxY <~ doubleField 8 ;;
     minY <~ doubleField 8 ;;
     maxZ <~ doubleField 8 ;;
     minZ <~ doubleField 8 ;;
     startOfWaveformDataPacketRecord <~ uintField 8 ;;
     startOfFirstExtendedVariableLengthRecord <~ uintField 8 ;;
     numOfExtendedVariableLengthRecords <~ uintField 4 ;;
     numOfPointRecords <~ uintField 8 ;;
     numOfPointsByReturn <~ field 120 ;;
     ret (Build fileSignature fileSourceID globalEncoding
                projectID1 projectID2 projectID3 projectID4
                versionMajor versionMinor
                systemIdentifier generatingSoftware
                fileCreationDayOfYear fileCreationYear
                headerSize offsetToPointData numOfVariableLengthRecords
                pointDataRecordFormat pointDataRecordLength
                legacyNumOfPointRecords
                (le_words 4 5 legacyNumOfPointByReturn)
                xScaleFactor yScaleFactor zScaleFactor
                xOffset yOffset zOffset
                maxX maxY maxZ minX minY minZ
                startOfWaveformDataPacketRecord
                startOfFirstExtendedVariableLengthRecord
                numOfExtendedVariableLengthRecords
                numOfPointRecords
                (le_words 8 15 numOfPointsByReturn))) in
  match run (State f (replicate LLAS_BUFFER_SIZE x00) []) with
  | (publicHeader, s) => (publicHeader, file s)
  end.
End PublicHeader.

Section Points.
Variable content : list byte.
Local Abbreviation field := (field content).

(** [_readPointDataRecordFotmat0to4(file, buffer, format)]; the sensor
    byte is read from the stream and dropped. *)
Definition _readPointDataRecordFotmat0to4 (format : Z)
    : L PointDataRecord.t :=
  x <~ field PointDataRecord.NUM_BYTES_X ;;
  y <~ field PointDataRecord.NUM_BYTES_Y ;;
  z <~ field PointDataRecord.NUM_BYTES_Z ;;
  intensity <~ field PointDataRecord.NUM_BYTES_INTENSITY ;;
  _readBytes content PointDataRecord.NUM_BYTES_SENSOR_DATA ;;~
  classification <~ field PointDataRecord.NUM_BYTES_CLASSIFICATION ;;
  scanAngleRank <~ field PointDataRecord.NUM_BYTES_SCAN_ANGLE_RANK ;;
  userData <~ field PointDataRecord.NUM_BYTES_USER_DATA ;;
  pointSourceID <~ field PointDataRecord.NUM_BYTES_POINT_SOURCE_ID ;;
  GPSTime <~
    (if (format =? 1) || (format =? 3) || (format =? 4) then
       bs <~ field PointDataRecord.NUM_BYTES_GPS_TIME ;;
       ret (double_of_bits (le_unsigned bs))
     else ret 0%float) ;;
  rgb <~
    (if (format =? 2) || (format =? 3) then
       red <~ field PointDataRecord.NUM_BYTES_RED ;;
       green <~ field PointDataRecord.NUM_BYTES_GREEN ;;
       blue <~ field PointDataRecord.NUM_BYTES_BLUE ;;
       ret (le_unsigned red, le_unsigned green, le_unsigned blue)
     else ret (0, 0, 0)) ;;
  ret (PointDataRecord.Build
         (le_signed 32 x) (le_signed 32 y) (le_signed 32 z)
         (le_unsigned intensity) (le_unsigned classification)
         (le_signed 8 scanAngleRank) (le_unsigned userData)
         (le_unsigned pointSourceID) GPSTime
         rgb.1.1 rgb.1.2 rgb.2).

Definition _readPointDataRecordFotmat5to15 (format : Z)
    : L PointDataRecord.t :=
  logError (UnsupportedPointDataRecordFormat format) ;;~
  ret PointDataRecord.default.

Definition _readPointDataRecord (format : Z) : L PointDataRecord.t :=
  if (0 <=? format) && (format <? 5) then
    _readPointDataRecordFotmat0to4 format
  else if (5 <=? format) && (format <? 16) then
    _readPointDataRecordFotmat5to15 format
  else
    logError (UnsupportedPointDataRecordFormat format) ;;~
    ret PointDataRecord.default.
End Points.

(** A computation that leaves the stream good has found it good and has
    read exactly [n] bytes, all of them before the end of the file. *)
Definition consumes {A} (content : list byte) (n : Z) (m : L A) : Prop :=
  0 <= n
  /\ forall s,
       failbit (file (snd (m s))) = false ->
       failbit (file s) = false
       /\ (0 <= position (file s) ->
           position (file (snd (m s))) = position (file s) + n
           /\ (0 < n ->
               position (file s) + n <= Z.of_nat (length content))).

(** A computation that logs no error. *)
Definition silent {A} (m : L A) : Prop :=
  forall s, errors (snd (m s)) = errors s.

(** The header by position: the fixed part as in the current version, and
    the tail always taken from bytes 227 to 374. *)
Definition headerImage (bytes : list byte) : PublicHeader.t :=
  PublicHeader.Build
    (slice bytes 0 4) (uintAt bytes 4 2) (uintAt bytes 6 2)
    (uintAt bytes 8 4) (uintAt bytes 12 2) (uintAt bytes 14 2)
    (slice bytes 16 8) (uintAt bytes 24 1) (uintAt bytes 25 1)
    (slice bytes 26 32) (slice bytes 58 32)
    (uintAt bytes 90 2) (uintAt bytes 92 2)
    (uintAt bytes 94 2) (uintAt bytes 96 4) (uintAt bytes 100 4)
    (uintAt bytes 104 1) (uintAt bytes 105 2) (uintAt bytes 107 4)
    (le_words 4 5 (slice bytes 111 20))
    (doubleAt bytes 131) (doubleAt bytes 139) (doubleAt bytes 147)
    (doubleAt bytes 155) (doubleAt bytes 163) (doubleAt bytes 171)
    (doubleAt bytes 179) (doubleAt bytes 195) (doubleAt bytes 211)
    (doubleAt bytes 187) (doubleAt bytes 203) (doubleAt bytes 219)
    (uintAt bytes 227 8) (uintAt bytes 235 8) (uintAt bytes 243 4)
    (uintAt bytes 247 8) (le_words 8 15 (slice bytes 255 120)).

End Legacy.

(** The fields the two header structs share. *)
Definition ungated (h : PublicHeader.t) : Legacy.PublicHeader.t :=
  Legacy.PublicHeader.Build
    (PublicHeader.fileSignature h) (PublicHeader.fileSourceID h)
    (PublicHeader.globalEncoding h) (PublicHeader.projectID1 h)
    (PublicHeader.projectID2 h) (PublicHeader.projectID3 h)
    (PublicHeader.projectID4 h) (PublicHeader.versionMajor h)
    (PublicHeader.versionMinor h) (PublicHeader.systemIdentifier h)
    (PublicHeader.generatingSoftware h)
    (PublicHeader.fileCreationDayOfYear h)
    (PublicHeader.fileCreationYear h) (PublicHeader.headerSize h)
    (PublicHeader.offsetToPointData h)
    (PublicHeader.numOfVariableLengthRecords h)
    (PublicHeader.pointDataRecordFormat h)
    (PublicHeader.pointDataRecordLength h)
    (PublicHeader.legacyNumOfPointRecords h)
    (PublicHeader.legacyNumOfPointByReturn h)
    (PublicHeader.xScaleFactor h) (PublicHeader.yScaleFactor h)
    (PublicHeader.zScaleFactor h) (PublicHeader.xOffset h)
    (PublicHeader.yOffset h) (PublicHeader.zOffset h)
    (PublicHeader.maxX h) (PublicHeader.maxY h)
    (PublicHeader.maxZ h) (PublicHeader.minX h)
    (PublicHeader.minY h) (PublicHeader.minZ h)
    (PublicHeader.startOfWaveformDataPacketRecord h)
    (PublicHeader.startOfFirstExtendedVariableLengthRecord h)
    (PublicHeader.numOfExtendedVariableLengthRecords h)
    (PublicHeader.numOfPointRecords h)
    (PublicHeader.numOfPointsByReturn h).

(* ====================================================================== *)
(** * Basic facts: bytes, slices, the monad *)
(* ====================================================================== *)

Lemma byte_val_range b : 0 <= byte_val b < 256.
Proof. unfold byte_val. destruct b; vm_compute; split; congruence. Qed.

Lemma le_unsigned_range bs : 0 <= le_unsigned bs < 256 ^ Z.of_nat (length bs).
Proof.
  induction bs as [|b bs IH]; [vm_compute; split; congruence|].
  cbn [le_unsigned length]. rewrite Nat2Z.inj_succ, Z.pow_succ_r by lia.
  pose proof (byte_val_range b). lia.
Qed.

Lemma slice_length_le bytes off n :
  (length (slice bytes off n) <= Z.to_nat n)%nat.
Proof. unfold slice. rewrite length_take. lia. Qed.

Lemma uintAt_range bytes off n :
  0 <= n -> 0 <= uintAt bytes off n < 256 ^ n.
Proof.
  intros Hn. unfold uintAt.
  pose proof (le_unsigned_range (slice bytes off n)) as [H0 H1].
  pose proof (slice_length_le bytes off n) as Hl.
  split; [exact H0|].
  eapply Z.lt_le_trans; [exact H1|].
  apply Z.pow_le_mono_r; lia.
Qed.

Lemma in_buffer_true bytes off n :
  in_buffer bytes off n = true <->
  0 <= off /\ 0 <= n /\ off + n <= Z.of_nat (length bytes).
Proof. unfold in_buffer. rewrite !andb_true_iff, !Z.leb_le. tauto. Qed.

Lemma in_buffer_false bytes off n :
  in_buffer bytes off n = false <->
  off < 0 \/ n < 0 \/ Z.of_nat (length bytes) < off + n.
Proof.
  unfold in_buffer. rewrite !andb_false_iff, !Z.leb_gt. tauto.
Qed.

Lemma slice_length bytes off n :
  in_buffer bytes off n = true -> Z.of_nat (length (slice bytes off n)) = n.
Proof.
  intros H%in_buffer_true. unfold slice.
  rewrite length_take, length_drop. lia.
Qed.

Lemma bind_ret {A B} (a : A) (k : A -> M B) c : bind (ret a) k c = k a c.
Proof. reflexivity. Qed.

Lemma bind_seek {B} o (k : unit -> M B) c :
  bind (seek o) k c = k tt (Cursor o (trace c)).
Proof. reflexivity. Qed.

Lemma bind_advance {B} n (k : unit -> M B) o t :
  bind (advance n) k (Cursor o t) = k tt (Cursor (o + n) t).
Proof. reflexivity. Qed.

Lemma bind_logError {B} d (k : unit -> M B) c :
  bind (logError d) k c = k tt (Cursor (offset c) (trace c ++ [LogError d])).
Proof. reflexivity. Qed.

Lemma bind_inv {A B} (m : M A) (k : A -> M B) c r :
  bind m k c = Done r -> exists a c1, m c = Done (a, c1) /\ k a c1 = Done r.
Proof.
  unfold bind. destruct (m c) as [[a c1]| |e]; [eauto|discriminate..].
Qed.

Section FieldSteps.
Variable bytes : list byte.

Lemma copyField_run n o t :
  copyField bytes n (Cursor o t) =
  if in_buffer bytes o n
  then Done (slice bytes o n, Cursor (o + n) (t ++ [Memcpy o n]))
  else Undefined.
Proof.
  unfold copyField, bind, memcpy. cbn [offset trace].
  destruct (in_buffer bytes o n); reflexivity.
Qed.

Lemma bind_copyField_ok {B} n (k : list byte -> M B) o o' t :
  o + n = o' -> in_buffer bytes o n = true ->
  bind (copyField bytes n) k (Cursor o t) =
  k (slice bytes o n) (Cursor o' (t ++ [Memcpy o n])).
Proof.
  intros <- H. unfold bind at 1. rewrite copyField_run, H. reflexivity.
Qed.

Lemma bind_copyField_fail {B} n (k : list byte -> M B) o t :
  in_buffer bytes o n = false ->
  bind (copyField bytes n) k (Cursor o t) = Undefined.
Proof.
  intros H. unfold bind at 1. rewrite copyField_run, H. reflexivity.
Qed.

Lemma bind_uintField_ok {B} n (k : Z -> M B) o o' t :
  o + n = o' -> in_buffer bytes o n = true ->
  bind (PublicHeader.uintField bytes n) k (Cursor o t) =
  k (uintAt bytes o n) (Cursor o' (t ++ [Memcpy o n])).
Proof.
  intros <- H. unfold PublicHeader.uintField, bind.
  rewrite copyField_run, H. reflexivity.
Qed.

Lemma bind_uintField_fail {B} n (k : Z -> M B) o t :
  in_buffer bytes o n = false ->
  bind (PublicHeader.uintField bytes n) k (Cursor o t) = Undefined.
Proof.
  intros H. unfold PublicHeader.uintField, bind.
  rewrite copyField_run, H. reflexivity.
Qed.

Lemma bind_doubleField_ok {B} n (k : float -> M B) o o' t :
  o + n = o' -> in_buffer bytes o n = true ->
  bind (PublicHeader.doubleField bytes n) k (Cursor o t) =
  k (double_of_bits (uintAt bytes o n)) (Cursor o' (t ++ [Memcpy o n])).
Proof.
  intros <- H. unfold PublicHeader.doubleField, bind.
  rewrite copyField_run, H. reflexivity.
Qed.

Lemma bind_doubleField_fail {B} n (k : float -> M B) o t :
  in_buffer bytes o n = false ->
  bind (PublicHeader.doubleField bytes n) k (Cursor o t) = Undefined.
Proof.
  intros H. unfold PublicHeader.doubleField, bind.
  rewrite copyField_run, H. reflexivity.
Qed.
End FieldSteps.

(* ====================================================================== *)
(** * The public header decoder realises the header layout *)
(* ====================================================================== *)

Lemma bind_bind {A B C} (m : M A) (f : A -> M B) (g : B -> M C) c :
  bind (bind m f) g c = bind m (fun a => bind (f a) g) c.
Proof. unfold bind. destruct (m c) as [[a c1]| |e]; reflexivity. Qed.

(** A field that does not fit: the header is then longer than the buffer. *)
Ltac header_short Hin :=
  apply in_buffer_false in Hin;
  lazymatch goal with
  | |- _ = (if ?c then _ else _) =>
      let E := fresh "E" in
      assert (E : c = false)
        by (apply Z.leb_gt;
            repeat match goal with
                   | |- context [if ?b then _ else _] => destruct b
                   end; lia);
      rewrite E; reflexivity
  end.

(** One field of the header at an absolute offset: split on whether it lies
    in the buffer, and move on to the next field when it does. *)
Ltac header_step lemma_ok lemma_fail b n k o t :=
  let n' := eval vm_compute in n in
  let o' := eval vm_compute in (o + n') in
  let Hin := fresh "Hin" in
  destruct (in_buffer b o n') eqn:Hin;
  [ refine (eq_trans (lemma_ok b _ n' k o o' t eq_refl Hin) _);
    cbv beta zeta
  | refine (eq_trans (lemma_fail b _ n' k o t Hin) _); header_short Hin ].

Ltac header_field :=
  lazymatch goal with
  | |- bind (copyField ?b ?n) ?k (Cursor ?o ?t) = _ =>
      header_step (@bind_copyField_ok) (@bind_copyField_fail) b n k o t
  | |- bind (PublicHeader.uintField ?b ?n) ?k (Cursor ?o ?t) = _ =>
      header_step (@bind_uintField_ok) (@bind_uintField_fail) b n k o t
  | |- bind (PublicHeader.doubleField ?b ?n) ?k (Cursor ?o ?t) = _ =>
      header_step (@bind_doubleField_ok) (@bind_doubleField_fail) b n k o t
  | |- bind (ret ?a) ?k ?c = _ =>
      refine (eq_trans (bind_ret a k c) _); cbv beta zeta
  | |- bind (bind ?m ?f) ?g ?c = _ =>
      refine (eq_trans (bind_bind m f g c) _); cbv beta zeta
  end.

(** Every field fitted: the buffer holds the whole header. *)
Ltac header_done :=
  lazymatch goal with
  | |- _ = (if ?c then _ else _) =>
      let E := fresh "E" in
      assert (E : c = true)
        by (apply Z.leb_le;
            repeat match goal with
                   | H : in_buffer _ _ _ = true |- _ =>
                       apply in_buffer_true in H
                   end; lia);
      rewrite E, <- ?app_assoc; reflexivity
  end.

Lemma readPublicHeader_run bytes c :
  PublicHeader.readPublicHeader bytes c =
  if headerLength (minorAt bytes) <=? Z.of_nat (length bytes)
  then Done (headerImage bytes,
             Cursor (headerLength (minorAt bytes))
               (trace c ++ fixedHeaderCopies
                        ++ gatedHeaderCopies (headerImage bytes)))
  else Undefined.
Proof.
  destruct c as [o0 t].
  unfold PublicHeader.readPublicHeader, headerImage, gatedHeaderCopies,
    headerLength, formatAt, minorAt.
  cbv zeta. cbn [trace PublicHeader.hasStartOfWaveformDataPacketRecord
    PublicHeader.hasStartOfFirstExtendedVariableLengthRecord
    PublicHeader.hasNumOfExtendedVariableLengthRecords
    PublicHeader.hasNumOfPointRecords PublicHeader.hasNumOfPointsByReturn].
  rewrite bind_seek. cbn [trace].
  do 32 header_field.
  destruct (3 <=? uintAt bytes 25 1) eqn:H3, (4 <=? uintAt bytes 25 1) eqn:H4;
    cbv beta iota zeta.
  - do 6 header_field. header_done.
  - do 5 header_field. header_done.
  - exfalso. apply Z.leb_gt in H3. apply Z.leb_le in H4. lia.
  - do 5 header_field. header_done.
Qed.


(* ====================================================================== *)
(** * The record decoders realise their layouts *)
(* ====================================================================== *)

Ltac buffer_facts :=
  repeat match goal with
         | H : in_buffer _ _ _ = true |- _ => apply in_buffer_true in H
         | H : in_buffer _ _ _ = false |- _ => apply in_buffer_false in H
         end.

(** The offset [n] bytes after [o], keeping the shape [base + constant]. *)
Ltac next_offset o n :=
  lazymatch o with
  | ?b + ?k => let s := eval vm_compute in (k + n) in constr:(b + s)
  | _ => constr:(o + n)
  end.

(** A record field that does not fit: neither does the record. *)
Ltac record_short :=
  lazymatch goal with
  | |- _ = (if ?c then _ else _) =>
      let E := fresh "E" in
      assert (E : c = false)
        by (apply in_buffer_false; buffer_facts;
            repeat match goal with
                   | |- context [if ?b then _ else _] => destruct b
                   end; lia);
      rewrite E; reflexivity
  end.

(** One step of a record decoder whose offset is relative to its start. *)
Ltac record_field :=
  lazymatch goal with
  | |- bind (copyField ?b ?n) ?k (Cursor ?o ?t) = _ =>
      let n' := eval vm_compute in n in
      let o' := next_offset o n' in
      let Hin := fresh "Hin" in
      destruct (in_buffer b o n') eqn:Hin;
      [ refine (eq_trans (bind_copyField_ok b n' k o o' t ltac:(lia) Hin) _);
        cbv beta zeta
      | refine (eq_trans (bind_copyField_fail b n' k o t Hin) _);
        record_short ]
  | |- bind (advance ?n) ?k (Cursor ?o ?t) = _ =>
      let n' := eval vm_compute in n in
      let o' := next_offset o n' in
      refine (eq_trans (bind_advance n' k o t) _);
      replace (o + n') with o' by lia; cbv beta zeta
  | |- bind (ret ?a) ?k ?c = _ =>
      refine (eq_trans (bind_ret a k c) _); cbv beta zeta
  | |- bind (bind ?m ?f) ?g ?c = _ =>
      refine (eq_trans (bind_bind m f g c) _); cbv beta zeta
  end.

Ltac record_done :=
  lazymatch goal with
  | |- _ = (if ?c then _ else _) =>
      let E := fresh "E" in
      assert (E : c = true) by (apply in_buffer_true; buffer_facts; lia);
      rewrite E, <- ?app_assoc; reflexivity
  end.

Lemma readPointDataRecordFotmat0to4_run bytes format o t :
  PointDataRecord._readPointDataRecordFotmat0to4 bytes format (Cursor o t) =
  if in_buffer bytes o (pointBytes format)
  then Done (pointImage bytes format o,
             Cursor (o + pointBytes format) (t ++ pointCopies format o))
  else Undefined.
Proof.
  unfold PointDataRecord._readPointDataRecordFotmat0to4, pointImage,
    pointCopies, pointBytes.
  change ((format =? 1) || (format =? 3) || (format =? 4))
    with (hasGPSTime format).
  change ((format =? 2) || (format =? 3)) with (hasRGB format).
  cbv zeta.
  repeat record_field.
  destruct (hasGPSTime format), (hasRGB format); cbv beta iota zeta.
  - repeat record_field. record_done.
  - repeat record_field. record_done.
  - repeat record_field. record_done.
  - repeat record_field. record_done.
Qed.

Lemma readVariableLengthRecord_run bytes o t :
  VariableLengthRecord.readVariableLengthRecord bytes (Cursor o t) =
  if in_buffer bytes o (54 + vlrPayloadLength bytes o)
  then Done (vlrImage bytes o,
             Cursor (o + 54 + vlrPayloadLength bytes o)
               (t ++ vlrCopies bytes o))
  else Undefined.
Proof.
  pose proof (uintAt_range bytes (o + 20) 2 ltac:(lia)) as Hrl.
  change (256 ^ 2) with 65536 in Hrl.
  unfold VariableLengthRecord.readVariableLengthRecord, vlrImage, vlrCopies,
    vlrPayloadLength in *.
  repeat record_field. 
  change (le_unsigned (slice bytes (o + 20) 2)) with (uintAt bytes (o + 20) 2).
  assert (E : (uintAt bytes (o + 20) 2 <=? 65535) = true)
    by (apply Z.leb_le; lia).
  rewrite E.
  destruct (in_buffer bytes (o + 54) (uintAt bytes (o + 20) 2)) eqn:Hin4.
  - refine (eq_trans (bind_copyField_ok bytes _ _ _ _ _ eq_refl Hin4) _).
    cbv beta zeta. repeat record_field. record_done.
  - refine (eq_trans (bind_copyField_fail bytes _ _ _ _ Hin4) _).
    record_short.
Qed.

(* ====================================================================== *)
(** * The trace only grows *)
(* ====================================================================== *)

Create HintDb keeps.

Lemma keeps_ret {A} (a : A) : keeps (ret a).
Proof. intros c a' c' [= <- <-]. exists []. now rewrite app_nil_r. Qed.

Lemma keeps_bind {A B} (m : M A) (k : A -> M B) :
  keeps m -> (forall a, keeps (k a)) -> keeps (bind m k).
Proof.
  intros Hm Hk c b c' H.
  apply bind_inv in H as (a & c1 & H1 & H2).
  apply Hm in H1 as [s1 E1]. apply Hk in H2 as [s2 E2].
  exists (s1 ++ s2). now rewrite E2, E1, app_assoc.
Qed.

Lemma keeps_memcpy bytes n : keeps (memcpy bytes n).
Proof.
  intros c a c'. unfold memcpy.
  destruct (in_buffer bytes (offset c) n); [|discriminate].
  intros [= <- <-]. cbn. eauto.
Qed.

Lemma keeps_advance n : keeps (advance n).
Proof. intros c a c' [= <- <-]. exists []. cbn. now rewrite app_nil_r. Qed.

Lemma keeps_seek o : keeps (seek o).
Proof. intros c a c' [= <- <-]. exists []. cbn. now rewrite app_nil_r. Qed.

Lemma keeps_getOffset : keeps getOffset.
Proof. intros c a c' [= <- <-]. exists []. now rewrite app_nil_r. Qed.

Lemma keeps_logError d : keeps (logError d).
Proof. intros c a c' [= <- <-]. cbn. eauto. Qed.

#[local] Hint Resolve keeps_ret keeps_memcpy keeps_advance keeps_seek
  keeps_getOffset keeps_logError : keeps.

Ltac keeps_tac :=
  repeat first
    [ apply keeps_bind; [|intros ?]
    | match goal with |- keeps (if ?b then _ else _) => destruct b end
    | solve [auto with keeps] ].

Lemma keeps_copyField bytes n : keeps (copyField bytes n).
Proof. unfold copyField. keeps_tac. Qed.
#[local] Hint Resolve keeps_copyField : keeps.

Lemma keeps_readVariableLengthRecord bytes :
  keeps (VariableLengthRecord.readVariableLengthRecord bytes).
Proof. unfold VariableLengthRecord.readVariableLengthRecord. keeps_tac. Qed.

Lemma keeps_readPointDataRecord bytes format :
  keeps (PointDataRecord.readPointDataRecord bytes format).
Proof.
  unfold PointDataRecord.readPointDataRecord,
    PointDataRecord._readPointDataRecordFotmat0to4,
    PointDataRecord._readPointDataRecordFotmat5to15.
  keeps_tac.
Qed.

Lemma keeps_readExtendedVariableLengthRecord bytes :
  keeps (ExtendedVariableLengthRecord.readExtendedVariableLengthRecord bytes).
Proof.
  unfold ExtendedVariableLengthRecord.readExtendedVariableLengthRecord.
  keeps_tac.
Qed.
#[local] Hint Resolve keeps_readVariableLengthRecord
  keeps_readPointDataRecord keeps_readExtendedVariableLengthRecord : keeps.

Lemma keeps_readPointDataRecords bytes h n :
  forall i recs, keeps (readPointDataRecords bytes h n i recs).
Proof.
  induction n as [|n IH]; intros i recs; cbn [readPointDataRecords];
    keeps_tac.
Qed.

Lemma keeps_readExtendedVariableLengthRecords bytes n :
  forall i recs, keeps (readExtendedVariableLengthRecords bytes n i recs).
Proof.
  induction n as [|n IH]; intros i recs;
    cbn [readExtendedVariableLengthRecords]; keeps_tac.
Qed.
#[local] Hint Resolve keeps_readPointDataRecords
  keeps_readExtendedVariableLengthRecords : keeps.

Lemma keeps_resize {T} max_size (value : T) count :
  keeps (resize max_size value count).
Proof.
  intros c a c'. unfold resize.
  destruct (count <=? max_size); [|discriminate].
  intros [= <- <-]. exists []. now rewrite app_nil_r.
Qed.

(** The point block either throws at the resize or runs the loop on as
    many placeholders as the header declares points. *)
Lemma pointDataRecordsBlock_run bytes h c :
  pointDataRecordsBlock bytes h c =
  if nPointRecords h <=? PointDataRecord.max_size
  then readPointDataRecords bytes h (pointCount h) 0
         (replicate (pointCount h) PointDataRecord.default) c
  else Thrown length_error.
Proof.
  unfold pointDataRecordsBlock, nPointRecords, pointCount, resize, bind.
  cbv zeta.
  destruct (_ <=? PointDataRecord.max_size); reflexivity.
Qed.

Lemma pointDataRecordsBlock_inv bytes h c points c' :
  pointDataRecordsBlock bytes h c = Done (points, c') ->
  nPointRecords h <= PointDataRecord.max_size
  /\ readPointDataRecords bytes h (pointCount h) 0
       (replicate (pointCount h) PointDataRecord.default) c
     = Done (points, c').
Proof.
  rewrite pointDataRecordsBlock_run.
  destruct (Z.leb_spec (nPointRecords h) PointDataRecord.max_size);
    [auto|discriminate].
Qed.

Lemma keeps_pointDataRecordsBlock bytes h :
  keeps (pointDataRecordsBlock bytes h).
Proof.
  unfold pointDataRecordsBlock. cbv zeta.
  apply keeps_bind; [apply keeps_resize|]. intros recs.
  apply keeps_readPointDataRecords.
Qed.

Lemma keeps_extendedVariableLengthRecordsBlock bytes h pointDataOnly :
  keeps (extendedVariableLengthRecordsBlock bytes h pointDataOnly).
Proof. unfold extendedVariableLengthRecordsBlock. keeps_tac. Qed.

(* ====================================================================== *)
(** * The structure of [read] *)
(* ====================================================================== *)

Lemma formatAt_range bytes : 0 <= formatAt bytes < 256.
Proof. apply (uintAt_range bytes 104 1). lia. Qed.

(** [read] on an opened file, with the header decoder replaced by the
    header layout. *)
Lemma read_run bytes pointDataOnly :
  read (Some bytes) pointDataOnly =
  if headerLength (minorAt bytes) <=? Z.of_nat (length bytes) then
    if 10 <? formatAt bytes then
      Done (None,
            fixedHeaderCopies ++ gatedHeaderCopies (headerImage bytes)
            ++ [LogError (InvalidPointDataRecordFormat (formatAt bytes))])
    else
      match readRecords bytes (headerImage bytes) pointDataOnly
              (Cursor (headerLength (minorAt bytes))
                 (fixedHeaderCopies ++ gatedHeaderCopies (headerImage bytes)))
      with
      | Done (lasData, c) => Done (lasData, trace c)
      | Undefined => Undefined
      | Thrown e => Thrown e
      end
  else Undefined.
Proof.
  unfold read, readBytes. unfold bind at 1.
  rewrite readPublicHeader_run. cbn [trace app].
  destruct (headerLength (minorAt bytes) <=? Z.of_nat (length bytes));
    [|reflexivity].
  change (PublicHeader.pointDataRecordFormat (headerImage bytes))
    with (formatAt bytes).
  pose proof (formatAt_range bytes) as Hf.
  assert (E : (formatAt bytes <? 0) = false) by (apply Z.ltb_ge; lia).
  rewrite E. cbn [orb].
  destruct (10 <? formatAt bytes); [|reflexivity].
  cbn. now rewrite <- app_assoc.
Qed.

(** The three blocks of [readRecords], taken apart. *)
Lemma readRecords_inv bytes h pointDataOnly c r c' :
  readRecords bytes h pointDataOnly c = Done (r, c') ->
  exists vlrs isOK c1 points c2 evlrs,
    variableLengthRecordsBlock bytes h pointDataOnly c
      = Done ((vlrs, isOK), c1)
    /\ pointDataRecordsBlock bytes h c1 = Done (points, c2)
    /\ extendedVariableLengthRecordsBlock bytes h pointDataOnly c2
      = Done (evlrs, c')
    /\ r = if isOK then Some (LasData.Build h vlrs points evlrs) else None.
Proof.
  unfold readRecords. intros H.
  apply bind_inv in H as ([vlrs isOK] & c1 & H1 & H).
  apply bind_inv in H as (points & c2 & H2 & H).
  apply bind_inv in H as (evlrs & c3 & H3 & H).
  injection H as <- <-. cbn [fst snd].
  exists vlrs, isOK, c1, points, c2, evlrs. auto.
Qed.

(* ====================================================================== *)
(** * The loops of [read] *)
(* ====================================================================== *)

(** The loop over the variable length records leaves [isOK] down exactly
    when the region overflows, and then it has logged the diagnostic. *)
Lemma readVariableLengthRecords_isOK bytes h n :
  forall i vlrs o t vlrs' isOK c',
    readVariableLengthRecords bytes h n i vlrs (Cursor o t)
      = Done ((vlrs', isOK), c') ->
    isOK = negb (vlrRegionOverflows bytes
                   (PublicHeader.offsetToPointData h) n o)
    /\ (isOK = false -> In (LogError VLRsExceedPointData) (trace c')).
Proof.
  induction n as [|n IH]; intros i vlrs o t vlrs' isOK c' H.
  - injection H as <- <- <-. split; [reflexivity|discriminate].
  - cbn [readVariableLengthRecords vlrRegionOverflows] in *.
    unfold bind at 1 in H. cbn [getOffset offset] in H.
    destruct (PublicHeader.offsetToPointData h <=? o mod 2 ^ 32).
    + injection H as <- <- <-. cbn. split; [reflexivity|].
      intros _. apply in_or_app. right. now left.
    + unfold bind at 1 in H. rewrite readVariableLengthRecord_run in H.
      destruct (in_buffer bytes o (54 + vlrPayloadLength bytes o));
        [|discriminate].
      apply IH in H. exact H.
Qed.

(** Formats 5 to 15: every iteration logs the diagnostic and stores the
    zero-valued record. *)
Lemma readPointDataRecords_placeholders bytes h :
  5 <= PublicHeader.pointDataRecordFormat h < 16 ->
  forall n i N c, exists c',
    readPointDataRecords bytes h n i
      (replicate N PointDataRecord.default) c
    = Done (replicate N PointDataRecord.default, c')
    /\ trace c' = trace c ++
         replicate n (LogError (UnsupportedPointDataRecordFormat
                                  (PublicHeader.pointDataRecordFormat h))).
Proof.
  intros Hf. induction n as [|n IH]; intros i N c.
  - exists c. cbn. now rewrite app_nil_r.
  - cbn [readPointDataRecords]. rewrite bind_seek.
    unfold PointDataRecord.readPointDataRecord.
    assert (E1 : (PublicHeader.pointDataRecordFormat h <? 5) = false)
      by (apply Z.ltb_ge; lia).
    assert (E2 : (5 <=? PublicHeader.pointDataRecordFormat h) = true)
      by (apply Z.leb_le; lia).
    assert (E3 : (PublicHeader.pointDataRecordFormat h <? 16) = true)
      by (apply Z.ltb_lt; lia).
    rewrite E1, E2, E3, andb_false_r. cbn [andb].
    unfold PointDataRecord._readPointDataRecordFotmat5to15.
    unfold bind at 1. unfold bind at 1. cbn [logError ret offset trace].
    rewrite insert_replicate.
    lazymatch goal with
    | |- exists c', readPointDataRecords _ _ _ ?i' _ ?c0 = _ /\ _ =>
        destruct (IH i' N c0) as (c' & E & Et)
    end.
    exists c'. split; [exact E|].
    rewrite Et. cbn [trace replicate]. now rewrite <- app_assoc.
Qed.

(** Formats 0 to 4: iteration [j] stores the record laid out at
    [offsetToPointData + j * pointDataRecordLength]. *)
Lemma readPointDataRecords_layout bytes h :
  0 <= PublicHeader.pointDataRecordFormat h <= 4 ->
  0 <= PublicHeader.offsetToPointData h < 2 ^ 32 ->
  0 <= PublicHeader.pointDataRecordLength h < 2 ^ 16 ->
  forall n i recs c recs' c',
    Z.of_nat (i + n) <= 2 ^ 32 ->
    readPointDataRecords bytes h n i recs c = Done (recs', c') ->
    length recs' = length recs
    /\ (forall j, (i <= j < i + n)%nat -> (j < length recs)%nat ->
          recs' !! j =
          Some (pointImage bytes (PublicHeader.pointDataRecordFormat h)
                  (PublicHeader.offsetToPointData h
                   + Z.of_nat j * PublicHeader.pointDataRecordLength h)))
    /\ (forall j, (j < i)%nat -> recs' !! j = recs !! j)
    /\ (forall j, (i <= j < i + n)%nat ->
          in_buffer bytes
            (PublicHeader.offsetToPointData h
             + Z.of_nat j * PublicHeader.pointDataRecordLength h)
            (pointBytes (PublicHeader.pointDataRecordFormat h)) = true).
Proof.
  intros Hf Ho Hl.
  induction n as [|n IH]; intros i recs c recs' c' Hn H.
  - injection H as <- <-. repeat split; intros; try lia; reflexivity.
  - cbn [readPointDataRecords] in H. rewrite bind_seek in H.
    set (o := PublicHeader.offsetToPointData h
              + Z.of_nat i * PublicHeader.pointDataRecordLength h) in *.
    assert (Ho' : 0 <= o < 2 ^ 63) by (unfold o; nia).
    replace (to_streamsize (o mod 2 ^ 64)) with o in H.
    2:{ rewrite Z.mod_small by lia. unfold to_streamsize.
        destruct (Z.ltb_spec o (2 ^ 63)); lia. }
    unfold PointDataRecord.readPointDataRecord in H.
    assert (E1 : (0 <=? PublicHeader.pointDataRecordFormat h) = true)
      by (apply Z.leb_le; lia).
    assert (E2 : (PublicHeader.pointDataRecordFormat h <? 5) = true)
      by (apply Z.ltb_lt; lia).
    rewrite E1, E2 in H. cbn [andb] in H.
    unfold bind at 1 in H.
    rewrite readPointDataRecordFotmat0to4_run in H.
    destruct (in_buffer bytes o
                (pointBytes (PublicHeader.pointDataRecordFormat h))) eqn:Hin;
      [|discriminate].
    apply IH in H; [|lia].
    destruct H as (Hlen & Hnew & Hold & Hbuf).
    rewrite length_insert in Hlen, Hnew.
    split; [exact Hlen|]. split; [|split].
    + intros j Hj Hjl. destruct (decide (j = i)) as [->|Hne].
      * rewrite Hold by lia. now apply list_lookup_insert_eq.
      * apply Hnew; lia.
    + intros j Hj. rewrite Hold by lia.
      apply list_lookup_insert_ne. lia.
    + intros j Hj. destruct (decide (j = i)) as [->|Hne].
      * exact Hin.
      * apply Hbuf. lia.
Qed.

(* ====================================================================== *)
(** * The views: loops that fill three slots per point *)
(* ====================================================================== *)

Section Fill.
Context {T : Type}.
Variables f g h : nat -> T.
Variable body : list T -> nat -> list T.
Hypothesis body_eq : forall acc i,
  body acc i =
  <[(3 * i + 2)%nat := h i]>
    (<[(3 * i + 1)%nat := g i]> (<[(3 * i + 0)%nat := f i]> acc)).

Lemma fill_length n acc : length (foldl body acc (seq 0 n)) = length acc.
Proof using body_eq.
  induction n as [|n IH]; [reflexivity|].
  rewrite seq_S, foldl_app. cbn [foldl Nat.add].
  now rewrite body_eq, !length_insert.
Qed.

Lemma fill_lookup n : forall acc i,
  (3 * n <= length acc)%nat -> (i < n)%nat ->
  foldl body acc (seq 0 n) !! (3 * i)%nat = Some (f i)
  /\ foldl body acc (seq 0 n) !! (3 * i + 1)%nat = Some (g i)
  /\ foldl body acc (seq 0 n) !! (3 * i + 2)%nat = Some (h i).
Proof using body_eq.
  induction n as [|n IH]; intros acc i Hlen Hi; [lia|].
  rewrite seq_S, foldl_app. cbn [foldl Nat.add]. rewrite body_eq.
  pose proof (fill_length n acc) as Hl.
  destruct (decide (i = n)) as [->|Hne].
  - repeat split.
    + rewrite list_lookup_insert_ne, list_lookup_insert_ne by lia.
      replace (3 * n)%nat with (3 * n + 0)%nat at 1 by lia.
      apply list_lookup_insert_eq. lia.
    + rewrite list_lookup_insert_ne by lia.
      apply list_lookup_insert_eq. rewrite length_insert. lia.
    + apply list_lookup_insert_eq. rewrite !length_insert. lia.
  - destruct (IH acc i) as (H0 & H1 & H2); [lia|lia|].
    repeat split; rewrite !list_lookup_insert_ne by lia; assumption.
Qed.
End Fill.

(** The conversion of a channel agrees with the exact quotient on every
    16-bit value: checked on all 65536 of them. *)
Lemma all_from_spec n p :
  forall c0, all_from n c0 p = true ->
  forall c, c0 <= c < c0 + Z.of_nat n -> p c = true.
Proof.
  induction n as [|n IH]; intros c0 H c Hc; [lia|].
  cbn [all_from] in H. apply andb_true_iff in H as [H0 H1].
  destruct (Z.eq_dec c c0) as [->|Hne]; [exact H0|].
  apply (IH (c0 + 1)); [exact H1|lia].
Qed.

Lemma all_channels_agree : all_from (Z.to_nat 65536) 0 channel_agrees = true.
Proof. vm_compute. reflexivity. Qed.

Lemma channel_downscaled c :
  0 <= c < 65536 ->
  truncate (double_of_int c * LasData.scaleFactor)%float = downscaled c.
Proof.
  intros Hc. apply Z.eqb_eq.
  apply (all_from_spec (Z.to_nat 65536) channel_agrees 0 all_channels_agree).
  rewrite Z2Nat.id; lia.
Qed.

Lemma getPointCoords_lookup (rescale : bool) d i r :
  LasData.pointDataRecords d !! i = Some r ->
  let scaled (v s o : float) := if rescale then (v * s + o)%float else v in
  LasData.getPointCoords rescale d !! (3 * i)%nat
    = Some (scaled (double_of_int (PointDataRecord.x r))
              (PublicHeader.xScaleFactor (LasData.header d))
              (PublicHeader.xOffset (LasData.header d)))
  /\ LasData.getPointCoords rescale d !! (3 * i + 1)%nat
    = Some (scaled (double_of_int (PointDataRecord.y r))
              (PublicHeader.yScaleFactor (LasData.header d))
              (PublicHeader.yOffset (LasData.header d)))
  /\ LasData.getPointCoords rescale d !! (3 * i + 2)%nat
    = Some (scaled (double_of_int (PointDataRecord.z r))
              (PublicHeader.zScaleFactor (LasData.header d))
              (PublicHeader.zOffset (LasData.header d))).
Proof.
  intros Hr scaled.
  assert (Hi : (i < LasData.getNumPoints d)%nat)
    by (apply lookup_lt_Some in Hr; exact Hr).
  assert (Hn : nth i (LasData.pointDataRecords d) PointDataRecord.default = r)
    by (rewrite nth_lookup, Hr; reflexivity).
  unfold LasData.getPointCoords.
  cbv zeta.
  lazymatch goal with
  | |- context [foldl ?b ?acc (seq 0 ?n)] =>
      epose proof (fill_lookup _ _ _ b (fun _ _ => eq_refl) n acc i) as H
  end.
  rewrite length_replicate in H. specialize (H ltac:(lia) Hi).
  cbv beta in H. rewrite Hn in H. exact H.
Qed.

(* ====================================================================== *)
(** * What [read] returns *)
(* ====================================================================== *)

Lemma keeps_readVariableLengthRecords bytes h n :
  forall i vlrs, keeps (readVariableLengthRecords bytes h n i vlrs).
Proof.
  induction n as [|n IH]; intros i vlrs; cbn [readVariableLengthRecords];
    keeps_tac.
Qed.

Lemma keeps_variableLengthRecordsBlock bytes h pointDataOnly :
  keeps (variableLengthRecordsBlock bytes h pointDataOnly).
Proof.
  unfold variableLengthRecordsBlock. keeps_tac.
  apply keeps_readVariableLengthRecords.
Qed.

(** The first block leaves [isOK] down exactly when VLRs are read and
    their region overflows. *)
Lemma variableLengthRecordsBlock_isOK bytes h pointDataOnly c vlrs isOK c1 :
  variableLengthRecordsBlock bytes h pointDataOnly c
    = Done ((vlrs, isOK), c1) ->
  isOK = negb (negb pointDataOnly
               && vlrRegionOverflows bytes
                    (PublicHeader.offsetToPointData h)
                    (Z.to_nat (PublicHeader.numOfVariableLengthRecords h))
                    (PublicHeader.headerSize h))
  /\ (isOK = false -> In (LogError VLRsExceedPointData) (trace c1)).
Proof.
  unfold variableLengthRecordsBlock. destruct pointDataOnly; cbn [negb andb].
  - intros [= <- <- <-]. split; [reflexivity|discriminate].
  - rewrite bind_seek. apply readVariableLengthRecords_isOK.
Qed.

(** A run of [read] on an opened file that returns: the header fits, and
    either the format is rejected or the three blocks ran. *)
Lemma read_inv bytes pointDataOnly r log :
  read (Some bytes) pointDataOnly = Done (r, log) ->
  let h := headerImage bytes in
  headerLength (minorAt bytes) <= Z.of_nat (length bytes)
  /\ ((10 < formatAt bytes /\ r = None
       /\ log = fixedHeaderCopies ++ gatedHeaderCopies h
                ++ [LogError (InvalidPointDataRecordFormat (formatAt bytes))])
      \/ (formatAt bytes <= 10
          /\ exists vlrs isOK c1 points c2 evlrs c3,
               variableLengthRecordsBlock bytes h pointDataOnly
                 (Cursor (headerLength (minorAt bytes))
                    (fixedHeaderCopies ++ gatedHeaderCopies h))
               = Done ((vlrs, isOK), c1)
               /\ pointDataRecordsBlock bytes h c1 = Done (points, c2)
               /\ extendedVariableLengthRecordsBlock bytes h pointDataOnly c2
                  = Done (evlrs, c3)
               /\ r = (if isOK
                       then Some (LasData.Build h vlrs points evlrs)
                       else None)
               /\ log = trace c3)).
Proof.
  rewrite read_run. intros H h.
  destruct (Z.leb_spec (headerLength (minorAt bytes))
              (Z.of_nat (length bytes))) as [Hlen|]; [|discriminate].
  split; [exact Hlen|].
  destruct (Z.ltb_spec 10 (formatAt bytes)) as [Hf|Hf].
  - left. injection H as <- <-. auto.
  - right. split; [exact Hf|].
    destruct (readRecords _ _ _ _) as [[r' c3]| |e] eqn:E; [|discriminate..].
    injection H as <- <-.
    apply readRecords_inv in E
      as (vlrs & isOK & c1 & points & c2 & evlrs & H1 & H2 & H3 & Hr).
    exists vlrs, isOK, c1, points, c2, evlrs, c3. auto.
Qed.

(** [read] returns null for two reasons only, once the file is open and
    every copy lies inside the buffer. *)
Lemma read_null_iff bytes pointDataOnly r log :
  read (Some bytes) pointDataOnly = Done (r, log) ->
  r = None <->
  10 < formatAt bytes \/ (pointDataOnly = false /\ vlrOverflow bytes = true).
Proof.
  intros H. apply read_inv in H as [_ [(Hf & -> & _)|(Hf & H)]].
  - split; auto.
  - destruct H as (vlrs & isOK & c1 & points & c2 & evlrs & c3
                   & H1 & _ & _ & -> & _).
    apply variableLengthRecordsBlock_isOK in H1 as [HisOK _].
    change (vlrRegionOverflows bytes _ _ _) with (vlrOverflow bytes) in HisOK.
    subst isOK. destruct pointDataOnly, (vlrOverflow bytes); cbn;
      split; try discriminate; intros; try reflexivity;
      intuition (try lia; try discriminate).
Qed.

(** The log of every run starts with the copies of the header fields. *)
Lemma read_log_prefix bytes pointDataOnly r log :
  read (Some bytes) pointDataOnly = Done (r, log) ->
  exists s, log = fixedHeaderCopies
                  ++ gatedHeaderCopies (headerImage bytes) ++ s.
Proof.
  intros H. apply read_inv in H as [_ [(_ & _ & ->)|(_ & H)]]; [eauto|].
  destruct H as (vlrs & isOK & c1 & points & c2 & evlrs & c3
                 & H1 & H2 & H3 & _ & ->).
  apply keeps_variableLengthRecordsBlock in H1 as [s1 E1].
  apply keeps_pointDataRecordsBlock in H2 as [s2 E2].
  apply keeps_extendedVariableLengthRecordsBlock in H3 as [s3 E3].
  cbn [trace] in E1. exists (s1 ++ s2 ++ s3).
  rewrite E3, E2, E1, <- !app_assoc. reflexivity.
Qed.

Lemma headerImage_bounds bytes :
  let h := headerImage bytes in
  0 <= PublicHeader.offsetToPointData h < 2 ^ 32
  /\ 0 <= PublicHeader.pointDataRecordLength h < 2 ^ 16
  /\ 0 <= PublicHeader.legacyNumOfPointRecords h < 2 ^ 32.
Proof.
  cbn. pose proof (uintAt_range bytes 96 4 ltac:(lia)).
  pose proof (uintAt_range bytes 105 2 ltac:(lia)).
  pose proof (uintAt_range bytes 107 4 ltac:(lia)).
  change (256 ^ 4) with (2 ^ 32) in *. change (256 ^ 2) with (2 ^ 16) in *.
  auto.
Qed.

(** Formats 0 to 4: whenever [read] returns, each declared record lay in
    the buffer at its stride position, and a non-null result holds the
    records laid out there. *)
Lemma read_points_layout bytes pointDataOnly r log :
  read (Some bytes) pointDataOnly = Done (r, log) ->
  formatAt bytes <= 4 ->
  let h := headerImage bytes in
  let at_ (j : nat) :=
    PublicHeader.offsetToPointData h
    + Z.of_nat j * PublicHeader.pointDataRecordLength h in
  (forall j, (j < pointCount h)%nat ->
     in_buffer bytes (at_ j) (pointBytes (formatAt bytes)) = true)
  /\ (forall d, r = Some d ->
        LasData.header d = h
        /\ length (LasData.pointDataRecords d) = pointCount h
        /\ forall j, (j < pointCount h)%nat ->
             LasData.pointDataRecords d !! j
             = Some (pointImage bytes (formatAt bytes) (at_ j))).
Proof.
  intros H Hf h at_. subst h at_.
  set (h := headerImage bytes) in *.
  pose proof (formatAt_range bytes) as Hf0.
  pose proof (headerImage_bounds bytes) as (Ho & Hl & Hn). fold h in Ho, Hl, Hn.
  apply read_inv in H as [_ [(Hf' & _)|(_ & H)]]; [lia|].
  destruct H as (vlrs & isOK & c1 & points & c2 & evlrs & c3
                 & _ & H2 & _ & -> & _).
  apply pointDataRecordsBlock_inv in H2 as [_ H2]. unfold pointCount in H2.
  change (PublicHeader.pointDataRecordFormat (headerImage bytes))
    with (formatAt bytes) in H2.
  assert (Hc : pointCount h
               = Z.to_nat (PublicHeader.legacyNumOfPointRecords h)).
  { unfold pointCount.
    change (PublicHeader.pointDataRecordFormat h) with (formatAt bytes).
    destruct (Z.leb_spec (formatAt bytes) 5); [reflexivity|lia]. }
  assert (E : (formatAt bytes <=? 5) = true) by (apply Z.leb_le; lia).
  rewrite E in H2. fold h in H2. rewrite <- Hc in H2.
  apply (readPointDataRecords_layout bytes h) in H2;
    [ | change (PublicHeader.pointDataRecordFormat h) with (formatAt bytes);
        lia | exact Ho | exact Hl | rewrite Hc; cbn [Nat.add]; lia ].
  destruct H2 as (Hlen & Hnew & _ & Hbuf).
  rewrite length_replicate in Hlen, Hnew.
  split.
  - intros j Hj. apply Hbuf. lia.
  - intros d Hd. destruct isOK; [|discriminate]. injection Hd as <-.
    cbn [LasData.header LasData.pointDataRecords].
    split; [reflexivity|]. split; [exact Hlen|].
    intros j Hj. apply Hnew; lia.
Qed.

(** Formats 5 to 10: a non-null result holds placeholders only, and the
    point block logged one diagnostic per record. *)
Lemma read_points_placeholders bytes pointDataOnly d log :
  read (Some bytes) pointDataOnly = Done (Some d, log) ->
  5 <= formatAt bytes ->
  let h := headerImage bytes in
  LasData.header d = h
  /\ LasData.pointDataRecords d
     = replicate (pointCount h) PointDataRecord.default
  /\ exists pre post,
       log = pre
             ++ replicate (pointCount h)
                  (LogError (UnsupportedPointDataRecordFormat
                               (formatAt bytes)))
             ++ post.
Proof.
  intros H Hf h.
  apply read_inv in H as [_ [(_ & Hr & _)|(Hf' & H)]]; [discriminate|].
  destruct H as (vlrs & isOK & c1 & points & c2 & evlrs & c3
                 & _ & H2 & H3 & Hr & ->).
  destruct isOK; [|discriminate]. injection Hr as ->.
  cbn [LasData.header LasData.pointDataRecords].
  apply pointDataRecordsBlock_inv in H2 as [_ H2]. unfold pointCount in H2.
  destruct (readPointDataRecords_placeholders bytes h
              ltac:(change (PublicHeader.pointDataRecordFormat h)
                      with (formatAt bytes); lia)
              (pointCount h) 0%nat (pointCount h) c1) as (c2' & E & Et).
  unfold pointCount in E at 1 2. fold h in H2. rewrite E in H2.
  injection H2 as <- <-.
  apply keeps_extendedVariableLengthRecordsBlock in H3 as [s3 E3].
  split; [reflexivity|]. split; [reflexivity|].
  exists (trace c1), s3. rewrite E3, Et, <- app_assoc. reflexivity.
Qed.

(* ====================================================================== *)
(** * Which events a run adds *)
(* ====================================================================== *)

Lemma diagnostics_app l1 l2 :
  diagnostics (l1 ++ l2) = diagnostics l1 ++ diagnostics l2.
Proof.
  induction l1 as [|[o n|d] l1 IH]; cbn [app diagnostics];
    [reflexivity|exact IH|now rewrite IH].
Qed.

Lemma diagnostics_copies l : Forall is_copy l -> diagnostics l = [].
Proof.
  induction 1 as [|[o n|d] l He _ IH]; cbn [diagnostics];
    [reflexivity|exact IH|destruct He].
Qed.

Lemma diagnostics_replicate n d :
  diagnostics (replicate n (LogError d)) = replicate n d.
Proof. induction n as [|n IH]; cbn; [reflexivity|now rewrite IH]. Qed.

Lemma adds_ret P {A} (a : A) : adds P (ret a).
Proof.
  intros c a' c' [= <- <-]. exists []. split; [now rewrite app_nil_r|].
  constructor.
Qed.

Lemma adds_bind P {A B} (m : M A) (k : A -> M B) :
  adds P m -> (forall a, adds P (k a)) -> adds P (bind m k).
Proof.
  intros Hm Hk c b c' H.
  apply bind_inv in H as (a & c1 & H1 & H2).
  apply Hm in H1 as (s1 & E1 & F1). apply Hk in H2 as (s2 & E2 & F2).
  exists (s1 ++ s2). split; [now rewrite E2, E1, app_assoc|].
  apply Forall_app; auto.
Qed.

Lemma adds_memcpy P bytes n :
  (forall o, P (Memcpy o n)) -> adds P (memcpy bytes n).
Proof.
  intros HP c a c'. unfold memcpy.
  destruct (in_buffer bytes (offset c) n); [|discriminate].
  intros [= <- <-]. cbn [trace]. eexists. split; [reflexivity|].
  repeat constructor. apply HP.
Qed.

Lemma adds_advance P n : adds P (advance n).
Proof.
  intros c a c' [= <- <-]. exists []. split; [cbn; now rewrite app_nil_r|].
  constructor.
Qed.

Lemma adds_seek P o : adds P (seek o).
Proof.
  intros c a c' [= <- <-]. exists []. split; [cbn; now rewrite app_nil_r|].
  constructor.
Qed.

Lemma adds_logError P d : P (LogError d) -> adds P (logError d).
Proof.
  intros HP c a c' [= <- <-]. cbn [trace]. eexists. split; [reflexivity|].
  repeat constructor. exact HP.
Qed.

Lemma adds_resize P {T} max_size (value : T) count :
  adds P (resize max_size value count).
Proof.
  intros c a c'. unfold resize.
  destruct (count <=? max_size); [|discriminate].
  intros [= <- <-]. exists []. split; [now rewrite app_nil_r|]. constructor.
Qed.

(** The events a chain of decoding steps adds, step by step. *)
Ltac adds_tac :=
  repeat first
    [ apply adds_memcpy; intros ?; exact I
    | apply adds_bind; [|intros ?]
    | match goal with |- adds _ (if ?b then _ else _) => destruct b end
    | apply adds_ret
    | apply adds_advance
    | apply adds_seek
    | apply adds_logError; reflexivity ].

Lemma adds_readPointDataRecord bytes format :
  adds (is_point_event format)
    (PointDataRecord.readPointDataRecord bytes format).
Proof.
  unfold PointDataRecord.readPointDataRecord,
    PointDataRecord._readPointDataRecordFotmat0to4,
    PointDataRecord._readPointDataRecordFotmat5to15.
  adds_tac.
Qed.

Lemma adds_readPointDataRecords bytes h n :
  forall i recs,
    adds (is_point_event (PublicHeader.pointDataRecordFormat h))
      (readPointDataRecords bytes h n i recs).
Proof.
  induction n as [|n IH]; intros i recs; cbn [readPointDataRecords].
  - apply adds_ret.
  - apply adds_bind; [apply adds_seek|]. intros _.
    apply adds_bind; [apply adds_readPointDataRecord|]. intros r.
    apply IH.
Qed.

Lemma adds_pointDataRecordsBlock bytes h :
  adds (is_point_event (PublicHeader.pointDataRecordFormat h))
    (pointDataRecordsBlock bytes h).
Proof.
  unfold pointDataRecordsBlock. cbv zeta.
  apply adds_bind; [apply adds_resize|]. intros recs.
  apply adds_readPointDataRecords.
Qed.

Lemma adds_readExtendedVariableLengthRecord bytes :
  adds is_copy
    (ExtendedVariableLengthRecord.readExtendedVariableLengthRecord bytes).
Proof.
  unfold ExtendedVariableLengthRecord.readExtendedVariableLengthRecord.
  cbv zeta. adds_tac.
Qed.

Lemma adds_readExtendedVariableLengthRecords bytes n :
  forall i recs,
    adds is_copy (readExtendedVariableLengthRecords bytes n i recs).
Proof.
  induction n as [|n IH]; intros i recs;
    cbn [readExtendedVariableLengthRecords].
  - apply adds_ret.
  - apply adds_bind; [apply adds_readExtendedVariableLengthRecord|].
    intros r. apply IH.
Qed.

Lemma adds_extendedVariableLengthRecordsBlock bytes h pointDataOnly :
  adds is_copy (extendedVariableLengthRecordsBlock bytes h pointDataOnly).
Proof.
  unfold extendedVariableLengthRecordsBlock. cbv zeta.
  destruct (_ && _); [|apply adds_ret].
  apply adds_bind; [apply adds_seek|]. intros _.
  apply adds_readExtendedVariableLengthRecords.
Qed.

Lemma vlrRunCopies_copies bytes k :
  forall off, Forall is_copy (vlrRunCopies bytes off k).
Proof.
  induction k as [|k IH]; intros off; cbn [vlrRunCopies]; [constructor|].
  apply Forall_app. split; [|apply IH].
  unfold vlrCopies. repeat constructor.
Qed.

Lemma fixedHeaderCopies_copies : Forall is_copy fixedHeaderCopies.
Proof. unfold fixedHeaderCopies. repeat constructor. Qed.

Lemma gatedHeaderCopies_copies h : Forall is_copy (gatedHeaderCopies h).
Proof.
  unfold gatedHeaderCopies.
  repeat (apply Forall_app; split);
    match goal with |- Forall _ (if ?b then _ else _) => destruct b end;
    repeat constructor.
Qed.

(** The loop over the variable length records: it decodes [k] records
    back to back and either reaches the declared count with [isOK] up, or
    stops at the first record whose start has reached offsetToPointData,
    logs the diagnostic once and leaves [isOK] down. *)
Lemma readVariableLengthRecords_trace bytes h n :
  forall i vlrs o t vlrs' isOK c',
    readVariableLengthRecords bytes h n i vlrs (Cursor o t)
      = Done ((vlrs', isOK), c') ->
    exists k,
      c' = Cursor (vlrOffsetAt bytes o k)
             (t ++ vlrRunCopies bytes o k
                ++ (if isOK then [] else [LogError VLRsExceedPointData]))
      /\ (forall j, (j < k)%nat ->
            vlrOffsetAt bytes o j mod 2 ^ 32
            < PublicHeader.offsetToPointData h)
      /\ (if isOK then k = n
          else (k < n)%nat
               /\ PublicHeader.offsetToPointData h
                  <= vlrOffsetAt bytes o k mod 2 ^ 32).
Proof.
  induction n as [|n IH]; intros i vlrs o t vlrs' isOK c' H.
  - injection H as <- <- <-. exists 0%nat. cbn.
    rewrite app_nil_r. repeat split. intros j Hj. lia.
  - cbn [readVariableLengthRecords] in H.
    unfold bind at 1 in H. cbn [getOffset offset] in H.
    destruct (Z.leb_spec (PublicHeader.offsetToPointData h) (o mod 2 ^ 32))
      as [Hge|Hlt].
    + injection H as <- <- <-. exists 0%nat. cbn.
      repeat split; [intros j Hj; lia|lia|exact Hge].
    + unfold bind at 1 in H. rewrite readVariableLengthRecord_run in H.
      destruct (in_buffer bytes o (54 + vlrPayloadLength bytes o));
        [|discriminate].
      apply IH in H as (k & -> & Hbelow & Hk).
      exists (S k). cbn [vlrOffsetAt vlrRunCopies].
      rewrite <- !app_assoc. split; [reflexivity|]. split.
      * intros [|j] Hj; cbn [vlrOffsetAt]; [exact Hlt|].
        apply Hbelow. lia.
      * destruct isOK; [lia|]. destruct Hk as [Hk1 Hk2].
        split; [lia|exact Hk2].
Qed.

(** The first block of [read] with [pointDataOnly = false], by what it
    leaves in the cursor. *)
Lemma variableLengthRecordsBlock_trace bytes h o t vlrs isOK c1 :
  variableLengthRecordsBlock bytes h false (Cursor o t)
    = Done ((vlrs, isOK), c1) ->
  let n := Z.to_nat (PublicHeader.numOfVariableLengthRecords h) in
  let start := vlrOffsetAt bytes (PublicHeader.headerSize h) in
  exists k,
    c1 = Cursor (start k)
           (t ++ vlrRunCopies bytes (PublicHeader.headerSize h) k
              ++ (if isOK then [] else [LogError VLRsExceedPointData]))
    /\ (forall j, (j < k)%nat ->
          start j mod 2 ^ 32 < PublicHeader.offsetToPointData h)
    /\ (if isOK then k = n
        else (k < n)%nat
             /\ PublicHeader.offsetToPointData h <= start k mod 2 ^ 32).
Proof.
  unfold variableLengthRecordsBlock. cbn [negb]. cbv zeta.
  rewrite bind_seek. apply readVariableLengthRecords_trace.
Qed.

(** With [pointDataOnly = true] only the point block runs. *)
Lemma readRecords_pointDataOnly bytes h c :
  readRecords bytes h true c =
  match pointDataRecordsBlock bytes h c with
  | Done (points, c') => Done (Some (LasData.Build h [] points []), c')
  | Undefined => Undefined
  | Thrown e => Thrown e
  end.
Proof.
  unfold readRecords, variableLengthRecordsBlock,
    extendedVariableLengthRecordsBlock.
  cbn [negb andb]. rewrite bind_ret. cbv zeta. cbn [fst snd].
  unfold bind at 1.
  destruct (pointDataRecordsBlock bytes h c) as [[points c']| |e];
    reflexivity.
Qed.

(** Formats 0 to 4: the loop has a result when every record it is asked
    for lies in the buffer. *)
Lemma readPointDataRecords_fits bytes h :
  0 <= PublicHeader.pointDataRecordFormat h <= 4 ->
  0 <= PublicHeader.offsetToPointData h < 2 ^ 32 ->
  0 <= PublicHeader.pointDataRecordLength h < 2 ^ 16 ->
  forall n i recs c,
    Z.of_nat (i + n) <= 2 ^ 32 ->
    (forall j, (i <= j < i + n)%nat ->
       in_buffer bytes
         (PublicHeader.offsetToPointData h
          + Z.of_nat j * PublicHeader.pointDataRecordLength h)
         (pointBytes (PublicHeader.pointDataRecordFormat h)) = true) ->
    exists recs' c', readPointDataRecords bytes h n i recs c = Done (recs', c').
Proof.
  intros Hf Ho Hl.
  induction n as [|n IH]; intros i recs c Hn Hall.
  - cbn. eauto.
  - cbn [readPointDataRecords]. rewrite bind_seek.
    set (o := PublicHeader.offsetToPointData h
              + Z.of_nat i * PublicHeader.pointDataRecordLength h) in *.
    assert (Ho' : 0 <= o < 2 ^ 63) by (unfold o; nia).
    replace (to_streamsize (o mod 2 ^ 64)) with o.
    2:{ rewrite Z.mod_small by lia. unfold to_streamsize.
        destruct (Z.ltb_spec o (2 ^ 63)); lia. }
    unfold PointDataRecord.readPointDataRecord.
    assert (E1 : (0 <=? PublicHeader.pointDataRecordFormat h) = true)
      by (apply Z.leb_le; lia).
    assert (E2 : (PublicHeader.pointDataRecordFormat h <? 5) = true)
      by (apply Z.ltb_lt; lia).
    rewrite E1, E2. cbn [andb].
    unfold bind at 1.
    rewrite readPointDataRecordFotmat0to4_run.
    pose proof (Hall i ltac:(lia)) as Hi. fold o in Hi. rewrite Hi.
    apply IH; [lia|]. intros j Hj. apply Hall. lia.
Qed.

(** [read] with [pointDataOnly = true] on a file that holds its header
    and an accepted format. *)
Lemma read_pointDataOnly_run bytes :
  headerLength (minorAt bytes) <= Z.of_nat (length bytes) ->
  formatAt bytes <= 10 ->
  let h := headerImage bytes in
  read (Some bytes) true =
  if nPointRecords h <=? PointDataRecord.max_size then
    match readPointDataRecords bytes h (pointCount h) 0
            (replicate (pointCount h) PointDataRecord.default)
            (Cursor (headerLength (minorAt bytes))
               (fixedHeaderCopies ++ gatedHeaderCopies h))
    with
    | Done (points, c) => Done (Some (LasData.Build h [] points []), trace c)
    | Undefined => Undefined
    | Thrown e => Thrown e
    end
  else Thrown length_error.
Proof.
  intros Hlen Hf h. rewrite read_run.
  apply Z.leb_le in Hlen. rewrite Hlen.
  assert (E : (10 <? formatAt bytes) = false) by (apply Z.ltb_ge; lia).
  rewrite E, readRecords_pointDataOnly, pointDataRecordsBlock_run.
  fold h. destruct (nPointRecords h <=? PointDataRecord.max_size);
    [|reflexivity].
  destruct (readPointDataRecords _ _ _ _ _ _) as [[points c]| |e];
    reflexivity.
Qed.

Lemma nPointRecords_legacy bytes :
  formatAt bytes <= 5 ->
  nPointRecords (headerImage bytes) <= PointDataRecord.max_size.
Proof.
  intros Hf. unfold nPointRecords.
  change (PublicHeader.pointDataRecordFormat (headerImage bytes))
    with (formatAt bytes).
  destruct (Z.leb_spec (formatAt bytes) 5); [|lia].
  pose proof (headerImage_bounds bytes) as (_ & _ & Hn).
  cbv zeta in Hn.
  assert (2 ^ 32 <= PointDataRecord.max_size) by (vm_compute; discriminate).
  lia.
Qed.

(* ====================================================================== *)
(** * Where an exception can come from *)
(* ====================================================================== *)

Lemma nothrow_ret {A} (a : A) : nothrow (ret a).
Proof. intros c e. discriminate. Qed.

Lemma nothrow_bind {A B} (m : M A) (k : A -> M B) :
  nothrow m -> (forall a, nothrow (k a)) -> nothrow (bind m k).
Proof.
  intros Hm Hk c e. unfold bind.
  destruct (m c) as [[a c1]| |e1] eqn:E;
    [apply Hk|discriminate|exfalso; exact (Hm c e1 E)].
Qed.

Lemma nothrow_memcpy bytes n : nothrow (memcpy bytes n).
Proof.
  intros c e. unfold memcpy.
  destruct (in_buffer bytes (offset c) n); discriminate.
Qed.

Lemma nothrow_advance n : nothrow (advance n).
Proof. intros c e. discriminate. Qed.

Lemma nothrow_seek o : nothrow (seek o).
Proof. intros c e. discriminate. Qed.

Lemma nothrow_getOffset : nothrow getOffset.
Proof. intros c e. discriminate. Qed.

Lemma nothrow_logError d : nothrow (logError d).
Proof. intros c e. discriminate. Qed.

Create HintDb nothrow.
#[local] Hint Resolve nothrow_ret nothrow_memcpy nothrow_advance
  nothrow_seek nothrow_getOffset nothrow_logError : nothrow.

Ltac nothrow_tac :=
  repeat first
    [ apply nothrow_bind; [|intros ?]
    | match goal with |- nothrow (if ?b then _ else _) => destruct b end
    | solve [auto with nothrow] ].

Lemma nothrow_copyField bytes n : nothrow (copyField bytes n).
Proof. unfold copyField. nothrow_tac. Qed.
#[local] Hint Resolve nothrow_copyField : nothrow.

Lemma nothrow_readVariableLengthRecord bytes :
  nothrow (VariableLengthRecord.readVariableLengthRecord bytes).
Proof.
  unfold VariableLengthRecord.readVariableLengthRecord. nothrow_tac.
Qed.

Lemma nothrow_readPointDataRecord bytes format :
  nothrow (PointDataRecord.readPointDataRecord bytes format).
Proof.
  unfold PointDataRecord.readPointDataRecord,
    PointDataRecord._readPointDataRecordFotmat0to4,
    PointDataRecord._readPointDataRecordFotmat5to15.
  nothrow_tac.
Qed.

Lemma nothrow_readExtendedVariableLengthRecord bytes :
  nothrow
    (ExtendedVariableLengthRecord.readExtendedVariableLengthRecord bytes).
Proof.
  unfold ExtendedVariableLengthRecord.readExtendedVariableLengthRecord.
  nothrow_tac.
Qed.
#[local] Hint Resolve nothrow_readVariableLengthRecord
  nothrow_readPointDataRecord nothrow_readExtendedVariableLengthRecord
  : nothrow.

Lemma nothrow_readVariableLengthRecords bytes h n :
  forall i vlrs, nothrow (readVariableLengthRecords bytes h n i vlrs).
Proof.
  induction n as [|n IH]; intros i vlrs; cbn [readVariableLengthRecords];
    nothrow_tac.
Qed.

Lemma nothrow_readPointDataRecords bytes h n :
  forall i recs, nothrow (readPointDataRecords bytes h n i recs).
Proof.
  induction n as [|n IH]; intros i recs; cbn [readPointDataRecords];
    nothrow_tac.
Qed.

Lemma nothrow_readExtendedVariableLengthRecords bytes n :
  forall i recs, nothrow (readExtendedVariableLengthRecords bytes n i recs).
Proof.
  induction n as [|n IH]; intros i recs;
    cbn [readExtendedVariableLengthRecords]; nothrow_tac.
Qed.
#[local] Hint Resolve nothrow_readVariableLengthRecords
  nothrow_readPointDataRecords nothrow_readExtendedVariableLengthRecords
  : nothrow.

Lemma nothrow_variableLengthRecordsBlock bytes h pointDataOnly :
  nothrow (variableLengthRecordsBlock bytes h pointDataOnly).
Proof. unfold variableLengthRecordsBlock. nothrow_tac. Qed.

Lemma nothrow_extendedVariableLengthRecordsBlock bytes h pointDataOnly :
  nothrow (extendedVariableLengthRecordsBlock bytes h pointDataOnly).
Proof. unfold extendedVariableLengthRecordsBlock. nothrow_tac. Qed.

(** The only exception of [read] is the one of the resize of the point
    records, for a count beyond [max_size()]. *)
Lemma read_thrown_inv bytes pointDataOnly e :
  read (Some bytes) pointDataOnly = Thrown e ->
  e = length_error
  /\ PointDataRecord.max_size < nPointRecords (headerImage bytes).
Proof.
  rewrite read_run.
  destruct (headerLength (minorAt bytes) <=? Z.of_nat (length bytes));
    [|discriminate].
  destruct (10 <? formatAt bytes); [discriminate|].
  set (h := headerImage bytes). set (c := Cursor _ _).
  destruct (readRecords bytes h pointDataOnly c) as [[r c3]| |e'] eqn:E;
    [discriminate..|].
  intros _. destruct e, e'. unfold readRecords in E. unfold bind at 1 in E.
  destruct (variableLengthRecordsBlock bytes h pointDataOnly c)
    as [[[vlrs isOK] c1]| |e1] eqn:E1;
    [|discriminate
     |exfalso; exact (nothrow_variableLengthRecordsBlock _ _ _ _ _ E1)].
  cbv zeta in E. unfold bind at 1 in E.
  rewrite pointDataRecordsBlock_run in E.
  destruct (Z.leb_spec (nPointRecords h) PointDataRecord.max_size);
    [exfalso|auto].
  destruct (readPointDataRecords _ _ _ _ _ _) as [[points c2]| |e2] eqn:E2;
    [|discriminate|exact (nothrow_readPointDataRecords _ _ _ _ _ _ _ E2)].
  unfold bind at 1 in E.
  destruct (extendedVariableLengthRecordsBlock bytes h pointDataOnly c2)
    as [[evlrs c3]| |e3] eqn:E3;
    [discriminate..
    |exact (nothrow_extendedVariableLengthRecordsBlock _ _ _ _ _ E3)].
Qed.

(* ====================================================================== *)
(** * Signature and format checks (C1, C4, C5) *)
(* ====================================================================== *)







(** C5, as the specification states it, fails in one direction: the format
    of [fileVLRAtZero] is 0, inside [0, 10], and [read] asked for the
    variable length records returns null all the same. *)
Lemma read_null_with_valid_format :
  formatAt fileVLRAtZero = 0
  /\ exists log, read (Some fileVLRAtZero) false = Done (None, log).
Proof.
  split; [reflexivity|].
  destruct (read (Some fileVLRAtZero) false) as [[[d|] log]| |e] eqn:E;
    [ vm_compute in E; discriminate | | vm_compute in E; discriminate .. ].
  exists log. reflexivity.
Qed.

(** In a run that leaves [isOK] up the first block only copies. *)
Lemma variableLengthRecordsBlock_copies bytes h pointDataOnly c vlrs c1 :
  variableLengthRecordsBlock bytes h pointDataOnly c
    = Done ((vlrs, true), c1) ->
  exists s, trace c1 = trace c ++ s /\ Forall is_copy s.
Proof.
  destruct pointDataOnly.
  - unfold variableLengthRecordsBlock. cbn [negb].
    intros [= <- <-]. exists []. split; [now rewrite app_nil_r|constructor].
  - destruct c as [o t]. intros H.
    apply variableLengthRecordsBlock_trace in H as (k & -> & _).
    cbn [trace]. rewrite app_nil_r. eexists. split; [reflexivity|].
    apply vlrRunCopies_copies.
Qed.

(** Formats 5 to 10: the log of a run that returns a cloud is copies, then
    one diagnostic per point record, then copies. *)
Lemma read_placeholders_log bytes pointDataOnly d log :
  read (Some bytes) pointDataOnly = Done (Some d, log) ->
  5 <= formatAt bytes ->
  exists pre post,
    log = pre
          ++ replicate (pointCount (headerImage bytes))
               (LogError (UnsupportedPointDataRecordFormat (formatAt bytes)))
          ++ post
    /\ Forall is_copy pre /\ Forall is_copy post.
Proof.
  intros H Hf. set (h := headerImage bytes).
  apply read_inv in H as [_ [(_ & Hr & _)|(Hf' & H)]]; [discriminate|].
  destruct H as (vlrs & isOK & c1 & points & c2 & evlrs & c3
                 & H1 & H2 & H3 & Hr & ->).
  destruct isOK; [|discriminate]. fold h in H1, H2, H3.
  apply variableLengthRecordsBlock_copies in H1 as (s1 & E1 & F1).
  apply pointDataRecordsBlock_inv in H2 as [_ H2].
  destruct (readPointDataRecords_placeholders bytes h
              ltac:(change (PublicHeader.pointDataRecordFormat h)
                      with (formatAt bytes); lia)
              (pointCount h) 0%nat (pointCount h) c1) as (c2' & E & Et).
  rewrite E in H2. injection H2 as _ <-.
  apply adds_extendedVariableLengthRecordsBlock in H3 as (s3 & E3 & F3).
  cbn [trace] in E1.
  exists (fixedHeaderCopies ++ gatedHeaderCopies h ++ s1), s3.
  split; [|split; [|exact F3]].
  - rewrite E3, Et, E1, <- !app_assoc. reflexivity.
  - apply Forall_app. split; [apply fixedHeaderCopies_copies|].
    apply Forall_app. split; [apply gatedHeaderCopies_copies|exact F1].
Qed.

(** C5 (amended): on an opened file, when the run returns, [read] returns
    null exactly when the format exceeds 10 (an unsigned byte is never
    below 0) or, variable length records being asked for, their region
    overflows.  For a format from 5 on (so 5 to 10) in a non-null result,
    every point record is the zero-valued placeholder, and the diagnostics
    of the whole run are exactly one "Unsupported point data record
    format" per point record: the log is copies, then that diagnostic once
    for each record, then copies.  The point decoder for formats 5 to 15
    returns the placeholder, logs the diagnostic once and leaves the offset
    where the caller put it. *)
Theorem read_format_gate bytes pointDataOnly r log :
  read (Some bytes) pointDataOnly = Done (r, log) ->
  let f := formatAt bytes in
  let unsupported := UnsupportedPointDataRecordFormat f in
  (r = None <->
   10 < f \/ (pointDataOnly = false /\ vlrOverflow bytes = true))
  /\ (forall d, r = Some d -> 5 <= f ->
        let n := pointCount (LasData.header d) in
        f <= 10
        /\ LasData.pointDataRecords d = replicate n PointDataRecord.default
        /\ diagnostics log = replicate n unsupported
        /\ exists pre post,
             log = pre ++ replicate n (LogError unsupported) ++ post
             /\ Forall is_copy pre /\ Forall is_copy post)
  /\ (forall c, 5 <= f < 16 ->
        PointDataRecord.readPointDataRecord bytes f c
        = Done (PointDataRecord.default,
                Cursor (offset c) (trace c ++ [LogError unsupported]))).
Proof.
  intros H f unsupported. subst f unsupported.
  split; [exact (read_null_iff _ _ _ _ H)|]. split.
  - intros d -> Hf n. subst n.
    destruct (read_points_placeholders _ _ _ _ H Hf) as (Hh & Hp & _).
    destruct (read_placeholders_log _ _ _ _ H Hf)
      as (pre & post & Hlog & Fpre & Fpost).
    rewrite Hh. split; [|split; [exact Hp|split]].
    + destruct (Z.le_gt_cases (formatAt bytes) 10) as [|Hgt]; [assumption|].
      exfalso. pose proof (proj2 (read_null_iff _ _ _ _ H) (or_introl Hgt)).
      discriminate.
    + rewrite Hlog, !diagnostics_app, diagnostics_replicate.
      rewrite (diagnostics_copies _ Fpre), (diagnostics_copies _ Fpost).
      now rewrite app_nil_r.
    + exists pre, post. auto.
  - intros c Hf. unfold PointDataRecord.readPointDataRecord.
    assert (E1 : (formatAt bytes <? 5) = false) by (apply Z.ltb_ge; lia).
    assert (E2 : (5 <=? formatAt bytes) = true) by (apply Z.leb_le; lia).
    assert (E3 : (formatAt bytes <? 16) = true) by (apply Z.ltb_lt; lia).
    rewrite E1, E2, E3, andb_false_r. reflexivity.
Qed.

Lemma read_format_gate_witness :
  exists d log,
    read (Some fileFormat7) false = Done (Some d, log)
    /\ LasData.pointDataRecords d = replicate 2 PointDataRecord.default
    /\ diagnostics log
       = [UnsupportedPointDataRecordFormat 7;
          UnsupportedPointDataRecordFormat 7].
Proof.
  destruct (read (Some fileFormat7) false) as [[[d|] log]| |e] eqn:E;
    [ | vm_compute in E; discriminate .. ].
  destruct (read_format_gate fileFormat7 false (Some d) log E)
    as (_ & Hp & _).
  destruct (Hp d eq_refl) as (_ & Hrecs & Hdiag & _).
  - vm_compute. discriminate.
  - assert (Hc : pointCount (LasData.header d) = 2%nat)
      by (vm_compute in E; injection E as <- _; reflexivity).
    rewrite Hc in Hrecs, Hdiag.
    exists d, log. split; [reflexivity|]. split; [exact Hrecs|exact Hdiag].
Defined.

(* ====================================================================== *)
(** * The VLR region (C2) and bounds (C3) *)
(* ====================================================================== *)

(** C2, as the specification states it, fails: [fileVLROverflow] declares
    five records and point data starts after the third; [read] logs the
    diagnostic and returns null, not a cloud with three records. *)
Lemma read_vlr_overflow_returns_null :
  vlrOverflow fileVLROverflow = true
  /\ exists log,
       read (Some fileVLROverflow) false = Done (None, log)
       /\ In (LogError VLRsExceedPointData) log
       /\ In (Memcpy 341 2) log /\ ~ In (Memcpy 398 2) log.
Proof.
  split; [vm_compute; reflexivity|].
  destruct (read (Some fileVLROverflow) false) as [[[d|] log]| |e] eqn:E;
    [ vm_compute in E; discriminate | | vm_compute in E; discriminate .. ].
  exists log. split; [reflexivity|].
  vm_compute in E. injection E as <-.
  cbn. intuition discriminate.
Qed.

(** C2 (amended): when the running offset of the VLR loop reaches or
    exceeds offsetToPointData before the declared count is exhausted, the
    loop stops there: it has decoded the [k] records before the first one
    whose start (as a 32-bit value) is not below offsetToPointData, [k]
    being less than the declared count, it logs "The total size of VLRs
    exceeds the start of Point Data records!" once, and no further record
    is tried; the run goes on from there with the point block and the
    block of the extended records, which do not log that diagnostic.  The
    condition is fatal: whenever the run returns, [read] returns null, and
    the records decoded so far are dropped with the rest of the result. *)
Theorem read_vlr_overflow_is_fatal bytes r log :
  read (Some bytes) false = Done (r, log) ->
  formatAt bytes <= 10 ->
  vlrOverflow bytes = true ->
  let h := headerImage bytes in
  let start := vlrOffsetAt bytes (PublicHeader.headerSize h) in
  let upTo k :=
    fixedHeaderCopies ++ gatedHeaderCopies h
    ++ vlrRunCopies bytes (PublicHeader.headerSize h) k
    ++ [LogError VLRsExceedPointData] in
  r = None
  /\ exists k points c2 evlrs c3,
       (k < Z.to_nat (PublicHeader.numOfVariableLengthRecords h))%nat
       /\ (forall j, (j < k)%nat ->
             start j mod 2 ^ 32 < PublicHeader.offsetToPointData h)
       /\ PublicHeader.offsetToPointData h <= start k mod 2 ^ 32
       /\ pointDataRecordsBlock bytes h (Cursor (start k) (upTo k))
          = Done (points, c2)
       /\ extendedVariableLengthRecordsBlock bytes h false c2
          = Done (evlrs, c3)
       /\ log = trace c3
       /\ exists rest,
            log = upTo k ++ rest
            /\ ~ In (LogError VLRsExceedPointData) rest
            /\ diagnostics log
               = VLRsExceedPointData :: diagnostics rest.
Proof.
  intros H Hf Hov h start upTo. subst start upTo. cbv beta.
  apply read_inv in H as [_ [(Hf' & _)|(_ & H)]]; [lia|].
  destruct H as (vlrs & isOK & c1 & points & c2 & evlrs & c3
                 & H1 & H2 & H3 & -> & ->).
  fold h in H1, H2, H3.
  pose proof (variableLengthRecordsBlock_isOK _ _ _ _ _ _ _ H1)
    as [HisOK _].
  change (vlrRegionOverflows bytes _ _ _) with (vlrOverflow bytes) in HisOK.
  rewrite Hov in HisOK. cbn in HisOK. subst isOK.
  split; [reflexivity|].
  apply variableLengthRecordsBlock_trace in H1
    as (k & -> & Hbelow & Hk & Hge).
  rewrite <- !app_assoc in H2.
  exists k, points, c2, evlrs, c3.
  split; [exact Hk|]. split; [exact Hbelow|]. split; [exact Hge|].
  split; [exact H2|]. split; [exact H3|]. split; [reflexivity|].
  apply adds_pointDataRecordsBlock in H2 as (s2 & E2 & F2).
  apply adds_extendedVariableLengthRecordsBlock in H3 as (s3 & E3 & F3).
  cbn [trace] in E2.
  exists (s2 ++ s3). split; [|split].
  - rewrite E3, E2, <- !app_assoc. reflexivity.
  - intros Hin. apply in_app_or in Hin as [Hin|Hin].
    + rewrite Forall_forall in F2. apply list_elem_of_In in Hin.
      apply F2 in Hin. discriminate Hin.
    + rewrite Forall_forall in F3. apply list_elem_of_In in Hin.
      apply F3 in Hin. exact Hin.
  - rewrite E3, E2, !diagnostics_app.
    rewrite (diagnostics_copies _ fixedHeaderCopies_copies).
    rewrite (diagnostics_copies _ (gatedHeaderCopies_copies h)).
    rewrite (diagnostics_copies _ (vlrRunCopies_copies bytes k _)).
    reflexivity.
Qed.

Lemma read_vlr_overflow_is_fatal_witness :
  exists log rest,
    read (Some fileVLROverflow) false = Done (None, log)
    /\ log = fixedHeaderCopies ++ gatedHeaderCopies (headerImage fileVLROverflow)
             ++ vlrRunCopies fileVLROverflow 227 3
             ++ [LogError VLRsExceedPointData] ++ rest
    /\ ~ In (LogError VLRsExceedPointData) rest.
Proof.
  destruct (read (Some fileVLROverflow) false) as [[r log]| |e] eqn:E;
    [|vm_compute in E; discriminate..].
  destruct (read_vlr_overflow_is_fatal fileVLROverflow r log E)
    as (-> & k & points & c2 & evlrs & c3 & Hk & Hbelow & Hge & _ & _ & _
        & rest & Hlog & Hnot & _).
  - vm_compute. discriminate.
  - vm_compute. reflexivity.
  - exists log, rest. split; [reflexivity|]. split; [|exact Hnot].
    assert (k = 3%nat) as ->.
    { destruct k as [|[|[|[|k]]]].
      - vm_compute in Hge. contradiction.
      - vm_compute in Hge. contradiction.
      - vm_compute in Hge. contradiction.
      - reflexivity.
      - exfalso. specialize (Hbelow 3%nat ltac:(lia)).
        vm_compute in Hbelow. discriminate. }
    rewrite Hlog, <- !app_assoc. reflexivity.
Defined.




(* ====================================================================== *)
(** * Version-gated header fields (C6) *)
(* ====================================================================== *)

(** C6: for every buffer, the header decoder returns as soon as the buffer
    holds the header of its minor version, and whenever it returns: the
    waveform-start flag is raised iff versionMinor >= 3 and the other four
    flags iff versionMinor >= 4 (all or none); a gated field is decoded from
    its place in the buffer when its flag is raised and is zero otherwise;
    the copies made are those of the fixed fields followed by one copy per
    raised flag and no other; and the offset ends after the fixed 227 bytes
    plus the width of each field whose flag is raised. *)
Theorem header_version_gating bytes c :
  (headerLength (minorAt bytes) <= Z.of_nat (length bytes) ->
   exists h c', PublicHeader.readPublicHeader bytes c = Done (h, c'))
  /\ forall h c',
       PublicHeader.readPublicHeader bytes c = Done (h, c') ->
       let v := PublicHeader.versionMinor h in
       let has3 := PublicHeader.hasStartOfWaveformDataPacketRecord h in
       let has4a :=
         PublicHeader.hasStartOfFirstExtendedVariableLengthRecord h in
       let has4b := PublicHeader.hasNumOfExtendedVariableLengthRecords h in
       let has4c := PublicHeader.hasNumOfPointRecords h in
       let has4d := PublicHeader.hasNumOfPointsByReturn h in
       v = uintAt bytes 25 1
       /\ has3 = (3 <=? v)
       /\ has4a = (4 <=? v) /\ has4b = (4 <=? v)
       /\ has4c = (4 <=? v) /\ has4d = (4 <=? v)
       /\ PublicHeader.startOfWaveformDataPacketRecord h
          = (if has3 then uintAt bytes 227 8 else 0)
       /\ PublicHeader.startOfFirstExtendedVariableLengthRecord h
          = (if has4a then uintAt bytes 235 8 else 0)
       /\ PublicHeader.numOfExtendedVariableLengthRecords h
          = (if has4b then uintAt bytes 243 4 else 0)
       /\ PublicHeader.numOfPointRecords h
          = (if has4c then uintAt bytes 247 8 else 0)
       /\ PublicHeader.numOfPointsByReturn h
          = (if has4d then le_words 8 15 (slice bytes 255 120)
             else replicate 15 0)
       /\ trace c' = trace c ++ fixedHeaderCopies ++ gatedHeaderCopies h
       /\ offset c'
          = 227 + (if has3 then 8 else 0) + (if has4a then 8 else 0)
            + (if has4b then 4 else 0) + (if has4c then 8 else 0)
            + (if has4d then 120 else 0).
Proof.
  rewrite readPublicHeader_run. split.
  - intros H%Z.leb_le. rewrite H. eauto.
  - intros h c'.
    destruct (headerLength (minorAt bytes) <=? Z.of_nat (length bytes));
      [|discriminate].
    intros [= <- <-]. cbv zeta.
    unfold headerImage, headerLength, minorAt.
    cbn [PublicHeader.versionMinor
           PublicHeader.hasStartOfWaveformDataPacketRecord
           PublicHeader.hasStartOfFirstExtendedVariableLengthRecord
           PublicHeader.hasNumOfExtendedVariableLengthRecords
           PublicHeader.hasNumOfPointRecords
           PublicHeader.hasNumOfPointsByReturn
           PublicHeader.startOfWaveformDataPacketRecord
           PublicHeader.startOfFirstExtendedVariableLengthRecord
           PublicHeader.numOfExtendedVariableLengthRecords
           PublicHeader.numOfPointRecords
           PublicHeader.numOfPointsByReturn offset trace].
    destruct (3 <=? uintAt bytes 25 1), (4 <=? uintAt bytes 25 1);
      repeat split; reflexivity.
Qed.

Lemma header_version_gating_witness :
  exists h c',
    PublicHeader.readPublicHeader fileHeader13 (Cursor 0 []) = Done (h, c')
    /\ PublicHeader.hasStartOfWaveformDataPacketRecord h = true
    /\ PublicHeader.hasNumOfPointRecords h = false
    /\ PublicHeader.startOfWaveformDataPacketRecord h = 4660
    /\ PublicHeader.numOfPointRecords h = 0
    /\ offset c' = 235.
Proof.
  destruct (header_version_gating fileHeader13 (Cursor 0 [])) as [Hret Hall].
  destruct Hret as (h & c' & E); [apply Z.leb_le; vm_compute; reflexivity|].
  destruct (Hall h c' E)
    as (Hv & H3 & H4a & H4b & H4c & H4d & Hw & _ & _ & Hn & _ & _ & Ho).
  assert (Hv' : PublicHeader.versionMinor h = 3)
    by (rewrite Hv; vm_compute; reflexivity).
  rewrite Hv' in H3, H4a, H4b, H4c, H4d. cbn in H3, H4a, H4b, H4c, H4d.
  rewrite H3 in Hw, Ho. rewrite H4c in Hn, Ho. rewrite H4a, H4b, H4d in Ho.
  exists h, c'. split; [exact E|]. split; [exact H3|]. split; [exact H4c|].
  split; [rewrite Hw; vm_compute; reflexivity|].
  split; [exact Hn|exact Ho].
Defined.

(* ====================================================================== *)
(** * Point records of formats 0 to 4 (C7) *)
(* ====================================================================== *)

(** C7: for every format from 0 to 4 and every offset, the point decoder
    copies the common prefix (X, Y, Z, intensity, then one byte skipped
    without a copy, classification, scan angle rank, user data, point source
    id), then the GPS time exactly when the format is 1, 3 or 4, then the
    three colour channels exactly when it is 2 or 3; it returns as soon as
    those bytes lie in the buffer.  A format-3 record carries its GPS time
    and its colours, a format-0 record has neither.  In [read], record [j]
    of the result is the one laid out at
    [offsetToPointData + j * pointDataRecordLength]: consecutive records are
    pointDataRecordLength bytes apart, whatever the decoder consumed. *)
Theorem point_record_decoding bytes :
  (forall format o t,
     0 <= format <= 4 ->
     (hasGPSTime format = true <-> format = 1 \/ format = 3 \/ format = 4)
     /\ (hasRGB format = true <-> format = 2 \/ format = 3)
     /\ PointDataRecord.readPointDataRecord bytes format (Cursor o t)
        = if in_buffer bytes o (pointBytes format)
          then Done (pointImage bytes format o,
                     Cursor (o + pointBytes format)
                       (t ++ pointCopies format o))
          else Undefined)
  /\ (forall o,
        pointCopies 3 o
        = [Memcpy o 4; Memcpy (o + 4) 4; Memcpy (o + 8) 4; Memcpy (o + 12) 2;
           Memcpy (o + 15) 1; Memcpy (o + 16) 1; Memcpy (o + 17) 1;
           Memcpy (o + 18) 2; Memcpy (o + 20) 8;
           Memcpy (o + 28) 2; Memcpy (o + 30) 2; Memcpy (o + 32) 2]
        /\ PointDataRecord.GPSTime (pointImage bytes 3 o)
           = doubleAt bytes (o + 20)
        /\ PointDataRecord.red (pointImage bytes 3 o) = uintAt bytes (o + 28) 2
        /\ PointDataRecord.green (pointImage bytes 3 o)
           = uintAt bytes (o + 30) 2
        /\ PointDataRecord.blue (pointImage bytes 3 o)
           = uintAt bytes (o + 32) 2
        /\ pointCopies 0 o
           = [Memcpy o 4; Memcpy (o + 4) 4; Memcpy (o + 8) 4;
              Memcpy (o + 12) 2; Memcpy (o + 15) 1; Memcpy (o + 16) 1;
              Memcpy (o + 17) 1; Memcpy (o + 18) 2]
        /\ PointDataRecord.GPSTime (pointImage bytes 0 o) = 0%float
        /\ PointDataRecord.red (pointImage bytes 0 o) = 0
        /\ PointDataRecord.green (pointImage bytes 0 o) = 0
        /\ PointDataRecord.blue (pointImage bytes 0 o) = 0)
  /\ (forall pointDataOnly d log,
        read (Some bytes) pointDataOnly = Done (Some d, log) ->
        formatAt bytes <= 4 ->
        LasData.getNumPoints d = pointCount (LasData.header d)
        /\ forall j, (j < LasData.getNumPoints d)%nat ->
             LasData.pointDataRecords d !! j
             = Some (pointImage bytes (formatAt bytes)
                       (PublicHeader.offsetToPointData (LasData.header d)
                        + Z.of_nat j
                          * PublicHeader.pointDataRecordLength
                              (LasData.header d)))).
Proof.
  split; [|split].
  - intros format o t Hf. split; [|split].
    + unfold hasGPSTime. rewrite !orb_true_iff, !Z.eqb_eq. tauto.
    + unfold hasRGB. rewrite !orb_true_iff, !Z.eqb_eq. tauto.
    + unfold PointDataRecord.readPointDataRecord.
      assert (E1 : (0 <=? format) = true) by (apply Z.leb_le; lia).
      assert (E2 : (format <? 5) = true) by (apply Z.ltb_lt; lia).
      rewrite E1, E2. apply readPointDataRecordFotmat0to4_run.
  - intros o. repeat split.
  - intros pointDataOnly d log H Hf.
    destruct (read_points_layout _ _ _ _ H Hf) as [_ Hd].
    destruct (Hd d eq_refl) as (Hh & Hlen & Hrec).
    unfold LasData.getNumPoints. rewrite Hh, Hlen.
    split; [reflexivity|exact Hrec].
Qed.

Lemma point_record_decoding_witness :
  exists d log r0 r1,
    read (Some fileFormat0) true = Done (Some d, log)
    /\ LasData.pointDataRecords d !! 0%nat = Some r0
    /\ LasData.pointDataRecords d !! 1%nat = Some r1
    /\ r0 = pointImage fileFormat0 0 227
    /\ r1 = pointImage fileFormat0 0 (227 + 36)
    /\ PointDataRecord.x r0 = 11 /\ PointDataRecord.x r1 = 22.
Proof.
  destruct (point_record_decoding fileFormat0) as (_ & _ & Hread).
  destruct (read (Some fileFormat0) true) as [[[d|] log]| |e] eqn:E;
    [ | vm_compute in E; discriminate .. ].
  destruct (Hread true d log E) as [Hn Hrec];
    [vm_compute; discriminate|].
  assert (Hh : LasData.header d = headerImage fileFormat0)
    by (vm_compute in E; injection E as <- _; vm_compute; reflexivity).
  assert (Hn2 : LasData.getNumPoints d = 2%nat)
    by (rewrite Hn, Hh; vm_compute; reflexivity).
  pose proof (Hrec 0%nat ltac:(rewrite Hn2; lia)) as H0.
  pose proof (Hrec 1%nat ltac:(rewrite Hn2; lia)) as H1.
  rewrite Hh in H0, H1.
  exists d, log. do 2 eexists.
  split; [reflexivity|]. split; [exact H0|]. split; [exact H1|].
  repeat split; vm_compute; reflexivity.
Defined.

(* ====================================================================== *)
(** * The views (C8, C9) *)
(* ====================================================================== *)

Lemma getPointColors_lookup d i r :
  LasData.pointDataRecords d !! i = Some r ->
  LasData.getPointColors d !! (3 * i)%nat
    = Some (truncate (double_of_int (PointDataRecord.red r)
                      * LasData.scaleFactor)%float)
  /\ LasData.getPointColors d !! (3 * i + 1)%nat
    = Some (truncate (double_of_int (PointDataRecord.green r)
                      * LasData.scaleFactor)%float)
  /\ LasData.getPointColors d !! (3 * i + 2)%nat
    = Some (truncate (double_of_int (PointDataRecord.blue r)
                      * LasData.scaleFactor)%float).
Proof.
  intros Hr.
  assert (Hi : (i < LasData.getNumPoints d)%nat)
    by (apply lookup_lt_Some in Hr; exact Hr).
  assert (Hn : nth i (LasData.pointDataRecords d) PointDataRecord.default = r)
    by (rewrite nth_lookup, Hr; reflexivity).
  unfold LasData.getPointColors.
  cbv zeta.
  lazymatch goal with
  | |- context [foldl ?b ?acc (seq 0 ?n)] =>
      epose proof (fill_lookup _ _ _ b (fun _ _ => eq_refl) n acc i) as H
  end.
  rewrite length_replicate in H. specialize (H ltac:(lia) Hi).
  cbv beta in H. rewrite Hn in H. exact H.
Qed.

Lemma getPointCoords_length rescale d :
  length (LasData.getPointCoords rescale d)
  = (3 * LasData.getNumPoints d)%nat.
Proof.
  unfold LasData.getPointCoords. cbv zeta.
  lazymatch goal with
  | |- context [foldl ?b ?acc (seq 0 ?n)] =>
      rewrite (fill_length _ _ _ b (fun _ _ => eq_refl) n acc)
  end.
  apply length_replicate.
Qed.

Lemma getPointColors_length d :
  length (LasData.getPointColors d) = (3 * LasData.getNumPoints d)%nat.
Proof.
  unfold LasData.getPointColors. cbv zeta.
  lazymatch goal with
  | |- context [foldl ?b ?acc (seq 0 ?n)] =>
      rewrite (fill_length _ _ _ b (fun _ _ => eq_refl) n acc)
  end.
  apply length_replicate.
Qed.

(** Every record [read] returns has 16-bit colour channels. *)
Lemma read_ushort_channels file pointDataOnly d log :
  read file pointDataOnly = Done (Some d, log) ->
  Forall ushort_channels (LasData.pointDataRecords d).
Proof.
  destruct file as [bytes|]; [|intros [=]].
  intros H. apply Forall_lookup. intros j r Hr.
  destruct (Z.le_gt_cases (formatAt bytes) 4) as [Hf|Hf].
  - destruct (read_points_layout _ _ _ _ H Hf) as [_ Hd].
    destruct (Hd d eq_refl) as (_ & Hlen & Hrec).
    apply lookup_lt_Some in Hr as Hj. rewrite Hlen in Hj.
    rewrite (Hrec j Hj) in Hr. injection Hr as <-.
    unfold ushort_channels, pointImage.
    cbn [PointDataRecord.red PointDataRecord.green PointDataRecord.blue].
    destruct (hasRGB (formatAt bytes)); [|lia].
    repeat split;
      match goal with
      | |- context [uintAt ?b ?o 2] =>
          pose proof (uintAt_range b o 2 ltac:(lia));
          change (256 ^ 2) with 65536 in *; lia
      end.
  - destruct (read_points_placeholders _ _ _ _ H ltac:(lia)) as (_ & Hp & _).
    rewrite Hp in Hr. apply lookup_replicate in Hr as [-> _].
    unfold ushort_channels. cbn. lia.
Qed.

(** ** The fields of a decoded record lie in the ranges of their types *)

Lemma le_signed_range w bs :
  0 < w -> Z.of_nat (length bs) * 8 <= w ->
  - 2 ^ (w - 1) <= le_signed w bs < 2 ^ (w - 1).
Proof.
  intros Hw Hl. unfold le_signed.
  pose proof (le_unsigned_range bs) as [H0 H1].
  assert (Hp : 256 ^ Z.of_nat (length bs) <= 2 ^ w).
  { change 256 with (2 ^ 8). rewrite <- Z.pow_mul_r by lia.
    apply Z.pow_le_mono_r; lia. }
  assert (Hw2 : 2 ^ w = 2 * 2 ^ (w - 1)).
  { replace w with (Z.succ (w - 1)) at 1 by lia.
    apply Z.pow_succ_r. lia. }
  destruct (Z.ltb_spec (le_unsigned bs) (2 ^ (w - 1))); lia.
Qed.

Lemma intAt_range bytes w off n :
  0 < w -> 0 <= n -> n * 8 <= w ->
  - 2 ^ (w - 1) <= intAt bytes w off n < 2 ^ (w - 1).
Proof.
  intros Hw Hn Hl. apply le_signed_range; [exact Hw|].
  pose proof (slice_length_le bytes off n). lia.
Qed.

Lemma pointImage_in_range bytes format o :
  point_in_range (pointImage bytes format o).
Proof.
  unfold point_in_range, pointImage.
  cbn [PointDataRecord.x PointDataRecord.y PointDataRecord.z
         PointDataRecord.intensity PointDataRecord.classification
         PointDataRecord.scanAngleRank PointDataRecord.userData
         PointDataRecord.pointSourceID PointDataRecord.red
         PointDataRecord.green PointDataRecord.blue].
  change (2 ^ 16) with (256 ^ 2). change (2 ^ 8) with (256 ^ 1).
  change (2 ^ 31) with (2 ^ (32 - 1)). change (2 ^ 7) with (2 ^ (8 - 1)).
  repeat split;
    try (apply intAt_range; lia);
    try (apply uintAt_range; lia);
    destruct (hasRGB format); try (apply uintAt_range; lia);
    cbn; lia.
Qed.

Lemma default_in_range : point_in_range PointDataRecord.default.
Proof. unfold point_in_range. cbn. lia. Qed.

(** ** The conversion of a coordinate to [double] is exact *)

Lemma digits2_pos_iter (p k : positive) :
  digits2_pos (Pos.iter xO p k) = (digits2_pos p + k)%positive.
Proof.
  induction k as [|k IH] using Pos.peano_ind.
  - cbn. lia.
  - rewrite Pos.iter_succ. cbn [digits2_pos]. rewrite IH. lia.
Qed.

Lemma Zpos_iter (p k : positive) :
  Z.pos (Pos.iter xO p k) = Z.pos p * 2 ^ Z.pos k.
Proof.
  induction k as [|k IH] using Pos.peano_ind.
  - cbn. lia.
  - rewrite Pos.iter_succ, Pos2Z.inj_xO, IH, Pos2Z.inj_succ, Z.pow_succ_r;
      lia.
Qed.

Lemma digits2_pos_bound (p : positive) (n : Z) :
  0 <= n -> Z.pos p < 2 ^ n -> Z.pos (digits2_pos p) <= n.
Proof.
  revert n. induction p as [p IH|p IH|]; intros n Hn Hp; cbn [digits2_pos];
    assert (0 < n)
      by (destruct (Z.eq_dec n 0) as [->|]; [cbn in Hp|]; lia);
    [| |lia];
    replace n with (Z.succ (n - 1)) in Hp by lia;
    rewrite Z.pow_succ_r in Hp by lia;
    specialize (IH (n - 1) ltac:(lia) ltac:(lia)); lia.
Qed.

(** A 53-bit mantissa needs no shift and no rounding. *)
Lemma shr_fexp_full m e :
  Z.pos (digits2_pos m) = 53 -> -1074 <= e ->
  shr_fexp prec emax (Z.pos m) e loc_Exact
  = ({| shr_m := Z.pos m; shr_r := false; shr_s := false |}, e).
Proof.
  intros Hd He. unfold shr_fexp, fexp, emin, Zdigits2, shr_record_of_loc.
  rewrite Hd.
  replace (Z.max (53 + e - prec) (3 - emax - prec) - e) with 0
    by (unfold prec, emax; lia).
  reflexivity.
Qed.

(** Normalising a positive integer of fewer than 53 bits shifts it left
    to 53 bits and lowers the exponent by as much. *)
Lemma binary_normalize_small (p : positive) :
  Z.pos (digits2_pos p) < 53 ->
  binary_normalize prec emax (Z.pos p) 0 false
  = S754_finite false
      (Pos.iter xO p (Z.to_pos (53 - Z.pos (digits2_pos p))))
      (Z.pos (digits2_pos p) - 53).
Proof.
  intros Hd. unfold binary_normalize, binary_round, shl_align.
  set (d := Z.pos (digits2_pos p)) in *.
  assert (Hf : fexp prec emax (d + 0) = d - 53)
    by (unfold fexp, emin, prec, emax; lia).
  rewrite Hf.
  destruct (d - 53 - 0) as [|q|q] eqn:Hq; try lia.
  assert (Hk : Z.to_pos (53 - d) = q) by lia. rewrite Hk.
  unfold binary_round_aux.
  assert (Hdig : Z.pos (digits2_pos (Pos.iter xO p q)) = 53)
    by (rewrite digits2_pos_iter; subst d; lia).
  rewrite (shr_fexp_full _ _ Hdig) by lia.
  cbn [shr_m loc_of_shr_record round_nearest_even].
  rewrite (shr_fexp_full _ _ Hdig) by lia.
  cbn [shr_m].
  replace (d - 53 <=? emax - prec) with true
    by (symmetry; apply Z.leb_le; unfold emax, prec; lia).
  reflexivity.
Qed.

Lemma of_uint63_exact (v : Z) :
  0 < v < 2 ^ 52 ->
  exists m e,
    Prim2SF (of_uint63 (Uint63.of_Z v)) = S754_finite false m e
    /\ e <= 0 /\ Z.pos m = v * 2 ^ (- e).
Proof.
  intros Hv. rewrite of_uint63_spec, Uint63.of_Z_spec.
  rewrite Z.mod_small by (change wB with (2 ^ 63); lia).
  destruct v as [|p|p]; try lia.
  pose proof (digits2_pos_bound p 52 ltac:(lia) ltac:(lia)) as Hd.
  rewrite binary_normalize_small by lia.
  eexists. eexists. split; [reflexivity|]. split; [lia|].
  rewrite Zpos_iter. f_equal. f_equal. lia.
Qed.

(** [(double)v] is exactly [v] for every integer below 2^52 in magnitude,
    so for every 32-bit coordinate. *)
Lemma double_of_int_exact (v : Z) :
  - 2 ^ 52 < v < 2 ^ 52 -> is_integer (double_of_int v) v.
Proof.
  intros Hv. unfold is_integer, double_of_int.
  destruct (Z.ltb_spec v 0) as [Hneg|Hpos].
  - rewrite opp_spec.
    destruct (of_uint63_exact (- v) ltac:(lia)) as (m & e & -> & He & Hm).
    cbn [SFopp negb]. split; [exact He|]. lia.
  - destruct (Z.eq_dec v 0) as [->|Hne].
    + rewrite of_uint63_spec. cbn. auto.
    + destruct (of_uint63_exact v ltac:(lia)) as (m & e & -> & He & Hm).
      split; [exact He|]. exact Hm.
Qed.

(** Every record [read] returns has its fields in the ranges of their
    types. *)
Lemma read_points_in_range file pointDataOnly d log :
  read file pointDataOnly = Done (Some d, log) ->
  Forall point_in_range (LasData.pointDataRecords d).
Proof.
  destruct file as [bytes|]; [|intros [=]].
  intros H. apply Forall_lookup. intros j r Hr.
  destruct (Z.le_gt_cases (formatAt bytes) 4) as [Hf|Hf].
  - destruct (read_points_layout _ _ _ _ H Hf) as [_ Hd].
    destruct (Hd d eq_refl) as (_ & Hlen & Hrec).
    apply lookup_lt_Some in Hr as Hj. rewrite Hlen in Hj.
    rewrite (Hrec j Hj) in Hr. injection Hr as <-.
    apply pointImage_in_range.
  - destruct (read_points_placeholders _ _ _ _ H ltac:(lia)) as (_ & Hp & _).
    rewrite Hp in Hr. apply lookup_replicate in Hr as [-> _].
    apply default_in_range.
Qed.

(** C8: for every point cloud [read] returns and every point index [i],
    the three slots [3 i], [3 i + 1], [3 i + 2] of [getPointCoords(true)]
    hold [x * xScaleFactor + xOffset], [y * yScaleFactor + yOffset] and
    [z * zScaleFactor + zOffset], where [x], [y], [z] are the coordinates
    converted to [double], the product is the binary64 product and the sum
    the binary64 sum of that product and the offset; those of
    [getPointCoords(false)] hold the converted coordinates themselves.  The
    conversion is exact: each of [x], [y], [z] is the binary64 value whose
    sign, mantissa and exponent give the integer coordinate itself.  Both
    sequences have three slots per point.  With raw X = 1000, scale 0.01
    and offset 100.0 the result is exactly 110.0. *)
Theorem getPointCoords_values file pointDataOnly d log i r :
  read file pointDataOnly = Done (Some d, log) ->
  LasData.pointDataRecords d !! i = Some r ->
  let h := LasData.header d in
  let x := double_of_int (PointDataRecord.x r) in
  let y := double_of_int (PointDataRecord.y r) in
  let z := double_of_int (PointDataRecord.z r) in
  (LasData.getPointCoords true d !! (3 * i)%nat
     = Some (x * PublicHeader.xScaleFactor h + PublicHeader.xOffset h)%float
   /\ LasData.getPointCoords true d !! (3 * i + 1)%nat
     = Some (y * PublicHeader.yScaleFactor h + PublicHeader.yOffset h)%float
   /\ LasData.getPointCoords true d !! (3 * i + 2)%nat
     = Some (z * PublicHeader.zScaleFactor h + PublicHeader.zOffset h)%float)
  /\ (LasData.getPointCoords false d !! (3 * i)%nat = Some x
      /\ LasData.getPointCoords false d !! (3 * i + 1)%nat = Some y
      /\ LasData.getPointCoords false d !! (3 * i + 2)%nat = Some z)
  /\ (is_integer x (PointDataRecord.x r)
      /\ is_integer y (PointDataRecord.y r)
      /\ is_integer z (PointDataRecord.z r))
  /\ (forall v s o : float,
        Prim2SF (v * s + o)%float
        = SF64add (SF64mul (Prim2SF v) (Prim2SF s)) (Prim2SF o))
  /\ length (LasData.getPointCoords true d)
     = (3 * LasData.getNumPoints d)%nat
  /\ length (LasData.getPointCoords false d)
     = (3 * LasData.getNumPoints d)%nat
  /\ (double_of_int 1000 * double_of_bits bits_0_01
      + double_of_bits bits_100)%float = 110%float
  /\ double_of_bits bits_0_01 = 0x1.47ae147ae147bp-7%float
  /\ double_of_bits bits_100 = 100%float.
Proof.
  intros H Hr h x y z.
  split; [exact (getPointCoords_lookup true d i r Hr)|].
  split; [exact (getPointCoords_lookup false d i r Hr)|].
  split.
  { pose proof (read_points_in_range _ _ _ _ H) as Hall.
    rewrite Forall_lookup in Hall.
    destruct (Hall _ _ Hr) as (Hx & Hy & Hz & _).
    repeat split; apply double_of_int_exact; lia. }
  split; [intros v s o; now rewrite add_spec, mul_spec|].
  split; [apply getPointCoords_length|].
  split; [apply getPointCoords_length|].
  repeat split; vm_compute; reflexivity.
Qed.

Lemma getPointCoords_values_witness :
  exists d log,
    read (Some fileFormat3) true = Done (Some d, log)
    /\ LasData.getPointCoords true d !! 0%nat = Some 110%float
    /\ LasData.getPointCoords false d !! 0%nat = Some 1000%float
    /\ LasData.getPointCoords false d !! 1%nat = Some (-5)%float
    /\ is_integer (-5)%float (-5).
Proof.
  destruct (read (Some fileFormat3) true) as [[[d|] log]| |e] eqn:E;
    [ | vm_compute in E; discriminate .. ].
  assert (Hr : LasData.pointDataRecords d !! 0%nat
               = Some (pointImage fileFormat3 3 227))
    by (vm_compute in E; injection E as <- _; vm_compute; reflexivity).
  assert (Hh : LasData.header d = headerImage fileFormat3)
    by (vm_compute in E; injection E as <- _; vm_compute; reflexivity).
  destruct (getPointCoords_values (Some fileFormat3) true d log 0%nat _ E Hr)
    as ((Hx & _) & (Hraw & Hrawy & _) & (_ & Hy & _) & _).
  exists d, log. split; [reflexivity|].
  change (3 * 0 + 1)%nat with 1%nat in *. change (3 * 0)%nat with 0%nat in *.
  assert (Ey : PointDataRecord.y (pointImage fileFormat3 3 227) = -5)
    by (vm_compute; reflexivity).
  rewrite Ey in Hy, Hrawy.
  assert (Ed : double_of_int (-5) = (-5)%float) by (vm_compute; reflexivity).
  rewrite Ed in Hy, Hrawy.
  rewrite Hx, Hraw, Hh.
  split; [vm_compute; reflexivity|].
  split; [vm_compute; reflexivity|].
  split; [exact Hrawy|exact Hy].
Defined.

(** ** Colours *)

(** C9: for every decoded point cloud, [getPointColors()] is a flat
    sequence of [3 * pointCount] values, and the three slots of point [i]
    hold, for its red, green and blue channel [c], the conversion to
    [unsigned char] of the binary64 product of [c] and 255.0 / 65535.0,
    which is a byte and is exactly 255 c / 65535 truncated toward zero.
    Channel 65535 gives 255, channel 0 gives 0, and channel 200 gives 0
    (truncation, where rounding would give 1). *)
Theorem getPointColors_values file pointDataOnly d log :
  read file pointDataOnly = Done (Some d, log) ->
  let byte_of c := truncate (double_of_int c * LasData.scaleFactor)%float in
  length (LasData.getPointColors d) = (3 * LasData.getNumPoints d)%nat
  /\ (forall i r,
        LasData.pointDataRecords d !! i = Some r ->
        let red := PointDataRecord.red r in
        let green := PointDataRecord.green r in
        let blue := PointDataRecord.blue r in
        LasData.getPointColors d !! (3 * i)%nat = Some (byte_of red)
        /\ LasData.getPointColors d !! (3 * i + 1)%nat = Some (byte_of green)
        /\ LasData.getPointColors d !! (3 * i + 2)%nat = Some (byte_of blue)
        /\ byte_of red = Z.quot (red * 255) 65535
        /\ byte_of green = Z.quot (green * 255) 65535
        /\ byte_of blue = Z.quot (blue * 255) 65535
        /\ 0 <= byte_of red <= 255 /\ 0 <= byte_of green <= 255
        /\ 0 <= byte_of blue <= 255)
  /\ byte_of 65535 = 255 /\ byte_of 0 = 0 /\ byte_of 200 = 0.
Proof.
  intros H byte_of. subst byte_of.
  split; [apply getPointColors_length|]. split.
  - intros i r Hr red green blue. subst red green blue.
    pose proof (read_ushort_channels _ _ _ _ H) as Hall.
    rewrite Forall_lookup in Hall.
    destruct (Hall i r Hr) as (Hred & Hgreen & Hblue).
    destruct (getPointColors_lookup d i r Hr) as (H0 & H1 & H2).
    rewrite !channel_downscaled by assumption.
    rewrite !channel_downscaled in H0, H1, H2 by assumption.
    unfold downscaled in *.
    repeat split; try assumption;
      try (apply Z.quot_pos; lia);
      try (apply Z.quot_le_upper_bound; lia).
  - repeat split; vm_compute; reflexivity.
Qed.

Lemma getPointColors_values_witness :
  exists d log,
    read (Some fileFormat3) true = Done (Some d, log)
    /\ length (LasData.getPointColors d) = 6%nat
    /\ LasData.getPointColors d !! 0%nat = Some 255
    /\ LasData.getPointColors d !! 2%nat = Some 127.
Proof.
  destruct (read (Some fileFormat3) true) as [[[d|] log]| |e] eqn:E;
    [ | vm_compute in E; discriminate .. ].
  destruct (getPointColors_values (Some fileFormat3) true d log E)
    as (Hlen & Hlook & _).
  assert (Hd : LasData.pointDataRecords d !! 0%nat
               = Some (PointDataRecord.Build 1000 (-5) 7 9 0 0 0 0 100%float
                         65535 0 32767))
    by (vm_compute in E; injection E as <- _; reflexivity).
  destruct (Hlook 0%nat _ Hd) as (Hred & _ & Hblue & _).
  change (3 * 0)%nat with 0%nat in Hred.
  change (3 * 0 + 2)%nat with 2%nat in Hblue.
  cbn [PointDataRecord.red PointDataRecord.blue] in Hred, Hblue.
  exists d, log. split; [reflexivity|]. split; [|split].
  - rewrite Hlen. apply lookup_lt_Some in Hd.
    vm_compute in E. injection E as <- _. reflexivity.
  - rewrite Hred. vm_compute. reflexivity.
  - rewrite Hblue. vm_compute. reflexivity.
Defined.

(* ====================================================================== *)
(** * The payload of a variable length record (C10) *)
(* ====================================================================== *)

(** C10: [recordLengthAfterHeader] is decoded from two bytes, so it is at
    most 65535 and the branch that rejects longer payloads is never taken:
    the decoder returns as soon as the 54-byte prefix and the payload lie in
    the buffer, and for every record it returns the payload is exactly the
    [recordLengthAfterHeader] bytes that follow the prefix, the offset ends
    after them, and nothing is logged. *)
Theorem vlr_payload_is_never_rejected bytes c :
  (in_buffer bytes (offset c) (54 + vlrPayloadLength bytes (offset c)) = true
   -> exists vlr c',
        VariableLengthRecord.readVariableLengthRecord bytes c
        = Done (vlr, c'))
  /\ forall vlr c',
       VariableLengthRecord.readVariableLengthRecord bytes c
       = Done (vlr, c') ->
       let n := VariableLengthRecord.recordLengthAfterHeader vlr in
       n = uintAt bytes (offset c + 20) 2
       /\ 0 <= n <= 65535
       /\ VariableLengthRecord.record vlr = slice bytes (offset c + 54) n
       /\ Z.of_nat (length (VariableLengthRecord.record vlr)) = n
       /\ offset c' = offset c + 54 + n
       /\ trace c' = trace c ++ vlrCopies bytes (offset c)
       /\ forall d, ~ In (LogError d) (vlrCopies bytes (offset c)).
Proof.
  destruct c as [o t]. cbn [offset trace].
  rewrite readVariableLengthRecord_run. split.
  - intros ->. eauto.
  - intros vlr c'.
    destruct (in_buffer bytes o (54 + vlrPayloadLength bytes o)) eqn:Hin;
      [|discriminate].
    intros [= <- <-]. cbv zeta.
    cbn [VariableLengthRecord.recordLengthAfterHeader
           VariableLengthRecord.record vlrImage offset trace].
    pose proof (uintAt_range bytes (o + 20) 2 ltac:(lia)) as Hrl.
    change (256 ^ 2) with 65536 in Hrl.
    apply in_buffer_true in Hin. unfold vlrPayloadLength in *.
    repeat split; try lia.
    + apply slice_length. apply in_buffer_true. lia.
    + intros d. cbn. intuition discriminate.
Qed.

Lemma vlr_payload_is_never_rejected_witness :
  exists vlr c',
    VariableLengthRecord.readVariableLengthRecord fileTwoVLRs (Cursor 227 [])
    = Done (vlr, c')
    /\ VariableLengthRecord.recordLengthAfterHeader vlr = 3
    /\ VariableLengthRecord.record vlr = zeros 3
    /\ offset c' = 284.
Proof.
  destruct (vlr_payload_is_never_rejected fileTwoVLRs (Cursor 227 []))
    as [Hret Hall].
  destruct Hret as (vlr & c' & E); [vm_compute; reflexivity|].
  destruct (Hall vlr c' E) as (Hn & _ & Hrec & _ & Ho & _).
  assert (Hn' : VariableLengthRecord.recordLengthAfterHeader vlr = 3)
    by (rewrite Hn; vm_compute; reflexivity).
  rewrite Hn' in Hrec, Ho.
  exists vlr, c'. split; [exact E|]. split; [exact Hn'|].
  split; [rewrite Hrec; vm_compute; reflexivity|exact Ho].
Defined.

(* ====================================================================== *)
(** * Further properties of the reader *)
(* ====================================================================== *)

(** ** The point decoder at every format *)

Lemma readPointDataRecord_run bytes format o t :
  PointDataRecord.readPointDataRecord bytes format (Cursor o t) =
  if (0 <=? format) && (format <? 5) then
    if in_buffer bytes o (pointBytes format)
    then Done (pointImage bytes format o,
               Cursor (o + pointBytes format) (t ++ pointCopies format o))
    else Undefined
  else
    Done (PointDataRecord.default,
          Cursor o (t ++ [LogError (UnsupportedPointDataRecordFormat format)])).
Proof.
  unfold PointDataRecord.readPointDataRecord.
  destruct ((0 <=? format) && (format <? 5)).
  - apply readPointDataRecordFotmat0to4_run.
  - destruct ((5 <=? format) && (format <? 16)); reflexivity.
Qed.

(** X: whatever the format byte and the buffer, a record the point decoder
    returns has every field in the range of its C++ type (32-bit signed
    coordinates, 16-bit intensity, source id and colour channels, 8-bit
    classification and user data, signed 8-bit scan angle rank). *)
Theorem decoded_point_fits_its_types bytes format c r c' :
  PointDataRecord.readPointDataRecord bytes format c = Done (r, c') ->
  point_in_range r.
Proof.
  destruct c as [o t]. rewrite readPointDataRecord_run.
  destruct ((0 <=? format) && (format <? 5)).
  - destruct (in_buffer bytes o (pointBytes format)); [|discriminate].
    intros [= <- _]. apply pointImage_in_range.
  - intros [= <- _]. apply default_in_range.
Qed.

Lemma decoded_point_fits_its_types_witness :
  point_in_range (pointImage fileFormat3 3 227)
  /\ PointDataRecord.y (pointImage fileFormat3 3 227) = -5.
Proof.
  split; [|vm_compute; reflexivity].
  apply (decoded_point_fits_its_types fileFormat3 3 (Cursor 227 [])
           _ (Cursor 261 (pointCopies 3 227))).
  vm_compute. reflexivity.
Defined.

(** ** The header layout *)

(** X: the header decoder has a result exactly when the buffer holds the
    header of the minor version found at byte 25 (227 bytes, 235 from
    version 3, 375 from version 4), whatever offset the cursor had before;
    the fields that drive the rest of [read] come from fixed positions:
    header size at 94, offset to point data at 96, VLR count at 100, format
    at 104, record length at 105, legacy point count at 107, the three
    scale factors at 131, the three offsets at 155, and the bounds
    interleaved in the file as max X, min X, max Y, min Y, max Z, min Z
    from 179. *)
Theorem public_header_layout bytes c :
  (PublicHeader.readPublicHeader bytes c = Undefined <->
   Z.of_nat (length bytes) < headerLength (uintAt bytes 25 1))
  /\ forall h c',
       PublicHeader.readPublicHeader bytes c = Done (h, c') ->
       PublicHeader.fileSignature h = slice bytes 0 4
       /\ PublicHeader.versionMajor h = uintAt bytes 24 1
       /\ PublicHeader.versionMinor h = uintAt bytes 25 1
       /\ PublicHeader.headerSize h = uintAt bytes 94 2
       /\ PublicHeader.offsetToPointData h = uintAt bytes 96 4
       /\ PublicHeader.numOfVariableLengthRecords h = uintAt bytes 100 4
       /\ PublicHeader.pointDataRecordFormat h = uintAt bytes 104 1
       /\ PublicHeader.pointDataRecordLength h = uintAt bytes 105 2
       /\ PublicHeader.legacyNumOfPointRecords h = uintAt bytes 107 4
       /\ PublicHeader.xScaleFactor h = doubleAt bytes 131
       /\ PublicHeader.yScaleFactor h = doubleAt bytes 139
       /\ PublicHeader.zScaleFactor h = doubleAt bytes 147
       /\ PublicHeader.xOffset h = doubleAt bytes 155
       /\ PublicHeader.yOffset h = doubleAt bytes 163
       /\ PublicHeader.zOffset h = doubleAt bytes 171
       /\ PublicHeader.maxX h = doubleAt bytes 179
       /\ PublicHeader.minX h = doubleAt bytes 187
       /\ PublicHeader.maxY h = doubleAt bytes 195
       /\ PublicHeader.minY h = doubleAt bytes 203
       /\ PublicHeader.maxZ h = doubleAt bytes 211
       /\ PublicHeader.minZ h = doubleAt bytes 219
       /\ offset c' = headerLength (PublicHeader.versionMinor h).
Proof.
  rewrite readPublicHeader_run. change (minorAt bytes) with (uintAt bytes 25 1).
  destruct (Z.leb_spec (headerLength (uintAt bytes 25 1))
              (Z.of_nat (length bytes))) as [Hle|Hgt].
  - split; [split; [discriminate|lia]|].
    intros h c' [= <- <-]. repeat split.
  - split; [split; [intros _; exact Hgt|reflexivity]|].
    intros h c' [=].
Qed.

Lemma public_header_layout_witness :
  PublicHeader.readPublicHeader (take 226 fileFormat3) (Cursor 9 []) = Undefined
  /\ exists h c',
       PublicHeader.readPublicHeader fileFormat3 (Cursor 9 []) = Done (h, c')
       /\ PublicHeader.pointDataRecordFormat h = 3
       /\ PublicHeader.pointDataRecordLength h = 34
       /\ PublicHeader.xScaleFactor h = double_of_bits bits_0_01
       /\ offset c' = 227.
Proof.
  destruct (public_header_layout (take 226 fileFormat3) (Cursor 9 []))
    as [[_ Hshort] _].
  destruct (public_header_layout fileFormat3 (Cursor 9 [])) as [_ Hall].
  split; [apply Hshort; vm_compute; reflexivity|].
  destruct (PublicHeader.readPublicHeader fileFormat3 (Cursor 9 []))
    as [[h c']| |e] eqn:E; [|vm_compute in E; discriminate..].
  destruct (Hall h c' eq_refl)
    as (_ & _ & Hv & _ & _ & _ & Hf & Hl & _ & Hs & H).
  exists h, c'. split; [reflexivity|].
  split; [rewrite Hf; vm_compute; reflexivity|].
  split; [rewrite Hl; vm_compute; reflexivity|].
  split; [rewrite Hs; vm_compute; reflexivity|].
  decompose [and] H. rewrite Hv in *.
  match goal with Ho : offset c' = _ |- _ => rewrite Ho end.
  vm_compute. reflexivity.
Defined.

(** ** Rejected formats *)

(** X: a format byte above 10 is rejected as soon as the header is decoded:
    in either mode [read] returns null, logs the one diagnostic "Invalid
    point data record format", and has copied the header fields and nothing
    else; only the header needs to lie in the buffer. *)
Theorem read_rejects_format_above_10 bytes pointDataOnly :
  headerLength (minorAt bytes) <= Z.of_nat (length bytes) ->
  10 < formatAt bytes ->
  read (Some bytes) pointDataOnly
  = Done (None,
          fixedHeaderCopies ++ gatedHeaderCopies (headerImage bytes)
          ++ [LogError (InvalidPointDataRecordFormat (formatAt bytes))]).
Proof.
  intros Hlen%Z.leb_le Hf%Z.ltb_lt. rewrite read_run, Hlen, Hf. reflexivity.
Qed.

Lemma read_rejects_format_above_10_witness :
  exists log,
    read (Some fileFormat11) false = Done (None, log)
    /\ last log = Some (LogError (InvalidPointDataRecordFormat 11))
    /\ length log = 38%nat.
Proof.
  eexists. split.
  - apply (read_rejects_format_above_10 fileFormat11 false).
    + apply Z.leb_le. vm_compute. reflexivity.
    + vm_compute. reflexivity.
  - vm_compute. split; reflexivity.
Defined.


(** ** The sequence of variable length records *)

(** A run of the VLR loop that leaves [isOK] up decoded every record of the
    count, one after the other. *)
Lemma readVariableLengthRecords_layout bytes h n :
  forall i vlrs o t vlrs' c',
    readVariableLengthRecords bytes h n i vlrs (Cursor o t)
      = Done ((vlrs', true), c') ->
    length vlrs' = length vlrs
    /\ (forall k, (k < n)%nat -> (i + k < length vlrs)%nat ->
          vlrs' !! (i + k)%nat
          = Some (vlrImage bytes (vlrOffsetAt bytes o k)))
    /\ (forall j, (j < i)%nat -> vlrs' !! j = vlrs !! j)
    /\ (forall k, (k < n)%nat ->
          (vlrOffsetAt bytes o k) mod 2 ^ 32
            < PublicHeader.offsetToPointData h
          /\ in_buffer bytes (vlrOffsetAt bytes o k)
               (54 + vlrPayloadLength bytes (vlrOffsetAt bytes o k)) = true)
    /\ offset c' = vlrOffsetAt bytes o n.
Proof.
  induction n as [|n IH]; intros i vlrs o t vlrs' c' H.
  - injection H as <- <-. cbn. repeat split; intros; try lia; reflexivity.
  - cbn [readVariableLengthRecords] in H.
    unfold bind at 1 in H. cbn [getOffset offset] in H.
    destruct (Z.leb_spec (PublicHeader.offsetToPointData h) (o mod 2 ^ 32))
      as [|Hlt]; [discriminate|].
    unfold bind at 1 in H. rewrite readVariableLengthRecord_run in H.
    destruct (in_buffer bytes o (54 + vlrPayloadLength bytes o)) eqn:Hin;
      [|discriminate].
    apply IH in H. destruct H as (Hlen & Hnew & Hold & Hchk & Hoff).
    rewrite length_insert in Hlen, Hnew.
    split; [exact Hlen|]. split; [|split; [|split]].
    + intros [|k] Hk Hik; cbn [vlrOffsetAt].
      * rewrite Nat.add_0_r in *. rewrite Hold by lia.
        now apply list_lookup_insert_eq.
      * replace (i + S k)%nat with (S i + k)%nat by lia.
        apply Hnew; lia.
    + intros j Hj. rewrite Hold by lia. apply list_lookup_insert_ne. lia.
    + intros [|k] Hk; cbn [vlrOffsetAt]; [auto|]. apply Hchk. lia.
    + exact Hoff.
Qed.

(** X: when [read] with [pointDataOnly = false] returns a cloud, it holds
    exactly numOfVariableLengthRecords records; record [k] is the one laid
    out at the running offset (headerSize, then 54 bytes plus the payload
    further for each record before it), it lies in the buffer, and its
    start, as a 32-bit value, is below offsetToPointData.  Only the start
    of a record is compared with offsetToPointData. *)
Theorem read_vlr_sequence bytes d log :
  read (Some bytes) false = Done (Some d, log) ->
  let h := LasData.header d in
  let start k := vlrOffsetAt bytes (PublicHeader.headerSize h) k in
  length (LasData.variableLengthRecords d)
  = Z.to_nat (PublicHeader.numOfVariableLengthRecords h)
  /\ forall k,
       (k < length (LasData.variableLengthRecords d))%nat ->
       LasData.variableLengthRecords d !! k
       = Some (vlrImage bytes (start k))
       /\ in_buffer bytes (start k)
            (54 + vlrPayloadLength bytes (start k)) = true
       /\ (start k) mod 2 ^ 32 < PublicHeader.offsetToPointData h.
Proof.
  intros H h start. subst h start.
  apply read_inv in H as [_ [(_ & Hr & _)|(_ & H)]]; [discriminate|].
  destruct H as (vlrs & isOK & c1 & points & c2 & evlrs & c3
                 & H1 & _ & _ & Hr & _).
  destruct isOK; [|discriminate]. injection Hr as ->.
  cbn [LasData.header LasData.variableLengthRecords].
  unfold variableLengthRecordsBlock in H1. cbn [negb] in H1.
  cbv zeta in H1. rewrite bind_seek in H1.
  apply readVariableLengthRecords_layout in H1
    as (Hlen & Hnew & _ & Hchk & _).
  rewrite length_replicate in Hlen, Hnew.
  split; [exact Hlen|].
  intros k Hk. rewrite Hlen in Hk.
  destruct (Hchk k Hk) as [Hlt Hin].
  split; [|split; assumption].
  apply (Hnew k Hk). lia.
Qed.

Lemma read_vlr_sequence_witness :
  exists d log,
    read (Some fileTwoVLRs) false = Done (Some d, log)
    /\ length (LasData.variableLengthRecords d) = 2%nat
    /\ LasData.variableLengthRecords d !! 0%nat
       = Some (vlrImage fileTwoVLRs 227)
    /\ LasData.variableLengthRecords d !! 1%nat
       = Some (vlrImage fileTwoVLRs 284)
    /\ VariableLengthRecord.recordID (vlrImage fileTwoVLRs 284) = 2.
Proof.
  destruct (read (Some fileTwoVLRs) false) as [[[d|] log]| |e] eqn:E;
    [ | vm_compute in E; discriminate .. ].
  destruct (read_vlr_sequence fileTwoVLRs d log E) as [Hlen Hall].
  assert (Hh : LasData.header d = headerImage fileTwoVLRs)
    by (vm_compute in E; injection E as <- _; vm_compute; reflexivity).
  rewrite Hh in Hlen, Hall.
  assert (Hlen' : length (LasData.variableLengthRecords d) = 2%nat)
    by (rewrite Hlen; vm_compute; reflexivity).
  destruct (Hall 0%nat ltac:(rewrite Hlen'; lia)) as (H0 & _).
  destruct (Hall 1%nat ltac:(rewrite Hlen'; lia)) as (H1 & _).
  exists d, log.
  split; [reflexivity|]. split; [exact Hlen'|].
  split; [rewrite H0; vm_compute; reflexivity|].
  split; [rewrite H1; vm_compute; reflexivity|].
  vm_compute. reflexivity.
Defined.

(** ** Extended variable length records *)

Lemma readExtendedVariableLengthRecord_run bytes o t :
  ExtendedVariableLengthRecord.readExtendedVariableLengthRecord bytes
    (Cursor o t) =
  if in_buffer bytes o 68 then
    if in_buffer bytes (o + 68) (evlrPayloadLength bytes o)
    then Done (evlrImage bytes o,
               Cursor (o + 68 + evlrPayloadLength bytes o)
                 (t ++ evlrCopies bytes o))
    else Undefined
  else Undefined.
Proof.
  unfold ExtendedVariableLengthRecord.readExtendedVariableLengthRecord,
    evlrImage, evlrCopies, evlrPayloadLength, evlrLength.
  do 5 record_field. cbv zeta.
  assert (E : in_buffer bytes o 68 = true)
    by (apply in_buffer_true; buffer_facts; lia).
  rewrite E.
  destruct (in_buffer bytes (o + 68)
              (to_streamsize (le_unsigned (take 8 (slice bytes (o + 20) 16)))))
    eqn:Hin4.
  - refine (eq_trans (bind_copyField_ok bytes _ _ _ _ _ eq_refl Hin4) _).
    cbv beta zeta. unfold ret.
    rewrite <- !app_assoc. reflexivity.
  - refine (eq_trans (bind_copyField_fail bytes _ _ _ _ Hin4) _).
    reflexivity.
Qed.

Lemma evlrLength_uintAt bytes off : evlrLength bytes off = uintAt bytes (off + 20) 8.
Proof.
  unfold evlrLength, uintAt, slice. rewrite take_take. reflexivity.
Qed.

(** X: the extended record decoder takes a 68-byte prefix (reserved 2,
    user id 16, record id 2, sixteen bytes for the length of which the
    first eight are the value, description 32) and then the payload; no
    payload length is rejected.  It has a result exactly when the prefix
    and the payload lie in the buffer; the payload is then the
    [recordLengthAfterHeader] bytes after the prefix, the length is below
    2^63, the offset ends after the payload and nothing is logged.  A length
    of 2^63 or more never gives a result. *)
Theorem evlr_payload_is_trusted bytes c :
  let o := offset c in
  let n := uintAt bytes (o + 20) 8 in
  (ExtendedVariableLengthRecord.readExtendedVariableLengthRecord bytes c
   = Undefined
   <-> ~ (0 <= o /\ n < 2 ^ 63 /\ o + 68 + n <= Z.of_nat (length bytes)))
  /\ forall evlr c',
       ExtendedVariableLengthRecord.readExtendedVariableLengthRecord bytes c
       = Done (evlr, c') ->
       ExtendedVariableLengthRecord.recordLengthAfterHeader evlr = n
       /\ ExtendedVariableLengthRecord.description evlr
          = slice bytes (o + 36) 32
       /\ ExtendedVariableLengthRecord.record evlr = slice bytes (o + 68) n
       /\ Z.of_nat (length (ExtendedVariableLengthRecord.record evlr)) = n
       /\ offset c' = o + 68 + n
       /\ trace c' = trace c ++ evlrCopies bytes o
       /\ forall d, ~ In (LogError d) (evlrCopies bytes o).
Proof.
  destruct c as [o t]. cbn [offset trace]. cbv zeta.
  rewrite readExtendedVariableLengthRecord_run.
  unfold evlrPayloadLength. rewrite evlrLength_uintAt.
  pose proof (uintAt_range bytes (o + 20) 8 ltac:(lia)) as Hn.
  change (256 ^ 8) with (2 ^ 64) in Hn.
  set (n := uintAt bytes (o + 20) 8) in *.
  assert (Hs : n < 2 ^ 63 -> to_streamsize n = n).
  { intros Hlt. unfold to_streamsize.
    destruct (Z.ltb_spec n (2 ^ 63)); lia. }
  assert (Hneg : 2 ^ 63 <= n -> to_streamsize n < 0).
  { intros Hge. unfold to_streamsize.
    destruct (Z.ltb_spec n (2 ^ 63)); lia. }
  destruct (in_buffer bytes o 68) eqn:H1;
    [destruct (in_buffer bytes (o + 68) (to_streamsize n)) eqn:H2|].
  - apply in_buffer_true in H1, H2.
    assert (Hlt : n < 2 ^ 63)
      by (destruct (Z.lt_ge_cases n (2 ^ 63)); [assumption|
          specialize (Hneg ltac:(assumption)); lia]).
    rewrite (Hs Hlt) in *.
    split; [split; [discriminate|intros Hno; exfalso; apply Hno; lia]|].
    intros evlr c' [= <- <-].
    cbn [ExtendedVariableLengthRecord.recordLengthAfterHeader
           ExtendedVariableLengthRecord.description
           ExtendedVariableLengthRecord.record evlrImage offset trace].
    unfold evlrPayloadLength. rewrite evlrLength_uintAt. fold n.
    rewrite (Hs Hlt).
    repeat split.
    + apply slice_length. apply in_buffer_true. lia.
    + intros d. cbn. intuition discriminate.
  - apply in_buffer_true in H1. apply in_buffer_false in H2.
    split; [|intros evlr c' [=]].
    split; [intros _ (H0 & Hlt & Hle)|reflexivity].
    rewrite (Hs Hlt) in H2. lia.
  - apply in_buffer_false in H1.
    split; [|intros evlr c' [=]].
    split; [intros _ (H0 & Hlt & Hle)|reflexivity]. lia.
Qed.

Lemma evlr_payload_is_trusted_witness :
  exists evlr c',
    ExtendedVariableLengthRecord.readExtendedVariableLengthRecord
      fileWithEVLR (Cursor 443 []) = Done (evlr, c')
    /\ ExtendedVariableLengthRecord.recordLengthAfterHeader evlr = 5
    /\ ExtendedVariableLengthRecord.record evlr = [x01; x02; x03; x04; x05]
    /\ offset c' = 516.
Proof.
  destruct (evlr_payload_is_trusted fileWithEVLR (Cursor 443 []))
    as [_ Hall].
  destruct (ExtendedVariableLengthRecord.readExtendedVariableLengthRecord
              fileWithEVLR (Cursor 443 [])) as [[evlr c']| |e] eqn:E;
    [|vm_compute in E; discriminate..].
  destruct (Hall evlr c' eq_refl) as (Hn & _ & Hrec & _ & Ho & _).
  exists evlr, c'. split; [reflexivity|].
  split; [rewrite Hn; vm_compute; reflexivity|].
  split; [rewrite Hrec; vm_compute; reflexivity|].
  rewrite Ho. vm_compute. reflexivity.
Defined.


Lemma readExtendedVariableLengthRecords_layout bytes n :
  forall i evlrs o t evlrs' c',
    readExtendedVariableLengthRecords bytes n i evlrs (Cursor o t)
      = Done (evlrs', c') ->
    length evlrs' = length evlrs
    /\ (forall k, (k < n)%nat -> (i + k < length evlrs)%nat ->
          evlrs' !! (i + k)%nat
          = Some (evlrImage bytes (evlrOffsetAt bytes o k)))
    /\ (forall j, (j < i)%nat -> evlrs' !! j = evlrs !! j)
    /\ offset c' = evlrOffsetAt bytes o n.
Proof.
  induction n as [|n IH]; intros i evlrs o t evlrs' c' H.
  - injection H as <- <-. cbn. repeat split; intros; try lia; reflexivity.
  - cbn [readExtendedVariableLengthRecords] in H.
    unfold bind at 1 in H.
    rewrite readExtendedVariableLengthRecord_run in H.
    destruct (in_buffer bytes o 68); [|discriminate].
    destruct (in_buffer bytes (o + 68) (evlrPayloadLength bytes o));
      [|discriminate].
    apply IH in H. destruct H as (Hlen & Hnew & Hold & Hoff).
    rewrite length_insert in Hlen, Hnew.
    split; [exact Hlen|]. split; [|split].
    + intros [|k] Hk Hik; cbn [evlrOffsetAt].
      * rewrite Nat.add_0_r in *. rewrite Hold by lia.
        now apply list_lookup_insert_eq.
      * replace (i + S k)%nat with (S i + k)%nat by lia.
        apply Hnew; lia.
    + intros j Hj. rewrite Hold by lia. apply list_lookup_insert_ne. lia.
    + exact Hoff.
Qed.

(** X: extended records are decoded only when [pointDataOnly] is false and
    the minor version is 4 or more; otherwise the cloud has none.  When they
    are, the cloud holds exactly numOfExtendedVariableLengthRecords of them,
    record [k] being the one laid out at the running offset that starts at
    startOfFirstExtendedVariableLengthRecord and moves by 68 bytes plus the
    payload for each record. *)
Theorem read_evlr_sequence bytes pointDataOnly d log :
  read (Some bytes) pointDataOnly = Done (Some d, log) ->
  let evlrs := LasData.extendedVariableLengthRecord d in
  (pointDataOnly = true \/ uintAt bytes 25 1 < 4 -> evlrs = [])
  /\ (pointDataOnly = false -> 4 <= uintAt bytes 25 1 ->
      length evlrs = Z.to_nat (uintAt bytes 243 4)
      /\ forall k, (k < length evlrs)%nat ->
           evlrs !! k
           = Some (evlrImage bytes
                     (evlrOffsetAt bytes
                        (to_streamsize (uintAt bytes 235 8)) k))).
Proof.
  intros H evlrs. subst evlrs.
  apply read_inv in H as [_ [(_ & Hr & _)|(_ & H)]]; [discriminate|].
  destruct H as (vlrs & isOK & c1 & points & c2 & evlrs & c3
                 & _ & _ & H3 & Hr & _).
  destruct isOK; [|discriminate]. injection Hr as ->.
  cbn [LasData.extendedVariableLengthRecord].
  unfold extendedVariableLengthRecordsBlock in H3.
  cbn [headerImage PublicHeader.hasStartOfFirstExtendedVariableLengthRecord
         PublicHeader.hasNumOfExtendedVariableLengthRecords
         PublicHeader.numOfExtendedVariableLengthRecords
         PublicHeader.startOfFirstExtendedVariableLengthRecord] in H3.
  unfold minorAt in H3.
  destruct (Z.leb_spec 4 (uintAt bytes 25 1)) as [Hv|Hv].
  - destruct pointDataOnly; cbn [negb andb] in H3.
    + injection H3 as <- _. split; [reflexivity|discriminate].
    + split; [intros [|]; [discriminate|lia]|]. intros _ _.
      cbv zeta in H3. rewrite bind_seek in H3.
      apply readExtendedVariableLengthRecords_layout in H3
        as (Hlen & Hnew & _ & _).
      rewrite length_replicate in Hlen, Hnew.
      split; [exact Hlen|]. intros k Hk. rewrite Hlen in Hk.
      apply (Hnew k Hk). lia.
  - rewrite andb_false_r in H3. cbn [andb] in H3.
    injection H3 as <- _. split; [reflexivity|lia].
Qed.

Lemma read_evlr_sequence_witness :
  exists d log,
    read (Some fileWithEVLR) false = Done (Some d, log)
    /\ length (LasData.extendedVariableLengthRecord d) = 1%nat
    /\ LasData.extendedVariableLengthRecord d !! 0%nat
       = Some (evlrImage fileWithEVLR 443)
    /\ ExtendedVariableLengthRecord.record (evlrImage fileWithEVLR 443)
       = [x01; x02; x03; x04; x05].
Proof.
  destruct (read (Some fileWithEVLR) false) as [[[d|] log]| |e] eqn:E;
    [ | vm_compute in E; discriminate .. ].
  destruct (read_evlr_sequence fileWithEVLR false d log E) as [_ Hall].
  destruct (Hall eq_refl) as [Hlen Hk]; [vm_compute; discriminate|].
  assert (Hlen' : length (LasData.extendedVariableLengthRecord d) = 1%nat)
    by (rewrite Hlen; vm_compute; reflexivity).
  pose proof (Hk 0%nat ltac:(rewrite Hlen'; lia)) as H0.
  exists d, log. split; [reflexivity|]. split; [exact Hlen'|].
  split; [rewrite H0; vm_compute; reflexivity|].
  vm_compute. reflexivity.
Defined.

(** ** The point block in both modes *)

Lemma readPointDataRecords_length bytes h n :
  forall i recs c recs' c',
    readPointDataRecords bytes h n i recs c = Done (recs', c') ->
    length recs' = length recs.
Proof.
  induction n as [|n IH]; intros i recs c recs' c' H.
  - injection H as <- _. reflexivity.
  - cbn [readPointDataRecords] in H.
    apply bind_inv in H as (u & c1 & _ & H).
    apply bind_inv in H as (r & c2 & _ & H).
    apply IH in H. now rewrite length_insert in H.
Qed.

(** The records the point loop stores depend on the buffer and the header
    only, not on the cursor the loop starts from. *)
Lemma readPointDataRecords_any_cursor bytes h n :
  forall i recs c1 c2 recs' c1',
    readPointDataRecords bytes h n i recs c1 = Done (recs', c1') ->
    exists c2', readPointDataRecords bytes h n i recs c2 = Done (recs', c2').
Proof.
  induction n as [|n IH]; intros i recs c1 c2 recs' c1' H.
  - injection H as <- _. eexists. reflexivity.
  - cbn [readPointDataRecords] in *. rewrite bind_seek in *.
    unfold bind at 1 in H. unfold bind at 1.
    rewrite readPointDataRecord_run in *.
    destruct ((0 <=? PublicHeader.pointDataRecordFormat h)
              && (PublicHeader.pointDataRecordFormat h <? 5)).
    + destruct (in_buffer bytes _ _); [|discriminate].
      eapply IH. exact H.
    + eapply IH. exact H.
Qed.

(** X: [pointDataOnly] changes nothing but the two lists of variable
    length records.  Whenever [read] with [pointDataOnly = false] returns,
    null or not, on a file whose format is at most 10, [read] with
    [pointDataOnly = true] returns a cloud with the decoded header, no VLR
    and no EVLR; and when the first is a cloud too, both have the same
    header and the same point records. *)
Theorem read_modes_agree_on_points bytes r log :
  read (Some bytes) false = Done (r, log) ->
  formatAt bytes <= 10 ->
  exists d log',
    read (Some bytes) true = Done (Some d, log')
    /\ LasData.header d = headerImage bytes
    /\ LasData.variableLengthRecords d = []
    /\ LasData.extendedVariableLengthRecord d = []
    /\ forall d',
         r = Some d' ->
         LasData.header d' = LasData.header d
         /\ LasData.pointDataRecords d' = LasData.pointDataRecords d.
Proof.
  intros H Hf.
  apply read_inv in H as [Hlen [(Hf' & _)|(_ & H)]]; [lia|].
  destruct H as (vlrs & isOK & c1 & points & c2 & evlrs & c3
                 & _ & H2 & _ & -> & _).
  apply pointDataRecordsBlock_inv in H2 as [Hmax H2].
  rewrite (read_pointDataOnly_run bytes Hlen Hf). cbv zeta.
  apply Z.leb_le in Hmax. rewrite Hmax.
  lazymatch goal with
  | |- context [readPointDataRecords _ _ _ _ _ ?c0] =>
      destruct (readPointDataRecords_any_cursor _ _ _ _ _ _ c0 _ _ H2)
        as (c2' & E2)
  end.
  rewrite E2.
  eexists. eexists. split; [reflexivity|].
  cbn [LasData.header LasData.variableLengthRecords
         LasData.extendedVariableLengthRecord LasData.pointDataRecords].
  repeat split; destruct isOK; try discriminate;
    injection H as <-; reflexivity.
Qed.

Lemma read_modes_agree_on_points_witness :
  exists d log' log,
    read (Some fileVLROverflow) false = Done (None, log)
    /\ read (Some fileVLROverflow) true = Done (Some d, log')
    /\ LasData.variableLengthRecords d = [].
Proof.
  destruct (read (Some fileVLROverflow) false) as [[r log]| |e] eqn:E;
    [|vm_compute in E; discriminate..].
  destruct (read_modes_agree_on_points fileVLROverflow r log E)
    as (d & log' & E' & _ & Hv & _); [vm_compute; discriminate|].
  exists d, log', log. split; [|split; [exact E'|exact Hv]].
  vm_compute in E. injection E as <- <-. reflexivity.
Defined.


(** For formats 0 to 4 the point loop copies, record after record, the
    fields of the format and nothing else. *)
Lemma readPointDataRecords_copies bytes h :
  0 <= PublicHeader.pointDataRecordFormat h <= 4 ->
  0 <= PublicHeader.offsetToPointData h < 2 ^ 32 ->
  0 <= PublicHeader.pointDataRecordLength h < 2 ^ 16 ->
  forall n i recs c recs' c',
    Z.of_nat (i + n) <= 2 ^ 32 ->
    readPointDataRecords bytes h n i recs c = Done (recs', c') ->
    trace c'
    = trace c ++ pointBlockCopies (PublicHeader.pointDataRecordFormat h)
                   (PublicHeader.offsetToPointData h)
                   (PublicHeader.pointDataRecordLength h) i n.
Proof.
  intros Hf Ho Hl.
  induction n as [|n IH]; intros i recs c recs' c' Hn H.
  - injection H as _ <-. cbn. now rewrite app_nil_r.
  - cbn [readPointDataRecords pointBlockCopies] in *.
    rewrite bind_seek in H.
    set (o := PublicHeader.offsetToPointData h
              + Z.of_nat i * PublicHeader.pointDataRecordLength h) in *.
    assert (Ho' : 0 <= o < 2 ^ 63) by (unfold o; nia).
    replace (to_streamsize (o mod 2 ^ 64)) with o in H.
    2:{ rewrite Z.mod_small by lia. unfold to_streamsize.
        destruct (Z.ltb_spec o (2 ^ 63)); lia. }
    unfold bind at 1 in H. rewrite readPointDataRecord_run in H.
    assert (E : (0 <=? PublicHeader.pointDataRecordFormat h)
                && (PublicHeader.pointDataRecordFormat h <? 5) = true).
    { apply andb_true_iff. split; [apply Z.leb_le|apply Z.ltb_lt]; lia. }
    rewrite E in H.
    destruct (in_buffer bytes o _); [|discriminate].
    apply IH in H; [|lia]. cbn [trace] in H.
    rewrite H, <- app_assoc. reflexivity.
Qed.

(** X: in point-data-only mode, for formats 0 to 4, the copies [read]
    makes are those of the header fields followed, for each record [j] of
    the legacy point count, by the fields of the format at
    [offsetToPointData + j * pointDataRecordLength]; nothing else is read
    (no byte of the VLR region, none of a record beyond the fields of its
    format) and nothing is logged. *)
Theorem read_point_data_only_footprint bytes r log :
  read (Some bytes) true = Done (r, log) ->
  formatAt bytes <= 4 ->
  log = fixedHeaderCopies ++ gatedHeaderCopies (headerImage bytes)
        ++ pointBlockCopies (formatAt bytes) (uintAt bytes 96 4)
             (uintAt bytes 105 2) 0 (Z.to_nat (uintAt bytes 107 4))
  /\ forall d, ~ In (LogError d) log.
Proof.
  intros H Hf.
  pose proof (formatAt_range bytes) as Hf0.
  pose proof (headerImage_bounds bytes) as (Ho & Hl & Hn).
  apply read_inv in H as [_ [(Hf' & _)|(_ & H)]]; [lia|].
  destruct H as (vlrs & isOK & c1 & points & c2 & evlrs & c3
                 & H1 & H2 & H3 & _ & ->).
  unfold variableLengthRecordsBlock in H1. cbn [negb] in H1.
  injection H1 as _ _ <-.
  unfold extendedVariableLengthRecordsBlock in H3. cbn [negb andb] in H3.
  injection H3 as _ <-.
  apply pointDataRecordsBlock_inv in H2 as [_ H2]. unfold pointCount in H2.
  change (PublicHeader.pointDataRecordFormat (headerImage bytes))
    with (formatAt bytes) in H2.
  assert (E : (formatAt bytes <=? 5) = true) by (apply Z.leb_le; lia).
  rewrite E in H2.
  apply readPointDataRecords_copies in H2;
    [ | change (PublicHeader.pointDataRecordFormat (headerImage bytes))
          with (formatAt bytes); lia
      | exact Ho | exact Hl | cbn [Nat.add]; lia ].
  cbn [trace] in H2.
  assert (Hlog : trace c2
                 = fixedHeaderCopies ++ gatedHeaderCopies (headerImage bytes)
                   ++ pointBlockCopies (formatAt bytes) (uintAt bytes 96 4)
                        (uintAt bytes 105 2) 0
                        (Z.to_nat (uintAt bytes 107 4)))
    by (rewrite H2, <- ?app_assoc; reflexivity).
  split; [exact Hlog|].
  intros d Hd. rewrite Hlog in Hd.
  apply in_app_or in Hd as [Hd|Hd];
    [cbn in Hd; intuition discriminate|].
  apply in_app_or in Hd as [Hd|Hd].
  - unfold gatedHeaderCopies in Hd.
    repeat match type of Hd with
           | context [if ?b then _ else _] => destruct b
           end; cbn in Hd; intuition discriminate.
  - clear -Hd. revert Hd.
    generalize 0%nat as i.
    induction (Z.to_nat (uintAt bytes 107 4)) as [|n IH]; intros i Hd;
      [exact Hd|].
    cbn [pointBlockCopies] in Hd. apply in_app_or in Hd as [Hd|Hd].
    + unfold pointCopies in Hd.
      destruct (hasGPSTime (formatAt bytes)), (hasRGB (formatAt bytes));
        cbn in Hd; intuition discriminate.
    + exact (IH _ Hd).
Qed.

Lemma read_point_data_only_footprint_witness :
  exists r,
    read (Some fileFormat0) true
    = Done (r, fixedHeaderCopies ++ pointCopies 0 227 ++ pointCopies 0 263).
Proof.
  destruct (read (Some fileFormat0) true) as [[r log]| |e] eqn:E;
    [|vm_compute in E; discriminate..].
  destruct (read_point_data_only_footprint fileFormat0 r log E) as [-> _].
  - vm_compute. discriminate.
  - exists r. vm_compute. reflexivity.
Defined.

(** X: the number of points of a cloud is the count the header declares for
    its format: the 32-bit legacy count (bytes 107 to 110) for formats 0 to
    5, the 64-bit count (bytes 247 to 254) for formats 6 to 10.  The 64-bit
    count is decoded only from minor version 4 on, so a file of an earlier
    version declaring a format from 6 to 10 gives a cloud with no point,
    whatever its legacy count. *)
Theorem read_point_count bytes pointDataOnly d log :
  read (Some bytes) pointDataOnly = Done (Some d, log) ->
  LasData.getNumPoints d
  = Z.to_nat (if formatAt bytes <=? 5 then uintAt bytes 107 4
              else if 4 <=? uintAt bytes 25 1 then uintAt bytes 247 8
                   else 0)
  /\ (6 <= formatAt bytes -> uintAt bytes 25 1 < 4 ->
      LasData.pointDataRecords d = []).
Proof.
  intros H.
  apply read_inv in H as [_ [(_ & Hr & _)|(_ & H)]]; [discriminate|].
  destruct H as (vlrs & isOK & c1 & points & c2 & evlrs & c3
                 & _ & H2 & _ & Hr & _).
  destruct isOK; [|discriminate]. injection Hr as ->.
  unfold LasData.getNumPoints. cbn [LasData.pointDataRecords].
  apply pointDataRecordsBlock_inv in H2 as [_ H2]. unfold pointCount in H2.
  apply readPointDataRecords_length in H2.
  rewrite length_replicate in H2.
  change (PublicHeader.pointDataRecordFormat (headerImage bytes))
    with (formatAt bytes) in H2.
  cbn [headerImage PublicHeader.legacyNumOfPointRecords
         PublicHeader.numOfPointRecords] in H2.
  unfold minorAt in H2.
  split; [exact H2|].
  intros Hf Hv. apply nil_length_inv. rewrite H2.
  destruct (Z.leb_spec (formatAt bytes) 5); [lia|].
  destruct (Z.leb_spec 4 (uintAt bytes 25 1)); [lia|]. reflexivity.
Qed.

Lemma read_point_count_witness :
  exists d log,
    read (Some fileFormat6v12) true = Done (Some d, log)
    /\ uintAt fileFormat6v12 107 4 = 3
    /\ LasData.getNumPoints d = 0%nat.
Proof.
  destruct (read (Some fileFormat6v12) true) as [[[d|] log]| |e] eqn:E;
    [ | vm_compute in E; discriminate .. ].
  destruct (read_point_count fileFormat6v12 true d log E) as [Hn _].
  exists d, log. split; [reflexivity|]. split; [vm_compute; reflexivity|].
  rewrite Hn. vm_compute. reflexivity.
Defined.

(** ** Colours of a cloud without colour channels *)

Lemma getPointColors_all_zero d :
  Forall (fun r => PointDataRecord.red r = 0 /\ PointDataRecord.green r = 0
                   /\ PointDataRecord.blue r = 0)
         (LasData.pointDataRecords d) ->
  LasData.getPointColors d = replicate (3 * LasData.getNumPoints d) 0.
Proof.
  intros Hall. unfold LasData.getPointColors. cbv zeta.
  unfold LasData.getNumPoints.
  generalize (3 * length (LasData.pointDataRecords d))%nat as m.
  assert (Hn : (length (LasData.pointDataRecords d)
                <= length (LasData.pointDataRecords d))%nat) by lia.
  revert Hn.
  generalize (length (LasData.pointDataRecords d)) at 1 3 as n.
  induction n as [|n IH]; intros Hn m; [reflexivity|].
  rewrite seq_S, foldl_app, IH by lia. cbn [foldl Nat.add].
  destruct (nth_lookup_or_length (LasData.pointDataRecords d) n
              PointDataRecord.default) as [Hr|]; [|lia].
  rewrite Forall_lookup in Hall.
  destruct (Hall _ _ Hr) as (-> & -> & ->).
  change (truncate (double_of_int 0 * LasData.scaleFactor)%float) with 0.
  now rewrite !insert_replicate.
Qed.

(** X: a cloud read from a file whose format has no colour channels
    (any format but 2 and 3, placeholders included) has only zero bytes in
    [getPointColors()]. *)
Theorem colourless_formats_give_black bytes pointDataOnly d log :
  read (Some bytes) pointDataOnly = Done (Some d, log) ->
  formatAt bytes <> 2 -> formatAt bytes <> 3 ->
  LasData.getPointColors d = replicate (3 * LasData.getNumPoints d) 0.
Proof.
  intros H H2 H3. apply getPointColors_all_zero.
  apply Forall_lookup. intros j r Hr.
  destruct (Z.le_gt_cases (formatAt bytes) 4) as [Hf|Hf].
  - destruct (read_points_layout _ _ _ _ H Hf) as [_ Hd].
    destruct (Hd d eq_refl) as (_ & Hlen & Hrec).
    apply lookup_lt_Some in Hr as Hj. rewrite Hlen in Hj.
    rewrite (Hrec j Hj) in Hr. injection Hr as <-.
    unfold pointImage.
    cbn [PointDataRecord.red PointDataRecord.green PointDataRecord.blue].
    assert (E : hasRGB (formatAt bytes) = false).
    { unfold hasRGB. apply orb_false_iff. split; apply Z.eqb_neq; assumption. }
    rewrite E. auto.
  - destruct (read_points_placeholders _ _ _ _ H ltac:(lia)) as (_ & Hp & _).
    rewrite Hp in Hr. apply lookup_replicate in Hr as [-> _].
    cbn. auto.
Qed.

Lemma colourless_formats_give_black_witness :
  exists d log,
    read (Some fileFormat1) true = Done (Some d, log)
    /\ LasData.getPointColors d = [0; 0; 0; 0; 0; 0].
Proof.
  destruct (read (Some fileFormat1) true) as [[[d|] log]| |e] eqn:E;
    [ | vm_compute in E; discriminate .. ].
  pose proof (colourless_formats_give_black fileFormat1 true d log E) as H.
  exists d, log. split; [reflexivity|].
  rewrite H; [ | vm_compute; discriminate | vm_compute; discriminate ].
  vm_compute in E. injection E as <- _. reflexivity.
Defined.

(* ====================================================================== *)
(** * The stream-based readers *)
(* ====================================================================== *)

Lemma legacy_bind_bind {A B C} (m : Legacy.L A) (f : A -> Legacy.L B)
    (g : B -> Legacy.L C) s :
  Legacy.bind (Legacy.bind m f) g s
  = Legacy.bind m (fun a => Legacy.bind (f a) g) s.
Proof. unfold Legacy.bind. destruct (m s). reflexivity. Qed.

Lemma legacy_bind_ret {A B} (a : A) (k : A -> Legacy.L B) s :
  Legacy.bind (Legacy.ret a) k s = k a s.
Proof. reflexivity. Qed.

(** A read that fits leaves the stream good, just after the bytes read,
    which are then at the front of the buffer. *)
Lemma legacy_bind_readBytes_ok {B} content n (k : unit -> Legacy.L B)
    p p' buf errs :
  p' = p + n -> in_buffer content p n = true ->
  Legacy.bind (Legacy._readBytes content n) k
    (Legacy.State (Legacy.Stream p false) buf errs)
  = k tt (Legacy.State (Legacy.Stream p' false)
            (slice content p n ++ drop (Z.to_nat n) buf) errs).
Proof.
  intros -> Hin. pose proof (slice_length _ _ _ Hin) as Hl.
  unfold Legacy.bind, Legacy._readBytes, Legacy.ifstream_read.
  cbn [Legacy.file Legacy.failbit Legacy.position Legacy.buffer
       Legacy.errors].
  rewrite Hl, Z.ltb_irrefl.
  replace (length (slice content p n)) with (Z.to_nat n) by lia.
  reflexivity.
Qed.

Lemma legacy_bind_field_ok {B} content n (k : list byte -> Legacy.L B)
    p p' buf errs :
  p' = p + n -> in_buffer content p n = true ->
  Legacy.bind (Legacy.field content n) k
    (Legacy.State (Legacy.Stream p false) buf errs)
  = k (slice content p n)
      (Legacy.State (Legacy.Stream p' false)
         (slice content p n ++ drop (Z.to_nat n) buf) errs).
Proof.
  intros Hp Hin. pose proof (slice_length _ _ _ Hin) as Hl.
  unfold Legacy.field. rewrite legacy_bind_bind.
  rewrite (legacy_bind_readBytes_ok _ _ _ _ _ _ _ Hp Hin).
  unfold Legacy.bind, Legacy.bufferFront. cbn [Legacy.buffer].
  rewrite take_app_length' by lia. reflexivity.
Qed.

Lemma legacy_bind_uintField_ok {B} content n (k : Z -> Legacy.L B)
    p p' buf errs :
  p' = p + n -> in_buffer content p n = true ->
  Legacy.bind (Legacy.uintField content n) k
    (Legacy.State (Legacy.Stream p false) buf errs)
  = k (uintAt content p n)
      (Legacy.State (Legacy.Stream p' false)
         (slice content p n ++ drop (Z.to_nat n) buf) errs).
Proof.
  intros Hp Hin. unfold Legacy.uintField. rewrite legacy_bind_bind.
  rewrite (legacy_bind_field_ok _ _ _ _ _ _ _ Hp Hin). reflexivity.
Qed.

Lemma legacy_bind_doubleField_ok {B} content n (k : float -> Legacy.L B)
    p p' buf errs :
  p' = p + n -> in_buffer content p n = true ->
  Legacy.bind (Legacy.doubleField content n) k
    (Legacy.State (Legacy.Stream p false) buf errs)
  = k (double_of_bits (uintAt content p n))
      (Legacy.State (Legacy.Stream p' false)
         (slice content p n ++ drop (Z.to_nat n) buf) errs).
Proof.
  intros Hp Hin. unfold Legacy.doubleField. rewrite legacy_bind_bind.
  rewrite (legacy_bind_field_ok _ _ _ _ _ _ _ Hp Hin). reflexivity.
Qed.

(** The position [n] bytes on: a numeral for a numeral, [base + constant]
    otherwise. *)
Ltac stream_next o n :=
  lazymatch o with
  | ?b + ?k => let s := eval vm_compute in (k + n) in constr:(b + s)
  | _ => match constr:(Set) with
         | _ => let _ := match constr:(Set) with _ => is_var o end in
                constr:(o + n)
         | _ => eval vm_compute in (o + n)
         end
  end.

(** One step of a stream reader all of whose reads fit. *)
Ltac stream_step lemma b n k o buf e :=
  let n' := eval vm_compute in n in
  let o' := stream_next o n' in
  refine (eq_trans
            (lemma _ b n' k o o' buf e ltac:(lia)
               ltac:(apply in_buffer_true; lia)) _);
  cbv beta zeta.

Ltac stream_field :=
  lazymatch goal with
  | |- Legacy.bind (Legacy.field ?b ?n) ?k
         (Legacy.State (Legacy.Stream ?o false) ?buf ?e) = _ =>
      stream_step @legacy_bind_field_ok b n k o buf e
  | |- Legacy.bind (Legacy.uintField ?b ?n) ?k
         (Legacy.State (Legacy.Stream ?o false) ?buf ?e) = _ =>
      stream_step @legacy_bind_uintField_ok b n k o buf e
  | |- Legacy.bind (Legacy.doubleField ?b ?n) ?k
         (Legacy.State (Legacy.Stream ?o false) ?buf ?e) = _ =>
      stream_step @legacy_bind_doubleField_ok b n k o buf e
  | |- Legacy.bind (Legacy._readBytes ?b ?n) ?k
         (Legacy.State (Legacy.Stream ?o false) ?buf ?e) = _ =>
      stream_step @legacy_bind_readBytes_ok b n k o buf e
  | |- Legacy.bind (Legacy.ret ?a) ?k ?s = _ =>
      refine (eq_trans (legacy_bind_ret a k s) _); cbv beta zeta
  | |- Legacy.bind (Legacy.bind ?m ?f) ?g ?s = _ =>
      refine (eq_trans (legacy_bind_bind m f g s) _); cbv beta zeta
  end.

(** ** What a good stream at the end tells about the reads *)

Lemma consumes_ret {A} content n (a : A) :
  n = 0 -> Legacy.consumes content n (Legacy.ret a).
Proof.
  intros ->. split; [lia|]. intros s Hs. cbn in *. split; [exact Hs|].
  intros _. split; lia.
Qed.

Lemma consumes_bind {A B} content n1 n (m : Legacy.L A)
    (k : A -> Legacy.L B) :
  Legacy.consumes content n1 m ->
  (forall a, Legacy.consumes content (n - n1) (k a)) ->
  Legacy.consumes content n (Legacy.bind m k).
Proof.
  intros [Hn1 Hm] Hk. split.
  - destruct (m (Legacy.State (Legacy.Stream 0 false) [] [])) as [a _].
    destruct (Hk a) as [Hn2 _]. lia.
  - intros s. specialize (Hm s). unfold Legacy.bind.
    destruct (m s) as [a s']. cbn [snd] in Hm.
    destruct (Hk a) as [Hn2 Hka]. specialize (Hka s').
    intros Hgood. destruct (Hka Hgood) as [Hmid Hk2].
    destruct (Hm Hmid) as [Hinit Hm2]. split; [exact Hinit|].
    intros Hpos. destruct (Hm2 Hpos) as [Hp1 Hb1].
    destruct (Hk2 ltac:(lia)) as [Hp2 Hb2]. split; [lia|].
    intros Hn. destruct (Z.eq_dec (n - n1) 0); lia.
Qed.

Lemma consumes_readBytes content n :
  0 < n -> Legacy.consumes content n (Legacy._readBytes content n).
Proof.
  intros Hn. split; [lia|]. intros [[p fb] buf errs].
  unfold Legacy._readBytes, Legacy.ifstream_read.
  cbn [Legacy.file Legacy.failbit Legacy.position Legacy.buffer
       Legacy.errors].
  destruct fb; cbn [snd Legacy.file Legacy.failbit Legacy.position];
    [discriminate|].
  intros Hgood%Z.ltb_ge. split; [reflexivity|]. intros Hp.
  pose proof (slice_length_le content p n) as Hle.
  unfold slice in *. rewrite length_take, length_drop in *. lia.
Qed.

Lemma consumes_bufferFront content n :
  Legacy.consumes content 0 (Legacy.bufferFront n).
Proof.
  split; [lia|]. intros s Hs. cbn in *. split; [exact Hs|]. lia.
Qed.

Lemma consumes_logError content d :
  Legacy.consumes content 0 (Legacy.logError d).
Proof.
  split; [lia|]. intros s Hs. cbn in *. split; [exact Hs|]. lia.
Qed.

Lemma consumes_field content n :
  0 < n -> Legacy.consumes content n (Legacy.field content n).
Proof.
  intros Hn. unfold Legacy.field.
  apply (consumes_bind content n); [apply consumes_readBytes; lia|].
  intros _. replace (n - n) with 0 by lia. apply consumes_bufferFront.
Qed.

Lemma consumes_uintField content n :
  0 < n -> Legacy.consumes content n (Legacy.uintField content n).
Proof.
  intros Hn. unfold Legacy.uintField.
  apply (consumes_bind content n); [apply consumes_field; lia|].
  intros bs. apply consumes_ret. lia.
Qed.

Lemma consumes_doubleField content n :
  0 < n -> Legacy.consumes content n (Legacy.doubleField content n).
Proof.
  intros Hn. unfold Legacy.doubleField.
  apply (consumes_bind content n); [apply consumes_field; lia|].
  intros bs. apply consumes_ret. lia.
Qed.

Lemma consumes_assoc {A B C} content n (m : Legacy.L A)
    (f : A -> Legacy.L B) (g : B -> Legacy.L C) :
  Legacy.consumes content n
    (Legacy.bind m (fun a => Legacy.bind (f a) g)) ->
  Legacy.consumes content n (Legacy.bind (Legacy.bind m f) g).
Proof.
  intros [Hn H]. split; [exact Hn|]. intros s.
  rewrite legacy_bind_bind. apply H.
Qed.

(** The bytes a chain of reads consumes, read by read. *)
Ltac consumes_tac :=
  lazymatch goal with
  | |- Legacy.consumes _ _ (Legacy.bind (Legacy.field _ ?n) _) =>
      let n' := eval vm_compute in n in
      apply (consumes_bind _ n'); [apply (consumes_field _ n'); lia|];
      intros ?; consumes_tac
  | |- Legacy.consumes _ _ (Legacy.bind (Legacy.uintField _ ?n) _) =>
      let n' := eval vm_compute in n in
      apply (consumes_bind _ n'); [apply (consumes_uintField _ n'); lia|];
      intros ?; consumes_tac
  | |- Legacy.consumes _ _ (Legacy.bind (Legacy.doubleField _ ?n) _) =>
      let n' := eval vm_compute in n in
      apply (consumes_bind _ n'); [apply (consumes_doubleField _ n'); lia|];
      intros ?; consumes_tac
  | |- Legacy.consumes _ _ (Legacy.bind (Legacy._readBytes _ ?n) _) =>
      let n' := eval vm_compute in n in
      apply (consumes_bind _ n'); [apply (consumes_readBytes _ n'); lia|];
      intros ?; consumes_tac
  | |- Legacy.consumes _ _ (Legacy.bind (Legacy.logError _) _) =>
      apply (consumes_bind _ 0); [apply consumes_logError|];
      intros ?; consumes_tac
  | |- Legacy.consumes _ _ (Legacy.bind (Legacy.ret _) _) =>
      apply (consumes_bind _ 0); [apply consumes_ret; reflexivity|];
      intros ?; consumes_tac
  | |- Legacy.consumes _ _ (Legacy.bind (Legacy.bind _ _) _) =>
      apply consumes_assoc; consumes_tac
  | |- Legacy.consumes _ _ (Legacy.ret _) =>
      apply consumes_ret; vm_compute; reflexivity
  end.

Lemma pair_run_eq {A} (r : A * Legacy.state) a s :
  r = (a, s) ->
  (let (publicHeader, s') := r in (publicHeader, Legacy.file s'))
  = (a, Legacy.file s).
Proof. intros ->. reflexivity. Qed.

(** With 375 bytes to read the header is the image of the file's first 375
    bytes, whatever version they declare. *)
Lemma legacy_readPublicHeader_run content :
  375 <= Z.of_nat (length content) ->
  Legacy.PublicHeader._readPublicHeader content (Legacy.Stream 0 false)
  = (Legacy.headerImage content, Legacy.Stream 375 false).
Proof.
  intros Hlen. unfold Legacy.PublicHeader._readPublicHeader. cbv zeta.
  refine (pair_run_eq _ _ (Legacy.State (Legacy.Stream 375 false) _ []) _).
  unfold Legacy.headerImage.
  do 37 stream_field.
  reflexivity.
Qed.

(** A header read that leaves the stream good had 375 bytes to read. *)
Lemma legacy_readPublicHeader_good content f :
  0 <= Legacy.position f ->
  Legacy.failbit
    (snd (Legacy.PublicHeader._readPublicHeader content f)) = false ->
  Legacy.failbit f = false
  /\ Legacy.position f + 375 <= Z.of_nat (length content).
Proof.
  unfold Legacy.PublicHeader._readPublicHeader. cbv zeta.
  match goal with
  | |- context [let (_, _) := ?m ?s in _] =>
      assert (Hc : Legacy.consumes content 375 m) by consumes_tac;
      destruct Hc as [_ Hc]; specialize (Hc s); destruct (m s) as [h s']
  end.
  cbn [snd Legacy.file] in *. intros Hp Hgood.
  destruct (Hc Hgood) as [H0 H1]. split; [exact H0|].
  destruct (H1 Hp) as [_ H2]. lia.
Qed.

Lemma legacy_readPointDataRecordFotmat0to4_run content format o buf errs :
  in_buffer content o (pointBytes format) = true ->
  exists buf',
    Legacy._readPointDataRecordFotmat0to4 content format
      (Legacy.State (Legacy.Stream o false) buf errs)
    = (pointImage content format o,
       Legacy.State (Legacy.Stream (o + pointBytes format) false) buf' errs).
Proof.
  intros Hin%in_buffer_true.
  unfold Legacy._readPointDataRecordFotmat0to4, pointImage, pointBytes in *.
  change ((format =? 1) || (format =? 3) || (format =? 4))
    with (hasGPSTime format).
  change ((format =? 2) || (format =? 3)) with (hasRGB format).
  destruct (hasGPSTime format), (hasRGB format);
    cbv beta iota zeta in Hin |- *; eexists;
    repeat stream_field; reflexivity.
Qed.

Lemma consumes_readPointDataRecordFotmat0to4 content format :
  Legacy.consumes content (pointBytes format)
    (Legacy._readPointDataRecordFotmat0to4 content format).
Proof.
  unfold Legacy._readPointDataRecordFotmat0to4, pointBytes.
  change ((format =? 1) || (format =? 3) || (format =? 4))
    with (hasGPSTime format).
  change ((format =? 2) || (format =? 3)) with (hasRGB format).
  destruct (hasGPSTime format), (hasRGB format); cbv beta iota zeta.
  all: consumes_tac.
Qed.

Lemma silent_bind {A B} (m : Legacy.L A) (k : A -> Legacy.L B) :
  Legacy.silent m -> (forall a, Legacy.silent (k a)) ->
  Legacy.silent (Legacy.bind m k).
Proof.
  intros Hm Hk s. unfold Legacy.bind. specialize (Hm s).
  destruct (m s) as [a s']. rewrite Hk. exact Hm.
Qed.

Lemma silent_ret {A} (a : A) : Legacy.silent (Legacy.ret a).
Proof. intros s. reflexivity. Qed.

Lemma silent_readBytes content n : Legacy.silent (Legacy._readBytes content n).
Proof.
  intros s. unfold Legacy._readBytes.
  destruct (Legacy.ifstream_read content n (Legacy.file s)). reflexivity.
Qed.

Lemma silent_field content n : Legacy.silent (Legacy.field content n).
Proof.
  apply silent_bind; [apply silent_readBytes|]. intros _ s. reflexivity.
Qed.

Lemma silent_readPointDataRecordFotmat0to4 content format :
  Legacy.silent (Legacy._readPointDataRecordFotmat0to4 content format).
Proof.
  unfold Legacy._readPointDataRecordFotmat0to4.
  destruct ((format =? 1) || (format =? 3) || (format =? 4)),
    ((format =? 2) || (format =? 3));
    repeat first [ apply silent_ret | apply silent_field
                 | apply silent_readBytes
                 | apply silent_bind; [|intros ?] ].
Qed.

Lemma legacy_readPointDataRecord_run content format o buf errs :
  (if (0 <=? format) && (format <? 5)
   then in_buffer content o (pointBytes format) else true) = true ->
  exists buf',
    Legacy._readPointDataRecord content format
      (Legacy.State (Legacy.Stream o false) buf errs)
    = if (0 <=? format) && (format <? 5)
      then (pointImage content format o,
            Legacy.State (Legacy.Stream (o + pointBytes format) false)
              buf' errs)
      else (PointDataRecord.default,
            Legacy.State (Legacy.Stream o false) buf'
              (errs ++ [UnsupportedPointDataRecordFormat format])).
Proof.
  unfold Legacy._readPointDataRecord.
  destruct ((0 <=? format) && (format <? 5)).
  - apply legacy_readPointDataRecordFotmat0to4_run.
  - intros _. exists buf.
    destruct ((5 <=? format) && (format <? 16)); reflexivity.
Qed.

(* ====================================================================== *)
(** * The two versions of the reader *)
(* ====================================================================== *)

(** X: the stream-based [_readPublicHeader] has no version gating: it
    reads all 37 fields, 375 bytes, whatever minor version the file
    declares.  From the start of a file of at least 375 bytes it returns
    the header laid out by position, the tail fields being bytes 227 to
    374 of the file, and leaves the stream good at position 375; on any
    shorter file, a complete 227-byte or 235-byte header included, it
    leaves the stream failed. *)
Theorem legacy_header_reads_375_bytes content :
  let r := Legacy.PublicHeader._readPublicHeader content
             (Legacy.Stream 0 false) in
  if 375 <=? Z.of_nat (length content)
  then r = (Legacy.headerImage content, Legacy.Stream 375 false)
  else Legacy.failbit (snd r) = true.
Proof.
  cbv zeta. destruct (Z.leb_spec 375 (Z.of_nat (length content))) as [H|H].
  - apply legacy_readPublicHeader_run, H.
  - apply not_false_iff_true. intros Hgood.
    apply legacy_readPublicHeader_good in Hgood as [_ Hlen];
      cbn [Legacy.position] in *; lia.
Qed.

Lemma legacy_header_reads_375_bytes_witness :
  Legacy.failbit
    (snd (Legacy.PublicHeader._readPublicHeader fileFormat3
            (Legacy.Stream 0 false))) = true
  /\ Legacy.PublicHeader.startOfFirstExtendedVariableLengthRecord
       (fst (Legacy.PublicHeader._readPublicHeader fileWithEVLR
               (Legacy.Stream 0 false))) = 443.
Proof.
  pose proof (legacy_header_reads_375_bytes fileFormat3) as H3.
  pose proof (legacy_header_reads_375_bytes fileWithEVLR) as H4.
  cbv zeta in H3, H4.
  change (375 <=? Z.of_nat (length fileFormat3)) with false in H3.
  change (375 <=? Z.of_nat (length fileWithEVLR)) with true in H4.
  split; [exact H3|]. rewrite H4. vm_compute. reflexivity.
Defined.

(** X: on a file of minor version 4 or later the two header readers
    agree: whenever the buffer-based [readPublicHeader] returns a header,
    the stream-based [_readPublicHeader] returns the same field values
    from the start of the same bytes and leaves its stream good at the
    offset the cursor ends at. *)
Theorem legacy_header_agrees bytes c h c' :
  PublicHeader.readPublicHeader bytes c = Done (h, c') ->
  4 <= PublicHeader.versionMinor h ->
  Legacy.PublicHeader._readPublicHeader bytes (Legacy.Stream 0 false)
  = (ungated h, Legacy.Stream (offset c') false).
Proof.
  rewrite readPublicHeader_run.
  destruct (Z.leb_spec (headerLength (minorAt bytes))
              (Z.of_nat (length bytes))) as [Hle|Hgt]; [|discriminate].
  intros [= <- <-]. cbn [offset].
  change (PublicHeader.versionMinor (headerImage bytes))
    with (minorAt bytes).
  intros Hv. unfold headerLength in *.
  assert (E4 : (4 <=? minorAt bytes) = true) by (apply Z.leb_le; lia).
  assert (E3 : (3 <=? minorAt bytes) = true) by (apply Z.leb_le; lia).
  rewrite E3, E4 in *.
  rewrite legacy_readPublicHeader_run by lia.
  unfold headerImage. cbv zeta. rewrite E3, E4. reflexivity.
Qed.

Lemma legacy_header_agrees_witness :
  exists h c',
    PublicHeader.readPublicHeader fileWithEVLR (Cursor 0 []) = Done (h, c')
    /\ Legacy.PublicHeader._readPublicHeader fileWithEVLR
         (Legacy.Stream 0 false)
       = (ungated h, Legacy.Stream 375 false).
Proof.
  destruct (PublicHeader.readPublicHeader fileWithEVLR (Cursor 0 []))
    as [[h c']| |e] eqn:E; [|vm_compute in E; discriminate..].
  exists h, c'. split; [reflexivity|].
  assert (Hv : PublicHeader.versionMinor h = 4)
    by (rewrite readPublicHeader_run in E; injection E as <- _;
        vm_compute; reflexivity).
  assert (Ho : offset c' = 375)
    by (rewrite readPublicHeader_run in E; injection E as _ <-;
        vm_compute; reflexivity).
  rewrite <- Ho.
  apply (legacy_header_agrees fileWithEVLR (Cursor 0 []) h c' E).
  rewrite Hv. lia.
Defined.




